(** * mcp-server-smtp: a shallow embedding of the document store, the
      template renderer, the send pipelines and the CRUD handlers

    Sources embedded here:
    - [config.ts]         (interfaces, built-in defaults, document store,
                           ensureConfigDirectories, the activity log),
    - [emailService.ts]   (processTemplate, generateEmailContent,
                           sendEmail, sendBulkEmails),
    - [requestHandler.ts] (generateUUID, the list, add, update and
                           delete handlers, the case [get-email-logs]).

    Layout: the modules [Js] to [RequestHandler], and [Logs], [Uuid],
    [Setup] and [ToolHandlers], follow the sources; [Spec], [SmtpModel],
    [TemplateModel], [SendModel], [Examples], the modules named
    [...Views] and [Cases] hold the definitions that the statements are
    written with; the modules after them hold the lemmas: in the
    modules named [...Claims] the properties of the specification, in
    the others further properties of the code.

    Conventions.
    - A JavaScript string is a [string] whose characters are code units in
      the range 0..255 (one [ascii] per code unit).
    - [undefined] is [None] for an optional field and [VUndefined] for a
      dynamically typed value.  Inputs have the types the sources declare.
    - The disk, the module-level objects that the sources mutate, the
      clock and the calls made to the collaborators form the world
      [World.t]; a failing read is a missing document, a failing write is
      decided per path by [writeFails].
    - [async] functions are run to completion one after another: an
      [await] is sequencing in the monad [M], and a save that the
      source does not await is run where it is started.  The sends of
      one batch, which the source starts together and awaits jointly,
      are run in recipient order, one of the orders in which they can
      complete.
    - The templates directory is a list of files in the order in which
      [fs.readdir] enumerates them.  Which place a new file takes in
      that order is the file system's choice; here it comes last. *)

From Stdlib Require Import ZArith Ascii String.
From Stdlib Require HexadecimalString.
From stdpp Require Import base option list gmap strings pretty sorting.

Open Scope Z_scope.
Open Scope nat_scope.

(* ===================================================================== *)
(** * JavaScript values, thrown values, string helpers                    *)
(* ===================================================================== *)

Module Js.

(** A value of type [any] as far as [processTemplate] looks at it:
    whether it is [undefined], and its string form.  [VOther s] is any
    other value (a number, an object, an array, a function) whose
    [String(v)] is [s]. *)
Inductive Val : Type :=
| VUndefined
| VNull
| VBool (b : bool)
| VStr (s : string)
| VOther (repr : string).

Definition toString (v : Val) : string :=
  match v with
  | VUndefined => "undefined"
  | VNull => "null"
  | VBool true => "true"
  | VBool false => "false"
  | VStr s => s
  | VOther s => s
  end.

(** [value !== undefined] *)
Definition isDefined (v : Val) : bool :=
  match v with VUndefined => false | _ => true end.

(** What a [throw] carries: an [Error] with its message, or anything
    else ([error instanceof Error] is false). *)
Inductive Thrown : Type :=
| ErrorObj (message : string)
| NonError.

(** [error instanceof Error ? error.message : fallback] *)
Definition messageOr (fallback : string) (e : Thrown) : string :=
  match e with ErrorObj m => m | NonError => fallback end.

(** Truthiness of a string: the empty string is falsy. *)
Definition truthy (s : string) : bool :=
  match s with EmptyString => false | _ => true end.

(** Truthiness of an optional string: [undefined] and [""] are falsy. *)
Definition truthyOpt (o : option string) : bool :=
  match o with Some s => truthy s | None => false end.

(** [a || b] on an optional string with a string fallback. *)
Definition orElse (o : option string) (d : string) : string :=
  match o with
  | Some s => if truthy s then s else d
  | None => d
  end.

(** White space and line terminators of ECMAScript among the code
    units 0..255: TAB, LF, VT, FF, CR, SP and NBSP. *)
Definition isWhiteSpace (c : ascii) : bool :=
  Ascii.is_space c || Ascii.eqb c "160"%char.

Fixpoint trimStart (s : string) : string :=
  match s with
  | String c s' => if isWhiteSpace c then trimStart s' else s
  | EmptyString => EmptyString
  end.

Fixpoint trimEnd (s : string) : string :=
  match s with
  | String c s' =>
      match trimEnd s' with
      | EmptyString => if isWhiteSpace c then EmptyString
                       else String c EmptyString
      | r => String c r
      end
  | EmptyString => EmptyString
  end.

(** [String.prototype.trim] *)
Definition trim (s : string) : string := trimEnd (trimStart s).

(** [String.prototype.endsWith] *)
Fixpoint endsWith (s suffix : string) : bool :=
  String.eqb s suffix ||
  match s with
  | String _ s' => endsWith s' suffix
  | EmptyString => false
  end.

(** Property read [o[k]] on a plain object: an own property, else the
    property inherited from the prototype ([undefined] when the
    prototype has none). *)
Definition getProp (inherited : string -> Val)
    (o : gmap string Val) (k : string) : Val :=
  match o !! k with
  | Some v => v
  | None => inherited k
  end.

End Js.

(* ===================================================================== *)
(** * emailService.ts: the template renderer                              *)
(* ===================================================================== *)

Module Template.
Import Js.

(** The capture group [([^}]+)]: the longest run of characters other
    than a closing brace, and what follows it. *)
Fixpoint spanKey (s : string) : string * string :=
  match s with
  | String c s' =>
      if Ascii.eqb c "}"%char then (EmptyString, s)
      else let '(k, r) := spanKey s' in (String c k, r)
  | EmptyString => (EmptyString, EmptyString)
  end.

(** A match of [/\{\{([^}]+)\}\}/] anchored at the head of [s]: the
    captured key and the rest of the input after the match.  The group
    is greedy; giving characters back cannot help, since the character
    given back is not a closing brace. *)
Definition matchPlaceholder (s : string) : option (string * string) :=
  match s with
  | String "{" (String "{" s1) =>
      match spanKey s1 with
      | (String c k, String "}" (String "}" rest)) => Some (String c k, rest)
      | _ => None
      end
  | _ => None
  end.

(** The text of a match whose captured key is [key]. *)
Definition placeholder (key : string) : string := "{{" +:+ key +:+ "}}".

Section Render.
(** Properties that a data object inherits from its prototype. *)
Variable inherited : string -> Val.

(** The replacer [(match, key) => ...] of [processTemplate]. *)
Definition replacer (data : gmap string Val) (key : string) : string :=
  let value := getProp inherited data (trim key) in
  if isDefined value then toString value else placeholder key.

(** [template.replace(/.../g, replacer)]: scan from the left; at a
    match, emit the replacement and go on after the match; otherwise
    copy one character.  Every step consumes a character, so a fuel of
    the length of the input is never used up. *)
Fixpoint replaceAll (fuel : nat) (data : gmap string Val) (s : string)
    : string :=
  match fuel with
  | O => s
  | S fuel' =>
      match matchPlaceholder s with
      | Some (key, rest) => replacer data key +:+ replaceAll fuel' data rest
      | None =>
          match s with
          | String c s' => String c (replaceAll fuel' data s')
          | EmptyString => EmptyString
          end
      end
  end.

(** [processTemplate(template, data = {})] *)
Definition processTemplate (template : string)
    (data : option (gmap string Val)) : string :=
  replaceAll (String.length template) (default ∅ data) template.

End Render.

End Template.

(* ===================================================================== *)
(** * config.ts: data model                                               *)
(* ===================================================================== *)

Module Config.
Import Js.

Record Auth : Type := { user : string; pass : string }.

Record SmtpServerConfig : Type := {
  smtp_id : string;
  smtp_name : string;
  host : string;
  port : Z;
  secure : bool;
  auth : Auth;
  smtp_isDefault : bool
}.

Record RateLimitConfig : Type := {
  enabled : bool;
  messagesPerMinute : Z
}.

Record EmailTemplate : Type := {
  tpl_id : string;
  tpl_name : string;
  tpl_subject : string;
  tpl_body : string;
  tpl_isDefault : bool
}.

Record EmailLogEntry : Type := {
  timestamp : string;
  log_smtpConfig : string;
  log_templateId : option string;
  recipient : string;
  log_subject : string;
  log_success : bool;
  log_message : option string
}.

(** A top-level field of the configuration document.  The document
    ([interface SmtpConfig], read back with [fs.readJson]) is a JSON
    object: a map from field names to values.  [FOther] is a field the
    interface does not name, kept as its JSON text. *)
Inductive Field : Type :=
| FServers (servers : list SmtpServerConfig)
| FRateLimit (r : RateLimitConfig)
| FOther (json : string).

Definition setDefaultSmtp (b : bool) (c : SmtpServerConfig)
    : SmtpServerConfig :=
  {| smtp_id := smtp_id c; smtp_name := smtp_name c; host := host c;
     port := port c; secure := secure c; auth := auth c;
     smtp_isDefault := b |}.

Definition setDefaultTpl (b : bool) (t : EmailTemplate) : EmailTemplate :=
  {| tpl_id := tpl_id t; tpl_name := tpl_name t;
     tpl_subject := tpl_subject t; tpl_body := tpl_body t;
     tpl_isDefault := b |}.

(** ** Built-in defaults *)

Definition AWS_SES : SmtpServerConfig :=
  {| smtp_id := "aws-ses"; smtp_name := "AWS SES";
     host := "email-smtp.us-east-1.amazonaws.com"; port := 587%Z;
     secure := false;
     auth := {| user := "AKIAXXXXXXXXXXX"; pass := "XXXXXXXXXXXXXXXX" |};
     smtp_isDefault := true |}.

Definition GMAIL : SmtpServerConfig :=
  {| smtp_id := "gmail"; smtp_name := "Gmail SMTP";
     host := "smtp.gmail.com"; port := 587%Z; secure := false;
     auth := {| user := "eugproductions@gmail.com";
                pass := "rovt fswq crlv bhzk" |};
     smtp_isDefault := false |}.

(** [DEFAULT_SMTP_CONFIG.smtpServers] and [.rateLimit] as the module
    is loaded. *)
Definition DEFAULT_SMTP_SERVERS : list SmtpServerConfig := [AWS_SES; GMAIL].

Definition DEFAULT_RATE_LIMIT : RateLimitConfig :=
  {| enabled := true; messagesPerMinute := 30%Z |}.

Definition DEFAULT_SMTP_CONFIG : gmap string Field :=
  {[ "smtpServers" := FServers DEFAULT_SMTP_SERVERS;
     "rateLimit" := FRateLimit DEFAULT_RATE_LIMIT ]}.

Definition LF : string := String "010"%char EmptyString.

Definition DEFAULT_TEMPLATE : EmailTemplate :=
  {| tpl_id := "default"; tpl_name := "Default Template";
     tpl_subject := "Default Subject";
     tpl_body := "Hello {{name}}," +:+ LF +:+ LF +:+
                 "This is a default email template." +:+ LF +:+ LF +:+
                 "Best regards," +:+ LF +:+ "The Team";
     tpl_isDefault := true |}.

Definition IE_TEMPLATE : EmailTemplate :=
  {| tpl_id := "ie-outreach"; tpl_name := "IE Business School Outreach";
     tpl_subject :=
       "Exclusive AI & Data Science Opportunity - IE Business School Students";
     tpl_body := "Dear {{name}},

I hope this email finds you well. I'm reaching out to a select group of IE Business School students in the Business Analytics & Big Data program.

We're looking for data science and AI enthusiasts to join our growing team for exciting projects combining business analytics with cutting-edge AI solutions.

Would you be available for a brief call to discuss this opportunity? I'd love to learn more about your experience and interests.

Best regards,
The Indosy Team
hello@indosy.com";
     tpl_isDefault := false |}.

Definition ESADE_TEMPLATE : EmailTemplate :=
  {| tpl_id := "esade-outreach"; tpl_name := "ESADE Business School Outreach";
     tpl_subject := "AI & Data Science Opportunity for ESADE Students";
     tpl_body := "Dear {{name}},

I hope your studies at ESADE Business School are going well. I'm reaching out to connect with talented MSc students interested in AI and data science.

Our company is expanding its data science team and looking for talented individuals with your academic background. We'd love to discuss potential opportunities with you.

Would you be interested in learning more? I'm available for a quick call at your convenience.

Best regards,
The Indosy Team
hello@indosy.com";
     tpl_isDefault := false |}.

End Config.

(* ===================================================================== *)
(** * emailService.ts: interfaces                                         *)
(* ===================================================================== *)

Module Mail.

Record EmailRecipient : Type := {
  email : string;
  name : option string
}.

(** [to: EmailRecipient | EmailRecipient[]] *)
Inductive Recipients : Type :=
| One (r : EmailRecipient)
| Many (rs : list EmailRecipient).

(** [string | string[]], the result of [formatRecipients]. *)
Inductive Addresses : Type :=
| Address (a : string)
| AddressList (l : list string).

Record EmailData : Type := {
  to : Recipients;
  subject : string;
  body : string;
  from : option EmailRecipient;
  cc : option (list EmailRecipient);
  bcc : option (list EmailRecipient);
  templateId : option string;
  templateData : option (gmap string Js.Val)
}.

Record BulkEmailData : Type := {
  recipients : list EmailRecipient;
  bulk_subject : string;
  bulk_body : string;
  bulk_from : option EmailRecipient;
  bulk_cc : option (list EmailRecipient);
  bulk_bcc : option (list EmailRecipient);
  bulk_templateId : option string;
  bulk_templateData : option (gmap string Js.Val);
  batchSize : option nat;
  delayBetweenBatches : option Z
}.

(** The options object passed to [nodemailer.createTransport]. *)
Record Transport : Type := {
  t_host : string;
  t_port : Z;
  t_secure : bool;
  t_user : string;
  t_pass : string
}.

(** [mailOptions] of [sendEmail]. *)
Record MailOptions : Type := {
  mo_from : string;
  mo_to : Addresses;
  mo_subject : string;
  mo_html : string;
  mo_cc : option (list string);
  mo_bcc : option (list string)
}.

Record SendResult : Type := {
  success : bool;
  message : option string
}.

Record Failure : Type := {
  f_email : string;
  f_error : string
}.

Record BulkResult : Type := {
  bulk_success : bool;
  totalSent : nat;
  totalFailed : nat;
  failures : option (list Failure);
  bulk_message : option string
}.

End Mail.

(* ===================================================================== *)
(** * The world: files, module-level objects, collaborators               *)
(* ===================================================================== *)

Module World.
Import Js Config Mail.

Inductive Path : Type :=
| SMTP_CONFIG_FILE
| LOG_FILE
| TemplateFile (file : string).

(** [email-logs.json]: absent, present but not parseable, or an array
    of entries. *)
Inductive LogDoc : Type :=
| LogAbsent
| LogCorrupt
| LogEntries (entries : list EmailLogEntry).

(** Calls to the collaborators that a run leaves behind, oldest first:
    timers and mail deliveries. *)
Inductive Event : Type :=
| Timeout (ms : Z)
| SendMail (t : Transport) (m : MailOptions).

Record t : Type := {
  (** [smtp-config.json]; [None] when [fs.readJson] throws on it. *)
  configFile : option (gmap string Field);
  (** The array object [DEFAULT_SMTP_CONFIG.smtpServers].  It is handed
      out by [getSmtpConfigs] itself (not a copy) when the file cannot
      be read, so handlers mutate it in place. *)
  defaultServers : list SmtpServerConfig;
  (** The templates directory in enumeration order, [None] when
      [fs.readdir] throws.  A file is its name and its parsed content,
      [None] when [fs.readJson] throws on it.  Overwriting a file keeps
      its place; a new file is put last, which is one of the places
      that an enumeration can give it. *)
  templatesDir : option (list (string * option EmailTemplate));
  (** The objects [DEFAULT_TEMPLATE], [IE_TEMPLATE], [ESADE_TEMPLATE];
      [getEmailTemplates] hands them out in a new array when the
      directory cannot be enumerated. *)
  builtinTemplates : EmailTemplate * EmailTemplate * EmailTemplate;
  logFile : LogDoc;
  (** Paths on which a write or a removal fails. *)
  writeFails : Path -> bool;
  (** Milliseconds since the epoch. *)
  clock : Z;
  trace : list Event
}.

Definition setConfigFile (w : t) (d : option (gmap string Field)) : t :=
  {| configFile := d; defaultServers := defaultServers w;
     templatesDir := templatesDir w;
     builtinTemplates := builtinTemplates w; logFile := logFile w;
     writeFails := writeFails w; clock := clock w; trace := trace w |}.

Definition setDefaultServers (w : t) (l : list SmtpServerConfig) : t :=
  {| configFile := configFile w; defaultServers := l;
     templatesDir := templatesDir w;
     builtinTemplates := builtinTemplates w; logFile := logFile w;
     writeFails := writeFails w; clock := clock w; trace := trace w |}.

Definition setTemplatesDir (w : t)
    (d : option (list (string * option EmailTemplate))) : t :=
  {| configFile := configFile w; defaultServers := defaultServers w;
     templatesDir := d;
     builtinTemplates := builtinTemplates w; logFile := logFile w;
     writeFails := writeFails w; clock := clock w; trace := trace w |}.

Definition setBuiltinTemplates (w : t)
    (b : EmailTemplate * EmailTemplate * EmailTemplate) : t :=
  {| configFile := configFile w; defaultServers := defaultServers w;
     templatesDir := templatesDir w;
     builtinTemplates := b; logFile := logFile w;
     writeFails := writeFails w; clock := clock w; trace := trace w |}.

Definition setLogFile (w : t) (l : LogDoc) : t :=
  {| configFile := configFile w; defaultServers := defaultServers w;
     templatesDir := templatesDir w;
     builtinTemplates := builtinTemplates w; logFile := l;
     writeFails := writeFails w; clock := clock w; trace := trace w |}.

Definition addEvent (w : t) (e : Event) (dt : Z) : t :=
  {| configFile := configFile w; defaultServers := defaultServers w;
     templatesDir := templatesDir w;
     builtinTemplates := builtinTemplates w; logFile := logFile w;
     writeFails := writeFails w; clock := (clock w + dt)%Z;
     trace := trace w ++ [e] |}.

(** The world as the module is loaded and [ensureConfigDirectories] has
    run on an empty home directory. *)
Definition initial : t :=
  {| configFile := Some DEFAULT_SMTP_CONFIG;
     defaultServers := DEFAULT_SMTP_SERVERS;
     templatesDir := Some [("default.json", Some DEFAULT_TEMPLATE);
                           ("ie-outreach.json", Some IE_TEMPLATE);
                           ("esade-outreach.json", Some ESADE_TEMPLATE)];
     builtinTemplates := (DEFAULT_TEMPLATE, IE_TEMPLATE, ESADE_TEMPLATE);
     logFile := LogEntries [];
     writeFails := fun _ => false;
     clock := 0%Z;
     trace := [] |}.

End World.

(* ===================================================================== *)
(** * Promises as state passing with exceptions                           *)
(* ===================================================================== *)

Module Run.
Import Js.

(** How an awaited call ends: with a value, with a rejection, or not at
    all (a loop that ran out of fuel). *)
Inductive Outcome (A : Type) : Type :=
| Ok (a : A)
| Throw (e : Thrown)
| Diverge.
Arguments Ok {A} a.
Arguments Throw {A} e.
Arguments Diverge {A}.

Definition M (A : Type) : Type := World.t -> Outcome A * World.t.

Definition ret {A} (a : A) : M A := fun w => (Ok a, w).

Definition bind {A B} (m : M A) (k : A -> M B) : M B :=
  fun w =>
    match m w with
    | (Ok a, w') => k a w'
    | (Throw e, w') => (Throw e, w')
    | (Diverge, w') => (Diverge, w')
    end.

Definition throw {A} (e : Thrown) : M A := fun w => (Throw e, w).

(** [try { m } catch (error) { handler error }] *)
Definition tryCatch {A} (m : M A) (handler : Thrown -> M A) : M A :=
  fun w =>
    match m w with
    | (Throw e, w') => handler e w'
    | r => r
    end.

Definition get : M World.t := fun w => (Ok w, w).

(** [for (const x of xs) { await body x }] *)
Fixpoint forEach {A} (xs : list A) (body : A -> M unit) : M unit :=
  match xs with
  | [] => ret tt
  | x :: xs' => bind (body x) (fun _ => forEach xs' body)
  end.

Module Import Notations.
Notation "'let*' x ':=' m 'in' k" := (bind m (fun x => k))
  (at level 10, x pattern, m at level 100, k at level 200).
Notation "m ';;' k" := (bind m (fun _ => k))
  (at level 100, k at level 200, right associativity).
End Notations.

End Run.

(* ===================================================================== *)
(** * config.ts: the document store                                       *)
(* ===================================================================== *)

Module Store.
Import Js Config World Run Run.Notations.

(** ** File system primitives ([fs-extra]) *)

Definition ioError : Thrown := ErrorObj "I/O error".

(** [fs.readJson(SMTP_CONFIG_FILE)] *)
Definition readJsonConfig : M (gmap string Field) :=
  fun w =>
    match configFile w with
    | Some doc => (Ok doc, w)
    | None => (Throw ioError, w)
    end.

(** [fs.writeJson(SMTP_CONFIG_FILE, doc)] *)
Definition writeJsonConfig (doc : gmap string Field) : M unit :=
  fun w =>
    if writeFails w SMTP_CONFIG_FILE then (Throw ioError, w)
    else (Ok tt, setConfigFile w (Some doc)).

(** [fs.readdir(TEMPLATES_DIR)] *)
Definition readdirTemplates : M (list string) :=
  fun w =>
    match templatesDir w with
    | Some dir => (Ok (dir.*1), w)
    | None => (Throw ioError, w)
    end.

Definition dirLookup (file : string)
    (dir : list (string * option EmailTemplate)) : option EmailTemplate :=
  match List.find (fun e => String.eqb e.1 file) dir with
  | Some e => e.2
  | None => None
  end.

(** [fs.readJson(path.join(TEMPLATES_DIR, file))] *)
Definition readJsonTemplate (file : string) : M EmailTemplate :=
  fun w =>
    match templatesDir w with
    | Some dir =>
        match dirLookup file dir with
        | Some t => (Ok t, w)
        | None => (Throw ioError, w)
        end
    | None => (Throw ioError, w)
    end.

Definition dirWrite (file : string) (t : EmailTemplate)
    (dir : list (string * option EmailTemplate))
    : list (string * option EmailTemplate) :=
  if existsb (fun e => String.eqb e.1 file) dir
  then map (fun e => if String.eqb e.1 file then (file, Some t) else e) dir
  else dir ++ [(file, Some t)].

(** [fs.writeJson(path.join(TEMPLATES_DIR, file), t)]; fails when the
    directory is missing. *)
Definition writeJsonTemplate (file : string) (t : EmailTemplate) : M unit :=
  fun w =>
    if writeFails w (TemplateFile file) then (Throw ioError, w)
    else match templatesDir w with
         | Some dir => (Ok tt, setTemplatesDir w (Some (dirWrite file t dir)))
         | None => (Throw ioError, w)
         end.

Definition dirRemove (file : string)
    (dir : list (string * option EmailTemplate))
    : list (string * option EmailTemplate) :=
  List.filter (fun e => negb (String.eqb e.1 file)) dir.

(** [fs.remove(path.join(TEMPLATES_DIR, file))]; removing what is not
    there is not an error. *)
Definition removeTemplateFile (file : string) : M unit :=
  fun w =>
    if writeFails w (TemplateFile file) then (Throw ioError, w)
    else (Ok tt, setTemplatesDir w (dirRemove file <$> templatesDir w)).

(** [fs.pathExists(LOG_FILE)] *)
Definition pathExistsLog : M bool :=
  fun w =>
    (Ok (match logFile w with LogAbsent => false | _ => true end), w).

(** [fs.readJson(LOG_FILE)] *)
Definition readJsonLog : M (list EmailLogEntry) :=
  fun w =>
    match logFile w with
    | LogEntries l => (Ok l, w)
    | _ => (Throw ioError, w)
    end.

(** [fs.writeJson(LOG_FILE, logs)] *)
Definition writeJsonLog (logs : list EmailLogEntry) : M unit :=
  fun w =>
    if writeFails w LOG_FILE then (Throw ioError, w)
    else (Ok tt, setLogFile w (LogEntries logs)).

(** ** The exported functions *)

(** Which array object a handler holds after [getSmtpConfigs]: one
    parsed anew from the file, or the module-level default array. *)
Inductive ServersRef : Type := ParsedServers | SharedServers.

(** [config.smtpServers || []] (a value under the key that is not an
    array of servers is outside [interface SmtpConfig]) *)
Definition smtpServers (doc : gmap string Field) : list SmtpServerConfig :=
  match doc !! "smtpServers" with
  | Some (FServers l) => l
  | _ => []
  end.

Definition getSmtpConfigsRef : M (ServersRef * list SmtpServerConfig) :=
  tryCatch
    (let* config := readJsonConfig in
     ret (ParsedServers, smtpServers config))
    (fun _ => let* w := get in ret (SharedServers, defaultServers w)).

Definition getSmtpConfigs : M (list SmtpServerConfig) :=
  let* r := getSmtpConfigsRef in ret r.2.

(** [a || b] on optional objects *)
Definition orOpt {A} (a b : option A) : option A :=
  match a with Some _ => a | None => b end.

(** [configs.find(c => c.isDefault) || configs[0]
     || DEFAULT_SMTP_CONFIG.smtpServers[0]] *)
Definition getDefaultSmtpConfig : M (option SmtpServerConfig) :=
  let* configs := getSmtpConfigs in
  let* w := get in
  ret (orOpt (List.find smtp_isDefault configs)
        (orOpt (head configs) (head (defaultServers w)))).

Definition saveSmtpConfigs (configs : list SmtpServerConfig) : M bool :=
  tryCatch
    (let* currentConfig := readJsonConfig in
     let currentConfig := <["smtpServers" := FServers configs]> currentConfig in
     writeJsonConfig currentConfig ;;
     ret true)
    (fun _ => ret false).

(** Which template objects a handler holds after [getEmailTemplates]:
    ones parsed anew from the files, or the module-level built-ins. *)
Inductive TemplatesRef : Type := ParsedTemplates | SharedTemplates.

(** The [for (const file of files)] loop of [getEmailTemplates]. *)
Fixpoint readTemplates (files : list string) (templates : list EmailTemplate)
    : M (list EmailTemplate) :=
  match files with
  | [] => ret templates
  | file :: files' =>
      if endsWith file ".json" then
        let* template := readJsonTemplate file in
        readTemplates files' (templates ++ [template])
      else readTemplates files' templates
  end.

Definition getEmailTemplatesRef : M (TemplatesRef * list EmailTemplate) :=
  tryCatch
    (let* files := readdirTemplates in
     let* templates := readTemplates files [] in
     ret (ParsedTemplates, templates))
    (fun _ =>
       let* w := get in
       let '(d, ie, esade) := builtinTemplates w in
       ret (SharedTemplates, [d; ie; esade])).

Definition getEmailTemplates : M (list EmailTemplate) :=
  let* r := getEmailTemplatesRef in ret r.2.

(** [templates.find(t => t.isDefault) || templates[0] || DEFAULT_TEMPLATE] *)
Definition getDefaultEmailTemplate : M EmailTemplate :=
  let* templates := getEmailTemplates in
  let* w := get in
  ret (default (builtinTemplates w).1.1
         (orOpt (List.find tpl_isDefault templates) (head templates))).

(** [path.join(TEMPLATES_DIR, template.id + ".json")] is taken to be
    the file of that name in the templates directory, which it is for
    an id without a path separator. *)
Definition saveEmailTemplate (template : EmailTemplate) : M bool :=
  tryCatch
    (writeJsonTemplate (tpl_id template +:+ ".json") template ;;
     ret true)
    (fun _ => ret false).

Definition deleteEmailTemplate (templateId : string) : M bool :=
  tryCatch
    (removeTemplateFile (templateId +:+ ".json") ;;
     ret true)
    (fun _ => ret false).

Definition logEmailActivity (entry : EmailLogEntry) : M bool :=
  tryCatch
    (let* present := pathExistsLog in
     let* logs := (if present then readJsonLog else ret []) in
     writeJsonLog (logs ++ [entry]) ;;
     ret true)
    (fun _ => ret false).

End Store.

(* ===================================================================== *)
(** * emailService.ts: the send pipeline and the bulk pipeline            *)
(* ===================================================================== *)

Module EmailService.
Import Js Config Mail World Run Run.Notations Store Template.

Definition dquote : string := String "034"%char EmptyString.

Definition formatRecipient (recipient : EmailRecipient) : string :=
  match name recipient with
  | Some n =>
      if truthy n
      then dquote +:+ n +:+ dquote +:+ " <" +:+ email recipient +:+ ">"
      else email recipient
  | None => email recipient
  end.

Definition formatRecipients (recipients : Recipients) : Addresses :=
  match recipients with
  | Many rs => AddressList (map formatRecipient rs)
  | One r => Address (formatRecipient r)
  end.

(** [Array.isArray(data.to) ? data.to : [data.to]] *)
Definition toArray (recipients : Recipients) : list EmailRecipient :=
  match recipients with
  | Many rs => rs
  | One r => [r]
  end.

Definition findConfig (id : string) (configs : list SmtpServerConfig)
    : option SmtpServerConfig :=
  List.find (fun c => String.eqb (smtp_id c) id) configs.

Definition findTemplate (id : string) (templates : list EmailTemplate)
    : option EmailTemplate :=
  List.find (fun t => String.eqb (tpl_id t) id) templates.

Definition notFoundMessage (id : string) : string :=
  "SMTP configuration with ID " +:+ id +:+ " not found".

(** The options object [createTransport] hands to nodemailer. *)
Definition transportFor (smtpConfig : SmtpServerConfig) : Transport :=
  {| t_host := host smtpConfig; t_port := port smtpConfig;
     t_secure := secure smtpConfig;
     t_user := user (auth smtpConfig);
     t_pass := pass (auth smtpConfig) |}.

Definition createTransport (smtpConfigId : option string) : M Transport :=
  let* smtpConfig :=
    (if truthyOpt smtpConfigId then
       let id := default "" smtpConfigId in
       let* configs := getSmtpConfigs in
       match findConfig id configs with
       | Some config => ret config
       | None => throw (ErrorObj (notFoundMessage id))
       end
     else
       let* config := getDefaultSmtpConfig in
       match config with
       | Some config => ret config
       | None =>
           (* reading [smtpConfig.host] of [undefined] *)
           throw (ErrorObj "Cannot read properties of undefined (reading 'host')")
       end) in
  ret (transportFor smtpConfig).

(** [setTimeout(resolve, ms)], awaited. *)
Definition sleep (ms : Z) : M unit :=
  fun w => (Ok tt, addEvent w (Timeout ms) (Z.max 0 ms)).

Definition diverge {A} : M A := fun w => (Diverge, w).

Section Collaborators.
(** Properties a [templateData] object inherits from its prototype. *)
Variable inherited : string -> Val.
(** The delivery collaborator: given the calls made so far, the
    transport and the envelope, it throws or returns a message id. *)
Variable deliver : list Event -> Transport -> MailOptions -> Thrown + string.
(** [Date.prototype.toISOString] *)
Variable isoString : Z -> string.

(** [transport.sendMail(mailOptions)] *)
Definition sendMail (transport : Transport) (mailOptions : MailOptions)
    : M string :=
  fun w =>
    let w' := addEvent w (SendMail transport mailOptions) 0 in
    match deliver (trace w) transport mailOptions with
    | inl e => (Throw e, w')
    | inr messageId => (Ok messageId, w')
    end.

(** [new Date().toISOString()] *)
Definition nowISO : M string := fun w => (Ok (isoString (clock w)), w).

Definition generateEmailContent (templateId : option string)
    (templateData : option (gmap string Val)) (subject body : string)
    : M (string * string) :=
  if negb (truthyOpt templateId) then ret (subject, body)
  else
    let id := default "" templateId in
    let* templates := getEmailTemplates in
    let* template :=
      (if String.eqb id "default"
       then let* t := getDefaultEmailTemplate in ret (Some t)
       else ret (findTemplate id templates)) in
    match template with
    | None => ret (subject, body)
    | Some template =>
        let processedSubject :=
          processTemplate inherited (tpl_subject template) templateData in
        let processedBody :=
          processTemplate inherited (tpl_body template) templateData in
        ret (processedSubject, processedBody)
    end.

(** The log entry written for one recipient on the success path. *)
Definition sentEntry (data : EmailData) (smtpConfig : SmtpServerConfig)
    (subject messageId now : string) (recipient : EmailRecipient)
    : EmailLogEntry :=
  {| timestamp := now;
     log_smtpConfig := smtp_id smtpConfig;
     log_templateId := templateId data;
     recipient := email recipient;
     log_subject := subject;
     log_success := true;
     log_message := Some ("Message sent: " +:+ messageId) |}.

(** The log entry written for one recipient in the [catch] block. *)
Definition failedEntry (data : EmailData) (smtpConfigId : option string)
    (error : Thrown) (now : string) (recipient : EmailRecipient)
    : EmailLogEntry :=
  {| timestamp := now;
     log_smtpConfig := orElse smtpConfigId "unknown";
     log_templateId := templateId data;
     recipient := email recipient;
     log_subject := subject data;
     log_success := false;
     log_message := Some (messageOr "Unknown error sending email" error) |}.

(** The body of a logging loop: one entry, stamped with the time. *)
Definition logEntry (entry : string -> EmailRecipient -> EmailLogEntry)
    (recipient : EmailRecipient) : M unit :=
  let* now := nowISO in
  logEmailActivity (entry now recipient) ;;
  ret tt.

Definition mailOptionsFor (data : EmailData) (smtpConfig : SmtpServerConfig)
    (subject body : string) : MailOptions :=
  {| mo_from := match from data with
                | Some f => formatRecipient f
                | None => user (auth smtpConfig)
                end;
     mo_to := formatRecipients (to data);
     mo_subject := subject;
     mo_html := body;
     mo_cc := map formatRecipient <$> cc data;
     mo_bcc := map formatRecipient <$> bcc data |}.

Definition sendEmail (data : EmailData) (smtpConfigId : option string)
    : M SendResult :=
  tryCatch
    (let* transport := createTransport smtpConfigId in
     let* smtpConfig :=
       (if truthyOpt smtpConfigId
        then let* configs := getSmtpConfigs in
             ret (findConfig (default "" smtpConfigId) configs)
        else getDefaultSmtpConfig) in
     match smtpConfig with
     | None =>
         ret {| success := false;
                message := Some "SMTP configuration not found" |}
     | Some smtpConfig =>
         let* content :=
           generateEmailContent (templateId data) (templateData data)
             (subject data) (body data) in
         let '(subject, body) := content in
         let mailOptions := mailOptionsFor data smtpConfig subject body in
         let* messageId := sendMail transport mailOptions in
         forEach (toArray (to data))
           (logEntry (sentEntry data smtpConfig subject messageId)) ;;
         ret {| success := true;
                message := Some ("Message sent: " +:+ messageId) |}
     end)
    (fun error =>
       (* [logToFile] swallows its own failures; [data.to] is an
          object or an array, hence truthy *)
       forEach (toArray (to data))
         (logEntry (failedEntry data smtpConfigId error)) ;;
       ret {| success := false;
              message := Some (messageOr "Unknown error sending email" error) |}).

(** ** sendBulkEmails *)

(** The [emailData] built for one recipient of a bulk send. *)
Definition bulkEmailData (data : BulkEmailData) (recipient : EmailRecipient)
    : EmailData :=
  {| to := One recipient;
     subject := bulk_subject data;
     body := bulk_body data;
     from := bulk_from data;
     cc := bulk_cc data;
     bcc := bulk_bcc data;
     templateId := bulk_templateId data;
     templateData :=
       Some (<["name" := VStr (orElse (name recipient) "")]>
               (<["email" := VStr (email recipient)]>
                  (default ∅ (bulk_templateData data)))) |}.

(** The closure mapped over a batch; [acc] is the pair of the captured
    variables [totalSent] and [failures]. *)
Definition sendOne (data : BulkEmailData) (smtpConfigId : option string)
    (recipient : EmailRecipient) (acc : nat * list Failure)
    : M (nat * list Failure) :=
  let '(totalSent, failures) := acc in
  tryCatch
    (let emailData := bulkEmailData data recipient in
     let* result := sendEmail emailData smtpConfigId in
     if success result then ret (S totalSent, failures)
     else ret (totalSent,
               failures ++ [{| f_email := email recipient;
                               f_error := orElse (message result) "Unknown error" |}]))
    (fun error =>
       ret (totalSent,
            failures ++ [{| f_email := email recipient;
                            f_error := messageOr "Unknown error" error |}])).

(** [await Promise.all(batch.map(...))]: the closure is run for each
    recipient of the batch, here one run after the other in the order
    of the batch.  In the source the runs are started together and
    interleave at their [await]s. *)
Fixpoint sendBatch (data : BulkEmailData) (smtpConfigId : option string)
    (batch : list EmailRecipient) (acc : nat * list Failure)
    : M (nat * list Failure) :=
  match batch with
  | [] => ret acc
  | recipient :: batch' =>
      let* acc := sendOne data smtpConfigId recipient acc in
      sendBatch data smtpConfigId batch' acc
  end.

(** [for (let i = 0; i < recipients.length; i += batchSize)], entered
    at index [i]; [fuel] bounds the number of times the loop test is
    evaluated. *)
Fixpoint bulkLoop (fuel : nat) (data : BulkEmailData)
    (smtpConfigId : option string) (batchSize : nat)
    (delayBetweenBatches : Z) (i : nat) (acc : nat * list Failure)
    : M (nat * list Failure) :=
  match fuel with
  | O => diverge
  | S fuel' =>
      if i <? length (recipients data) then
        let batch := take batchSize (drop i (recipients data)) in
        let* acc := sendBatch data smtpConfigId batch acc in
        (if i + batchSize <? length (recipients data)
         then sleep delayBetweenBatches else ret tt) ;;
        bulkLoop fuel' data smtpConfigId batchSize delayBetweenBatches
          (i + batchSize) acc
      else ret acc
  end.

Definition sentMessage (totalSent total : nat) : string :=
  "Successfully sent " +:+ pretty totalSent +:+ " out of " +:+
  pretty total +:+ " emails".

Definition sendBulkEmails (fuel : nat) (data : BulkEmailData)
    (smtpConfigId : option string) : M BulkResult :=
  tryCatch
    (let batchSize := default 10 (batchSize data) in
     let delayBetweenBatches := default 1000%Z (delayBetweenBatches data) in
     if length (recipients data) =? 0 then
       ret {| bulk_success := false; totalSent := 0; totalFailed := 0;
              failures := None;
              bulk_message := Some "No recipients provided" |}
     else
       let* acc :=
         bulkLoop fuel data smtpConfigId batchSize delayBetweenBatches
           0 (0, []) in
       let '(totalSent, failures) := acc in
       ret {| bulk_success := 0 <? totalSent;
              totalSent := totalSent;
              totalFailed := length failures;
              failures := if 0 <? length failures then Some failures
                          else None;
              bulk_message :=
                Some (sentMessage totalSent (length (recipients data))) |})
    (fun error =>
       ret {| bulk_success := false; totalSent := 0;
              totalFailed := length (recipients data);
              failures := None;
              bulk_message :=
                Some (messageOr "Unknown error sending bulk emails" error) |}).

End Collaborators.

End EmailService.

(* ===================================================================== *)
(** * requestHandler.ts: the CRUD handlers                                *)
(* ===================================================================== *)

Module RequestHandler.
Import Js Config World Run Run.Notations Store.

(** The [parameters] objects, one record per tool; an absent property
    is [None]. *)
Record AddSmtpParams : Type := {
  as_name : string;
  as_host : string;
  as_port : Z;
  as_secure : option bool;
  as_user : string;
  as_pass : string;
  as_isDefault : option bool
}.

Record UpdateSmtpParams : Type := {
  us_id : string;
  us_name : option string;
  us_host : option string;
  us_port : option Z;
  us_secure : option bool;
  us_user : option string;
  us_pass : option string;
  us_isDefault : option bool
}.

Record AddTemplateParams : Type := {
  at_name : string;
  at_subject : string;
  at_body : string;
  at_isDefault : option bool
}.

Record UpdateTemplateParams : Type := {
  ut_id : string;
  ut_name : option string;
  ut_subject : option string;
  ut_body : option string;
  ut_isDefault : option bool
}.

(** What a handler returns: [{success: true, config}],
    [{success: true, template}] or [{success, message}]. *)
Inductive Response : Type :=
| ConfigOk (config : SmtpServerConfig)
| TemplateOk (template : EmailTemplate)
| Status (success : bool) (message : string).

(** The shared [catch] block of the handlers. *)
Definition failed (error : Thrown) : M Response :=
  ret (Status false (messageOr "Unknown error" error)).

(** In-place changes to the array held by a handler reach the
    module-level default array when the two are the same object. *)
Definition mutateServers (ref : ServersRef) (configs : list SmtpServerConfig)
    : M unit :=
  match ref with
  | SharedServers => fun w => (Ok tt, setDefaultServers w configs)
  | ParsedServers => ret tt
  end.

(** Likewise for the template objects. *)
Definition mutateTemplates (ref : TemplatesRef)
    (templates : list EmailTemplate) : M unit :=
  match ref, templates with
  | SharedTemplates, [d; ie; esade] =>
      fun w => (Ok tt, setBuiltinTemplates w (d, ie, esade))
  | _, _ => ret tt
  end.

(** [configs.findIndex(config => config.id === id)], together with the
    element [configs[configIndex]] *)
Definition findIndex (id : string) (configs : list SmtpServerConfig)
    : option (nat * SmtpServerConfig) :=
  list_find (fun c => smtp_id c = id) configs.

Definition smtpNotFound (id : string) : string :=
  "SMTP configuration with ID " +:+ id +:+ " not found".

Definition templateNotFound (id : string) : string :=
  "Email template with ID " +:+ id +:+ " not found".

(** ** SMTP configurations; [uuid] is what [generateUUID()] returns. *)

Definition handleAddSmtpConfig (uuid : string) (parameters : AddSmtpParams)
    : M Response :=
  tryCatch
    (let* got := getSmtpConfigsRef in
     let '(ref, configs) := got in
     let newConfig :=
       {| smtp_id := uuid;
          smtp_name := as_name parameters;
          host := as_host parameters;
          port := as_port parameters;
          secure := default false (as_secure parameters);
          auth := {| user := as_user parameters; pass := as_pass parameters |};
          smtp_isDefault := default false (as_isDefault parameters) |} in
     let configs :=
       if smtp_isDefault newConfig
       then map (setDefaultSmtp false) configs else configs in
     let configs := configs ++ [newConfig] in
     mutateServers ref configs ;;
     saveSmtpConfigs configs ;;
     ret (ConfigOk newConfig))
    failed.

(** The field updates of [handleUpdateSmtpConfig] other than the
    default flag. *)
Definition updateSmtpFields (parameters : UpdateSmtpParams)
    (c : SmtpServerConfig) : SmtpServerConfig :=
  {| smtp_id := smtp_id c;
     smtp_name := default (smtp_name c) (us_name parameters);
     host := default (host c) (us_host parameters);
     port := default (port c) (us_port parameters);
     secure := default (secure c) (us_secure parameters);
     auth := {| user := default (user (auth c)) (us_user parameters);
                pass := default (pass (auth c)) (us_pass parameters) |};
     smtp_isDefault := smtp_isDefault c |}.

Definition handleUpdateSmtpConfig (parameters : UpdateSmtpParams)
    : M Response :=
  tryCatch
    (let* got := getSmtpConfigsRef in
     let '(ref, configs) := got in
     match findIndex (us_id parameters) configs with
     | None => ret (Status false (smtpNotFound (us_id parameters)))
     | Some (configIndex, found) =>
         let updatedConfig := updateSmtpFields parameters found in
         let '(updatedConfig, configs) :=
           match us_isDefault parameters with
           | Some isDefault =>
               (setDefaultSmtp isDefault updatedConfig,
                if isDefault
                then imap (fun index config =>
                             if decide (index = configIndex) then config
                             else setDefaultSmtp false config) configs
                else configs)
           | None => (updatedConfig, configs)
           end in
         let configs := <[configIndex := updatedConfig]> configs in
         mutateServers ref configs ;;
         saveSmtpConfigs configs ;;
         ret (ConfigOk updatedConfig)
     end)
    failed.

Definition handleDeleteSmtpConfig (id : string) : M Response :=
  tryCatch
    (let* got := getSmtpConfigsRef in
     let '(ref, configs) := got in
     match findIndex id configs with
     | None => ret (Status false (smtpNotFound id))
     | Some (configIndex, found) =>
         if length configs =? 1 then
           ret (Status false "Cannot delete the only SMTP configuration")
         else
           let isDefault := smtp_isDefault found in
           let configs := delete configIndex configs in
           let configs :=
             match configs with
             | first :: others =>
                 if isDefault then setDefaultSmtp true first :: others
                 else configs
             | [] => configs
             end in
           mutateServers ref configs ;;
           saveSmtpConfigs configs ;;
           ret (Status true "SMTP configuration deleted successfully")
     end)
    failed.

(** ** Email templates *)

(** The [forEach] of the two template handlers that clears the default
    flag: the flag of every template selected by [other] that has it is
    cleared in place, and each such template is saved (the saves are not
    awaited; they are run here in program order). *)
Definition demote (other : EmailTemplate -> bool) (t : EmailTemplate)
    : EmailTemplate :=
  if other t && tpl_isDefault t then setDefaultTpl false t else t.

Definition demoteOthers (ref : TemplatesRef) (other : EmailTemplate -> bool)
    (templates : list EmailTemplate) : M unit :=
  mutateTemplates ref (map (demote other) templates) ;;
  forEach templates (fun t =>
    if other t && tpl_isDefault t
    then saveEmailTemplate (setDefaultTpl false t) ;; ret tt
    else ret tt).

Definition handleAddEmailTemplate (uuid : string)
    (parameters : AddTemplateParams) : M Response :=
  tryCatch
    (let* got := getEmailTemplatesRef in
     let '(ref, templates) := got in
     let newTemplate :=
       {| tpl_id := uuid;
          tpl_name := at_name parameters;
          tpl_subject := at_subject parameters;
          tpl_body := at_body parameters;
          tpl_isDefault := default false (at_isDefault parameters) |} in
     (if tpl_isDefault newTemplate
      then demoteOthers ref (fun _ => true) templates
      else ret tt) ;;
     saveEmailTemplate newTemplate ;;
     ret (TemplateOk newTemplate))
    failed.

Definition updateTemplateFields (parameters : UpdateTemplateParams)
    (t : EmailTemplate) : EmailTemplate :=
  {| tpl_id := tpl_id t;
     tpl_name := default (tpl_name t) (ut_name parameters);
     tpl_subject := default (tpl_subject t) (ut_subject parameters);
     tpl_body := default (tpl_body t) (ut_body parameters);
     tpl_isDefault := tpl_isDefault t |}.

Definition hasId (id : string) (t : EmailTemplate) : bool :=
  String.eqb (tpl_id t) id.

Definition handleUpdateEmailTemplate (parameters : UpdateTemplateParams)
    : M Response :=
  tryCatch
    (let* got := getEmailTemplatesRef in
     let '(ref, templates) := got in
     match List.find (hasId (ut_id parameters)) templates with
     | None => ret (Status false (templateNotFound (ut_id parameters)))
     | Some template =>
         let updatedTemplate := updateTemplateFields parameters template in
         let* updatedTemplate :=
           (match ut_isDefault parameters with
            | Some isDefault =>
                if negb (Bool.eqb isDefault (tpl_isDefault template)) then
                  (if isDefault
                   then demoteOthers ref
                          (fun t => negb (hasId (ut_id parameters) t))
                          templates
                   else ret tt) ;;
                  ret (setDefaultTpl isDefault updatedTemplate)
                else ret updatedTemplate
            | None => ret updatedTemplate
            end) in
         saveEmailTemplate updatedTemplate ;;
         ret (TemplateOk updatedTemplate)
     end)
    failed.

(** [anotherTemplate.isDefault = true] on the first template whose id
    differs from [id]. *)
Fixpoint promoteOther (id : string) (templates : list EmailTemplate)
    : list EmailTemplate :=
  match templates with
  | [] => []
  | t :: ts =>
      if hasId id t then t :: promoteOther id ts
      else setDefaultTpl true t :: ts
  end.

Definition handleDeleteEmailTemplate (id : string) : M Response :=
  tryCatch
    (let* got := getEmailTemplatesRef in
     let '(ref, templates) := got in
     match List.find (hasId id) templates with
     | None => ret (Status false (templateNotFound id))
     | Some template =>
         (if tpl_isDefault template && (1 <? length templates) then
            match List.find (fun t => negb (hasId id t)) templates with
            | Some anotherTemplate =>
                mutateTemplates ref (promoteOther id templates) ;;
                saveEmailTemplate (setDefaultTpl true anotherTemplate) ;;
                ret tt
            | None => ret tt
            end
          else ret tt) ;;
         deleteEmailTemplate id ;;
         ret (Status true "Email template deleted successfully")
     end)
    failed.

(** ** Sequences of calls *)

Inductive SmtpCall : Type :=
| AddSmtp (uuid : string) (parameters : AddSmtpParams)
| UpdateSmtp (parameters : UpdateSmtpParams)
| DeleteSmtp (id : string).

Inductive TemplateCall : Type :=
| AddTemplate (uuid : string) (parameters : AddTemplateParams)
| UpdateTemplate (parameters : UpdateTemplateParams)
| DeleteTemplate (id : string).

Definition smtpCall (c : SmtpCall) : M Response :=
  match c with
  | AddSmtp uuid p => handleAddSmtpConfig uuid p
  | UpdateSmtp p => handleUpdateSmtpConfig p
  | DeleteSmtp id => handleDeleteSmtpConfig id
  end.

Definition templateCall (c : TemplateCall) : M Response :=
  match c with
  | AddTemplate uuid p => handleAddEmailTemplate uuid p
  | UpdateTemplate p => handleUpdateEmailTemplate p
  | DeleteTemplate id => handleDeleteEmailTemplate id
  end.

(** The world after a call, whatever it returned. *)
Definition after {A} (m : M A) (w : World.t) : World.t := (m w).2.

Definition afterSmtpCalls (calls : list SmtpCall) (w : World.t) : World.t :=
  foldl (fun w c => after (smtpCall c) w) w calls.

Definition afterTemplateCalls (calls : list TemplateCall) (w : World.t)
    : World.t :=
  foldl (fun w c => after (templateCall c) w) w calls.

(** The collection as the next call will read it. *)
Definition configsOf (w : World.t) : list SmtpServerConfig :=
  match getSmtpConfigs w with
  | (Ok l, _) => l
  | _ => []
  end.

Definition templatesOf (w : World.t) : list EmailTemplate :=
  match getEmailTemplates w with
  | (Ok l, _) => l
  | _ => []
  end.

(** Number of entries flagged as default. *)
Definition defaultConfigs (l : list SmtpServerConfig) : nat :=
  length (List.filter smtp_isDefault l).

Definition defaultTemplates (l : list EmailTemplate) : nat :=
  length (List.filter tpl_isDefault l).

(** The invariant of the specification: a collection that is not empty
    has exactly one entry flagged as default. *)
Definition oneDefaultSmtp (l : list SmtpServerConfig) : Prop :=
  l <> [] -> defaultConfigs l = 1.

Definition oneDefaultTemplate (l : list EmailTemplate) : Prop :=
  l <> [] -> defaultTemplates l = 1.

(** A call that, on the collection [l], does not leave entries without
    a default one: it is neither an add without the flag to an empty
    collection, nor an update that passes [isDefault: false] for the
    entry that has the flag. *)
Definition keepsDefaultSmtp (l : list SmtpServerConfig) (c : SmtpCall)
    : bool :=
  match c with
  | AddSmtp _ p => default false (as_isDefault p) || negb (length l =? 0)
  | UpdateSmtp p =>
      match us_isDefault p, findIndex (us_id p) l with
      | Some false, Some (_, found) => negb (smtp_isDefault found)
      | _, _ => true
      end
  | DeleteSmtp _ => true
  end.

(** Likewise for templates, where moreover a template added without the
    flag must not get the id of the template that has it (the file of
    that template would be overwritten). *)
Definition keepsDefaultTemplate (l : list EmailTemplate) (c : TemplateCall)
    : bool :=
  match c with
  | AddTemplate uuid p =>
      default false (at_isDefault p) ||
      (negb (length l =? 0) &&
       match List.find (hasId uuid) l with
       | Some t => negb (tpl_isDefault t)
       | None => true
       end)
  | UpdateTemplate p =>
      match ut_isDefault p, List.find (hasId (ut_id p)) l with
      | Some false, Some t => negb (tpl_isDefault t)
      | _, _ => true
      end
  | DeleteTemplate _ => true
  end.

(** Every call of a run keeps the default, on the collection it
    finds. *)
Fixpoint smtpCallsKeep (calls : list SmtpCall) (w : World.t) : bool :=
  match calls with
  | [] => true
  | c :: calls' =>
      keepsDefaultSmtp (configsOf w) c &&
      smtpCallsKeep calls' (after (smtpCall c) w)
  end.

Fixpoint templateCallsKeep (calls : list TemplateCall) (w : World.t) : bool :=
  match calls with
  | [] => true
  | c :: calls' =>
      keepsDefaultTemplate (templatesOf w) c &&
      templateCallsKeep calls' (after (templateCall c) w)
  end.

(** Whether a collection is in order, as a test. *)
Definition inOrderSmtp (l : list SmtpServerConfig) : bool :=
  match l with
  | [] => true
  | _ :: _ => defaultConfigs l =? 1
  end.

Definition inOrderTemplates (l : list EmailTemplate) : bool :=
  match l with
  | [] => true
  | _ :: _ => defaultTemplates l =? 1
  end.

(** A call that puts the collection [l] in order, whatever it holds: an
    add with [isDefault: true], or an update with [isDefault: true] of
    an entry that is found; the flags of the other entries are
    cleared. *)
Definition setsDefaultSmtp (l : list SmtpServerConfig) (c : SmtpCall)
    : bool :=
  match c with
  | AddSmtp _ p => default false (as_isDefault p)
  | UpdateSmtp p =>
      match us_isDefault p, findIndex (us_id p) l with
      | Some true, Some _ => true
      | _, _ => false
      end
  | DeleteSmtp _ => false
  end.

(** Likewise for templates, where the deletion of the only template
    puts the collection in order too: it leaves none. *)
Definition setsDefaultTemplate (l : list EmailTemplate) (c : TemplateCall)
    : bool :=
  match c with
  | AddTemplate _ p => default false (at_isDefault p)
  | UpdateTemplate p =>
      match ut_isDefault p, List.find (hasId (ut_id p)) l with
      | Some true, Some _ => true
      | _, _ => false
      end
  | DeleteTemplate id =>
      match l with
      | [t] => hasId id t
      | _ => false
      end
  end.

(** Whether the collection is in order after a run, [ok] telling
    whether it is before: a call that sets the default puts it in
    order; after any other call it is in order when it was and the
    call keeps the default. *)
Fixpoint smtpOrderAfter (calls : list SmtpCall) (w : World.t) (ok : bool)
    : bool :=
  match calls with
  | [] => ok
  | c :: calls' =>
      smtpOrderAfter calls' (after (smtpCall c) w)
        (setsDefaultSmtp (configsOf w) c ||
         ok && keepsDefaultSmtp (configsOf w) c)
  end.

Fixpoint templateOrderAfter (calls : list TemplateCall) (w : World.t)
    (ok : bool) : bool :=
  match calls with
  | [] => ok
  | c :: calls' =>
      templateOrderAfter calls' (after (templateCall c) w)
        (setsDefaultTemplate (templatesOf w) c ||
         ok && keepsDefaultTemplate (templatesOf w) c)
  end.

End RequestHandler.

(* ===================================================================== *)
(** * Specification-side definitions                                      *)
(* ===================================================================== *)

Module Spec.
Import Js Template Mail.

(** ** Rendering, token by token *)

(** A template read as the renderer reads it: plain characters and
    [{{key}}] tokens. *)
Inductive Piece : Type :=
| Literal (c : ascii)
| Placeholder (key : string).

Definition pieceText (p : Piece) : string :=
  match p with
  | Literal c => String c EmptyString
  | Placeholder key => placeholder key
  end.

Fixpoint tokens (fuel : nat) (s : string) : list Piece :=
  match fuel with
  | O => []
  | S fuel' =>
      match matchPlaceholder s with
      | Some (key, rest) => Placeholder key :: tokens fuel' rest
      | None =>
          match s with
          | String c s' => Literal c :: tokens fuel' s'
          | EmptyString => []
          end
      end
  end.

Definition tokenize (s : string) : list Piece := tokens (String.length s) s.

(** What the specification asks of one piece: a token whose trimmed key
    has a value other than [undefined] becomes that value's string form,
    everything else stays as written. *)
Definition renderPiece (inherited : string -> Val) (data : gmap string Val)
    (p : Piece) : string :=
  match p with
  | Literal c => String c EmptyString
  | Placeholder key =>
      match getProp inherited data (trim key) with
      | VUndefined => "{{" +:+ key +:+ "}}"
      | v => toString v
      end
  end.

Definition concatStrings (l : list string) : string :=
  foldr String.append EmptyString l.

(** [c] occurs in [s]. *)
Fixpoint occurs (c : ascii) (s : string) : bool :=
  match s with
  | String c' s' => Ascii.eqb c' c || occurs c s'
  | EmptyString => false
  end.

(** ** Batching *)

(** Contiguous batches of [size] elements, the last one possibly
    shorter; [fuel] bounds the number of batches. *)
Fixpoint chunksFuel {A} (fuel size : nat) (l : list A) : list (list A) :=
  match fuel, l with
  | S fuel', _ :: _ => take size l :: chunksFuel fuel' size (drop size l)
  | _, _ => []
  end.

Definition chunks {A} (size : nat) (l : list A) : list (list A) :=
  chunksFuel (length l) size l.

(** [ceil(n / b)] *)
Definition ceilDiv (n b : nat) : nat := (n + b - 1) / b.

(** The delays of a trace, oldest first. *)
Definition timeouts (tr : list World.Event) : list Z :=
  omap (fun e => match e with World.Timeout ms => Some ms | _ => None end) tr.

(** ** A bulk send as the specification describes it *)

(** How one per-recipient result is counted. *)
Definition tally (recipient : EmailRecipient) (result : SendResult)
    (acc : nat * list Failure) : nat * list Failure :=
  if success result then (S acc.1, acc.2)
  else (acc.1,
        acc.2 ++ [{| f_email := email recipient;
                     f_error := orElse (message result) "Unknown error" |}]).

(** Number of per-recipient successes. *)
Definition successes (results : list (EmailRecipient * SendResult)) : nat :=
  length (List.filter (fun x => success x.2) results).

(** The failures, each recorded as [{email, error}]. *)
Definition failuresOf (results : list (EmailRecipient * SendResult))
    : list Failure :=
  omap (fun x => if success x.2 then None
                 else Some {| f_email := email x.1;
                              f_error := orElse (message x.2) "Unknown error" |})
    results.

Section Attempts.
Import Run Run.Notations EmailService.
Variable inherited : string -> Val.
Variable deliver :
  list World.Event -> Transport -> MailOptions -> Thrown + string.
Variable isoString : Z -> string.
Variable data : BulkEmailData.
Variable smtpConfigId : option string.

(** One [sendEmail] per recipient of a batch; the results in order. *)
Fixpoint attemptBatch (batch : list EmailRecipient)
    : M (list (EmailRecipient * SendResult)) :=
  match batch with
  | [] => ret []
  | recipient :: batch' =>
      let* result :=
        sendEmail inherited deliver isoString
          (bulkEmailData data recipient) smtpConfigId in
      let* results := attemptBatch batch' in
      ret ((recipient, result) :: results)
  end.

(** Batch after batch, with a delay between two consecutive batches
    and none after the last. *)
Fixpoint attemptBatches (delay : Z) (batches : list (list EmailRecipient))
    : M (list (EmailRecipient * SendResult)) :=
  match batches with
  | [] => ret []
  | batch :: batches' =>
      let* results := attemptBatch batch in
      (match batches' with
       | [] => ret tt
       | _ :: _ => sleep delay
       end) ;;
      let* results' := attemptBatches delay batches' in
      ret (results ++ results')
  end.

End Attempts.

End Spec.

(* ===================================================================== *)
(** * What the handlers write, list by list                               *)
(* ===================================================================== *)

Module SmtpModel.
Import Js Config World Run Store RequestHandler.

Definition refOf (w : World.t) : ServersRef :=
  match configFile w with
  | Some _ => ParsedServers
  | None => SharedServers
  end.

(** The world after the array [configs] was written through and saved. *)
Definition committed (configs : list SmtpServerConfig) (w : World.t)
    : World.t :=
  match configFile w with
  | Some doc =>
      if writeFails w SMTP_CONFIG_FILE then w
      else setConfigFile w (Some (<["smtpServers" := FServers configs]> doc))
  | None => setDefaultServers w configs
  end.

Definition newConfig (uuid : string) (p : AddSmtpParams) : SmtpServerConfig :=
  {| smtp_id := uuid; smtp_name := as_name p; host := as_host p;
     port := as_port p; secure := default false (as_secure p);
     auth := {| user := as_user p; pass := as_pass p |};
     smtp_isDefault := default false (as_isDefault p) |}.

Definition added (c : SmtpServerConfig) (configs : list SmtpServerConfig)
    : list SmtpServerConfig :=
  (if smtp_isDefault c then map (setDefaultSmtp false) configs else configs)
  ++ [c].

Definition updated (p : UpdateSmtpParams) (i : nat) (found : SmtpServerConfig)
    (configs : list SmtpServerConfig) : list SmtpServerConfig :=
  match us_isDefault p with
  | Some isDefault =>
      <[i := setDefaultSmtp isDefault (updateSmtpFields p found)]>
        (if isDefault
         then imap (fun index config =>
                      if decide (index = i) then config
                      else setDefaultSmtp false config) configs
         else configs)
  | None => <[i := updateSmtpFields p found]> configs
  end.

Definition promoteFirst (isDefault : bool) (configs : list SmtpServerConfig)
    : list SmtpServerConfig :=
  match configs with
  | first :: others =>
      if isDefault then setDefaultSmtp true first :: others else configs
  | [] => configs
  end.

End SmtpModel.

(* ===================================================================== *)
(** * The template directory as a list of templates                       *)
(* ===================================================================== *)

Module TemplateModel.
Import Js Config World Run Store RequestHandler.

Definition isJson (file : string) : bool := endsWith file ".json".

Definition fileName (id : string) : string := id +:+ ".json".

(** A [.json] file parses and is named after the id of its template. *)
Definition fileOk (e : string * option EmailTemplate) : bool :=
  if isJson e.1 then
    match e.2 with
    | Some t => String.eqb e.1 (fileName (tpl_id t))
    | None => false
    end
  else true.

(** A directory as [saveEmailTemplate] leaves it: no two files of the
    same name, every [.json] file well formed. *)
Definition wfDir (dir : list (string * option EmailTemplate)) : bool :=
  forallb fileOk dir && bool_decide (NoDup dir.*1).

(** The template store works: the directory can be enumerated, is well
    formed, and every write or removal in it succeeds. *)
Definition healthy (w : World.t) : Prop :=
  exists dir,
    templatesDir w = Some dir /\ wfDir dir = true /\
    forall file, writeFails w (TemplateFile file) = false.

(** The templates of a directory, in enumeration order. *)
Definition parsed (dir : list (string * option EmailTemplate))
    : list EmailTemplate :=
  omap (fun e => if isJson e.1 then e.2 else None) dir.

(** Writing a template to a list keyed by id: in place when the id is
    there, at the end otherwise. *)
Definition upsert (t : EmailTemplate) (l : list EmailTemplate)
    : list EmailTemplate :=
  if existsb (hasId (tpl_id t)) l
  then map (fun x => if hasId (tpl_id t) x then t else x) l
  else l ++ [t].

Definition without (id : string) (l : list EmailTemplate)
    : list EmailTemplate :=
  List.filter (fun t => negb (hasId id t)) l.

(** [Stored w l]: the store is healthy and holds the templates [l]. *)
Definition Stored (w : World.t) (l : list EmailTemplate) : Prop :=
  exists dir,
    templatesDir w = Some dir /\ wfDir dir = true /\ parsed dir = l /\
    forall file, writeFails w (TemplateFile file) = false.

Definition newTemplate (uuid : string) (p : AddTemplateParams)
    : EmailTemplate :=
  {| tpl_id := uuid; tpl_name := at_name p; tpl_subject := at_subject p;
     tpl_body := at_body p; tpl_isDefault := default false (at_isDefault p) |}.

Definition addedTemplates (t : EmailTemplate) (l : list EmailTemplate)
    : list EmailTemplate :=
  upsert t (if tpl_isDefault t then map (demote (fun _ => true)) l else l).

(** Whether [handleUpdateEmailTemplate] touches the default flag. *)
Definition flagChange (p : UpdateTemplateParams) (t : EmailTemplate)
    : option bool :=
  match ut_isDefault p with
  | Some b => if negb (Bool.eqb b (tpl_isDefault t)) then Some b else None
  | None => None
  end.

Definition updatedTemplate (p : UpdateTemplateParams) (t : EmailTemplate)
    : EmailTemplate :=
  match flagChange p t with
  | Some b => setDefaultTpl b (updateTemplateFields p t)
  | None => updateTemplateFields p t
  end.

Definition updatedTemplates (p : UpdateTemplateParams) (t : EmailTemplate)
    (l : list EmailTemplate) : list EmailTemplate :=
  upsert (updatedTemplate p t)
    (match flagChange p t with
     | Some true => map (demote (fun x => negb (hasId (ut_id p) x))) l
     | _ => l
     end).

Definition deletedTemplates (id : string) (t : EmailTemplate)
    (l : list EmailTemplate) : list EmailTemplate :=
  without id
    (if tpl_isDefault t && (1 <? length l) then
       match List.find (fun x => negb (hasId id x)) l with
       | Some another => upsert (setDefaultTpl true another) l
       | None => l
       end
     else l).

Definition nextTemplates (c : TemplateCall) (l : list EmailTemplate)
    : list EmailTemplate :=
  match c with
  | AddTemplate uuid p => addedTemplates (newTemplate uuid p) l
  | UpdateTemplate p =>
      match List.find (hasId (ut_id p)) l with
      | Some t => updatedTemplates p t l
      | None => l
      end
  | DeleteTemplate id =>
      match List.find (hasId id) l with
      | Some t => deletedTemplates id t l
      | None => l
      end
  end.

Abbreviation flag t := (if tpl_isDefault t then 1 else 0).

End TemplateModel.

(* ===================================================================== *)
(** * The send pipeline, path by path                                     *)
(* ===================================================================== *)

Module SendModel.
Import Js Config Mail World Run Store EmailService Spec.

(** The log document after [logEmailActivity entry]. *)
Definition logged (entry : EmailLogEntry) (w : World.t) : World.t :=
  match logFile w with
  | LogEntries l =>
      if writeFails w LOG_FILE then w
      else setLogFile w (LogEntries (l ++ [entry]))
  | LogAbsent =>
      if writeFails w LOG_FILE then w
      else setLogFile w (LogEntries [entry])
  | LogCorrupt => w
  end.

(** Everything but the log document. *)
Definition sameButLog (w w' : World.t) : Prop :=
  configFile w' = configFile w /\ defaultServers w' = defaultServers w /\
  templatesDir w' = templatesDir w /\
  builtinTemplates w' = builtinTemplates w /\
  writeFails w' = writeFails w /\ clock w' = clock w /\
  trace w' = trace w.

(** A log document that can be read and written. *)
Definition logWorks (w : World.t) (l : list EmailLogEntry) : Prop :=
  logFile w = LogEntries l /\ writeFails w LOG_FILE = false.

(** The SMTP configuration a send resolves to. *)
Definition chosenConfig (smtpConfigId : option string) (w : World.t)
    : option SmtpServerConfig :=
  let configs := RequestHandler.configsOf w in
  if truthyOpt smtpConfigId
  then findConfig (default "" smtpConfigId) configs
  else orOpt (List.find smtp_isDefault configs)
         (orOpt (head configs) (head (defaultServers w))).

(** What [createTransport] throws when it resolves to nothing. *)
Definition resolveError (smtpConfigId : option string) : Thrown :=
  if truthyOpt smtpConfigId
  then ErrorObj (notFoundMessage (default "" smtpConfigId))
  else ErrorObj "Cannot read properties of undefined (reading 'host')".

Definition failure (error : Thrown) : SendResult :=
  {| success := false;
     message := Some (messageOr "Unknown error sending email" error) |}.

Definition sent (messageId : string) : SendResult :=
  {| success := true; message := Some ("Message sent: " +:+ messageId) |}.

(** The counters after a list of results. *)
Definition tallied (acc : nat * list Failure)
    (results : list (EmailRecipient * SendResult)) : nat * list Failure :=
  (acc.1 + successes results, acc.2 ++ failuresOf results).

Section Collaborators.
Variable inherited : string -> Val.
Variable deliver : list Event -> Transport -> MailOptions -> Thrown + string.
Variable isoString : Z -> string.

(** The final subject and body of a send in the world [w]. *)
Definition finalContent (data : EmailData) (w : World.t) : string * string :=
  match generateEmailContent inherited (templateId data)
          (templateData data) (subject data) (body data) w with
  | (Ok c, _) => c
  | _ => (subject data, body data)
  end.

(** The world after a logging loop over [rs]. *)
Definition logAll (entry : string -> EmailRecipient -> EmailLogEntry)
    (rs : list EmailRecipient) (w : World.t) : World.t :=
  foldl (fun w r => logged (entry (isoString (clock w)) r) w) w rs.

(** The world in which [sendMail] returns or throws. *)
Definition delivering (data : EmailData) (c : SmtpServerConfig)
    (w : World.t) : World.t :=
  addEvent w
    (SendMail (transportFor c)
       (mailOptionsFor data c (finalContent data w).1
          (finalContent data w).2)) 0.

(** A result that reports success comes from a delivery that
    returned. *)
Definition delivered (d : EmailData) (res : SendResult) : Prop :=
  success res = true ->
  exists tr t m messageId,
    deliver tr t m = inr messageId /\ mo_to m = formatRecipients (to d).

Variable data : BulkEmailData.

(** What is known of every per-recipient result. *)
Definition attempted (x : EmailRecipient * SendResult) : Prop :=
  delivered (bulkEmailData data x.1) x.2.

(** The result object built from the results of the attempts. *)
Definition bulkResult (results : list (EmailRecipient * SendResult))
    : BulkResult :=
  {| bulk_success := 0 <? successes results;
     totalSent := successes results;
     totalFailed := length (failuresOf results);
     failures := if 0 <? length (failuresOf results)
                 then Some (failuresOf results) else None;
     bulk_message :=
       Some (sentMessage (successes results)
               (length (recipients data))) |}.

End Collaborators.

End SendModel.

(* ===================================================================== *)
(** * Concrete worlds, collaborators and inputs                            *)
(* ===================================================================== *)

Module Examples.
Import Js Config Mail World Run Store EmailService RequestHandler.

(** A world with a single SMTP configuration and a single template. *)
Definition soleWorld : World.t :=
  setTemplatesDir
    (setConfigFile World.initial
       (Some (<["smtpServers" := FServers [AWS_SES]]> DEFAULT_SMTP_CONFIG)))
    (Some [("default.json", Some DEFAULT_TEMPLATE)]).

(** [update-smtp-config] with [isDefault: false] on the default entry. *)
Definition clearAwsDefault : UpdateSmtpParams :=
  {| us_id := "aws-ses"; us_name := None; us_host := None; us_port := None;
     us_secure := None; us_user := None; us_pass := None;
     us_isDefault := Some false |}.

(** The same on an entry that is not the default one. *)
Definition clearGmailDefault : UpdateSmtpParams :=
  {| us_id := "gmail"; us_name := None; us_host := None; us_port := None;
     us_secure := None; us_user := None; us_pass := None;
     us_isDefault := Some false |}.

Definition addDefaultSmtp : AddSmtpParams :=
  {| as_name := "Relay"; as_host := "relay.example.org"; as_port := 465%Z;
     as_secure := Some true; as_user := "relay"; as_pass := "secret";
     as_isDefault := Some true |}.

Definition makeIeDefault : UpdateTemplateParams :=
  {| ut_id := "ie-outreach"; ut_name := None; ut_subject := None;
     ut_body := None; ut_isDefault := Some true |}.

(** A data object that inherits nothing. *)
Definition noPrototype : string -> Val := fun _ => VUndefined.

(** A delivery collaborator that always throws. *)
Definition refusing : list Event -> Transport -> MailOptions -> Thrown + string :=
  fun _ _ _ => inl (ErrorObj "connect ECONNREFUSED").

(** A delivery collaborator that accepts everything but mail to Bob. *)
Definition refusingBob : list Event -> Transport -> MailOptions -> Thrown + string :=
  fun _ _ m =>
    match mo_to m with
    | Address "bob@example.org" => inl (ErrorObj "mailbox unavailable")
    | _ => inr "<id@example.org>"
    end.

Definition epoch : Z -> string := fun _ => "1970-01-01T00:00:00.000Z".

Definition ana : EmailRecipient :=
  {| email := "ana@example.org"; name := Some "Ana" |}.

Definition bob : EmailRecipient :=
  {| email := "bob@example.org"; name := None |}.

(** A send through the default template with a subject of its own. *)
Definition greeting : EmailData :=
  {| to := Many [ana; bob]; subject := "Greetings"; body := "Hello";
     from := None; cc := None; bcc := None;
     templateId := Some "default"; templateData := None |}.

Definition announcement : BulkEmailData :=
  {| recipients := [ana; bob]; bulk_subject := "News";
     bulk_body := "Hello"; bulk_from := None; bulk_cc := None;
     bulk_bcc := None; bulk_templateId := Some "default";
     bulk_templateData := None; batchSize := Some 1;
     delayBetweenBatches := None |}.

End Examples.

(* ===================================================================== *)
(** * config.ts and requestHandler.ts: reading the activity log           *)
(* ===================================================================== *)

Module Logs.
Import Js Config World Run Run.Notations Store.

(** [getEmailLogs] of config.ts *)
Definition getEmailLogs : M (list EmailLogEntry) :=
  tryCatch
    (let* present := pathExistsLog in
     if present then readJsonLog else ret [])
    (fun _ => ret []).

(** The arguments of the tool [get-email-logs]; [limit] is an integer. *)
Record LogsParams : Type := {
  limit : option Z;
  filterBySuccess : option bool
}.

Section Sort.
Context {A : Type}.
(** The comparator handed to [Array.prototype.sort]; [None] is [NaN]. *)
Variable compareFn : A -> A -> option Z.

(** [a] goes after [b]: the comparator is positive on [(a, b)].  A
    result of [NaN] counts as [+0]. *)
Definition sortsAfter (a b : A) : bool :=
  match compareFn a b with
  | Some v => (0 <? v)%Z
  | None => false
  end.

Fixpoint insertSorted (x : A) (l : list A) : list A :=
  match l with
  | [] => [x]
  | y :: l' => if sortsAfter x y then y :: insertSorted x l' else x :: l
  end.

(** [Array.prototype.sort(compareFn)].  The sort of ECMAScript is
    stable, which fixes its result for a consistent comparator: the one
    computed here, by insertion from the right.  For a comparator that
    is not consistent the order is left to the implementation; this is
    one of the orders allowed. *)
Fixpoint sort (l : list A) : list A :=
  match l with
  | [] => []
  | x :: l' => insertSorted x (sort l')
  end.

End Sort.

Section Dates.
(** [new Date(s).getTime()]; [None] is [NaN], the time of a string that
    is not a date. *)
Variable getTime : string -> option Z.

(** [(a, b) => new Date(b.timestamp).getTime()
               - new Date(a.timestamp).getTime()] *)
Definition newestFirst (a b : EmailLogEntry) : option Z :=
  match getTime (timestamp b), getTime (timestamp a) with
  | Some tb, Some ta => Some (tb - ta)%Z
  | _, _ => None
  end.

(** The case ["get-email-logs"] of the tool switch. *)
Definition handleGetEmailLogs (parameters : LogsParams)
    : M (list EmailLogEntry) :=
  tryCatch
    (let* logs := getEmailLogs in
     let logs :=
       match filterBySuccess parameters with
       | Some wanted =>
           List.filter (fun log => Bool.eqb (log_success log) wanted) logs
       | None => logs
       end in
     let logs := sort newestFirst logs in
     let logs :=
       match limit parameters with
       | Some n => if (0 <? n)%Z then take (Z.to_nat n) logs else logs
       | None => logs
       end in
     ret logs)
    (fun _ => throw (ErrorObj "Failed to retrieve email logs")).

End Dates.

End Logs.

(* ===================================================================== *)
(** * requestHandler.ts: generateUUID                                     *)
(* ===================================================================== *)

Module Uuid.

(** [v.toString(16)] for an integer [v >= 0] *)
Definition toString16 (v : N) : string :=
  HexadecimalString.NilZero.string_of_uint (N.to_hex_uint v).

Definition pattern : string := "xxxxxxxx-xxxx-4xxx-yxxx-xxxxxxxxxxxx".

(** The function [function(c) { ... }] handed to [replace]; [r] is
    [Math.random() * 16 | 0]. *)
Definition replaceChar (c : ascii) (r : N) : string :=
  let v := if Ascii.eqb c "x" then r else N.lor (N.land r 3) 8 in
  toString16 v.

(** [s.replace(/[xy]/g, replaceChar)].  [draw k] is the value of
    [Math.random() * 16 | 0] at the call number [k] of [Math.random];
    [k] calls were made so far. *)
Fixpoint replaceXY (draw : nat -> N) (k : nat) (s : string) : string :=
  match s with
  | EmptyString => EmptyString
  | String c s' =>
      if Ascii.eqb c "x" || Ascii.eqb c "y"
      then replaceChar c (draw k) +:+ replaceXY draw (S k) s'
      else String c (replaceXY draw k s')
  end.

Definition generateUUID (draw : nat -> N) : string :=
  replaceXY draw 0 pattern.

(** A lower-case hexadecimal digit. *)
Definition isHex (c : ascii) : bool :=
  existsb (Ascii.eqb c) (list_ascii_of_string "0123456789abcdef").

(** What a character of the pattern allows in its place. *)
Definition fits (p c : ascii) : bool :=
  if Ascii.eqb p "x" then isHex c
  else if Ascii.eqb p "y"
       then existsb (Ascii.eqb c) (list_ascii_of_string "89ab")
       else Ascii.eqb p c.

End Uuid.

(* ===================================================================== *)
(** * config.ts: ensureConfigDirectories                                  *)
(* ===================================================================== *)

Module Setup.
Import Js Config World Run Store.

(** What [ensureConfigDirectories] may have to create. *)
Inductive Target : Type :=
| ConfigDir
| TemplatesDir
| Document (p : Path).

(** The home directory as [ensureConfigDirectories] sees it, and the
    module-level objects it writes out. *)
Record Home : Type := {
  (** [CONFIG_DIR] exists. *)
  configDir : bool;
  (** [TEMPLATES_DIR] in enumeration order; [None] when it does not
      exist. *)
  templates : option (list (string * option EmailTemplate));
  (** [smtp-config.json]: [None] when it does not exist, otherwise its
      parsed content ([None] when it does not parse). *)
  smtpConfig : option (option (gmap string Field));
  logs : LogDoc;
  (** [DEFAULT_SMTP_CONFIG.smtpServers] *)
  servers : list SmtpServerConfig;
  (** [DEFAULT_TEMPLATE], [IE_TEMPLATE], [ESADE_TEMPLATE] *)
  builtins : EmailTemplate * EmailTemplate * EmailTemplate;
  (** Creations and writes that fail. *)
  fails : Target -> bool
}.

Definition setConfigDir (h : Home) (b : bool) : Home :=
  {| configDir := b; templates := templates h; smtpConfig := smtpConfig h;
     logs := logs h; servers := servers h; builtins := builtins h;
     fails := fails h |}.

Definition setTemplates (h : Home)
    (d : option (list (string * option EmailTemplate))) : Home :=
  {| configDir := configDir h; templates := d; smtpConfig := smtpConfig h;
     logs := logs h; servers := servers h; builtins := builtins h;
     fails := fails h |}.

Definition setSmtpConfig (h : Home)
    (d : option (option (gmap string Field))) : Home :=
  {| configDir := configDir h; templates := templates h; smtpConfig := d;
     logs := logs h; servers := servers h; builtins := builtins h;
     fails := fails h |}.

Definition setLogs (h : Home) (l : LogDoc) : Home :=
  {| configDir := configDir h; templates := templates h;
     smtpConfig := smtpConfig h; logs := l; servers := servers h;
     builtins := builtins h; fails := fails h |}.

(** A home directory in which nothing exists yet, at the time the
    module is loaded. *)
Definition fresh (fails : Target -> bool) : Home :=
  {| configDir := false; templates := None; smtpConfig := None;
     logs := LogAbsent; servers := DEFAULT_SMTP_SERVERS;
     builtins := (DEFAULT_TEMPLATE, IE_TEMPLATE, ESADE_TEMPLATE);
     fails := fails |}.

(** An awaited call on the home directory. *)
Definition H (A : Type) : Type := Home -> Outcome A * Home.

Definition andThen {A B} (m : H A) (k : A -> H B) : H B :=
  fun h =>
    match m h with
    | (Ok a, h') => k a h'
    | (Throw e, h') => (Throw e, h')
    | (Diverge, h') => (Diverge, h')
    end.

(** [try { m } catch (error) { handler error }] *)
Definition catch {A} (m : H A) (handler : Thrown -> H A) : H A :=
  fun h =>
    match m h with
    | (Throw e, h') => handler e h'
    | r => r
    end.

(** [fs.ensureDir(CONFIG_DIR)] *)
Definition ensureConfigDir : H unit :=
  fun h =>
    if configDir h then (Ok tt, h)
    else if fails h ConfigDir then (Throw ioError, h)
    else (Ok tt, setConfigDir h true).

(** [fs.ensureDir(TEMPLATES_DIR)]; the missing parents are created
    too. *)
Definition ensureTemplatesDir : H unit :=
  fun h =>
    match templates h with
    | Some _ => (Ok tt, h)
    | None =>
        if fails h TemplatesDir then (Throw ioError, h)
        else (Ok tt, setTemplates (setConfigDir h true) (Some []))
    end.

(** [fs.pathExists(p)] *)
Definition pathExists (p : Path) : H bool :=
  fun h =>
    (Ok match p with
        | SMTP_CONFIG_FILE =>
            match smtpConfig h with Some _ => true | None => false end
        | LOG_FILE =>
            match logs h with LogAbsent => false | _ => true end
        | TemplateFile file =>
            match templates h with
            | Some dir => existsb (fun e => String.eqb e.1 file) dir
            | None => false
            end
        end, h).

(** [fs.writeJson(SMTP_CONFIG_FILE, doc)]; a write fails when the
    directory of the file is missing. *)
Definition writeConfig (doc : gmap string Field) : H unit :=
  fun h =>
    if fails h (Document SMTP_CONFIG_FILE) || negb (configDir h)
    then (Throw ioError, h)
    else (Ok tt, setSmtpConfig h (Some (Some doc))).

(** [fs.writeJson(path.join(TEMPLATES_DIR, file), t)] *)
Definition writeTemplate (file : string) (t : EmailTemplate) : H unit :=
  fun h =>
    if fails h (Document (TemplateFile file)) then (Throw ioError, h)
    else match templates h with
         | Some dir => (Ok tt, setTemplates h (Some (dirWrite file t dir)))
         | None => (Throw ioError, h)
         end.

(** [fs.writeJson(LOG_FILE, entries)] *)
Definition writeLogs (entries : list EmailLogEntry) : H unit :=
  fun h =>
    if fails h (Document LOG_FILE) || negb (configDir h)
    then (Throw ioError, h)
    else (Ok tt, setLogs h (LogEntries entries)).

(** [if (!await fs.pathExists(p)) { await write }] *)
Definition unlessExists (p : Path) (write : H unit) : H unit :=
  andThen (pathExists p) (fun present =>
    if present then (fun h => (Ok tt, h)) else write).

(** The object [DEFAULT_SMTP_CONFIG] as it stands in memory. *)
Definition defaultConfig (h : Home) : gmap string Field :=
  {[ "smtpServers" := FServers (servers h);
     "rateLimit" := FRateLimit DEFAULT_RATE_LIMIT ]}.

Definition ensureConfigDirectories : H unit :=
  catch
    (andThen ensureConfigDir (fun _ =>
     andThen ensureTemplatesDir (fun _ =>
     andThen (unlessExists SMTP_CONFIG_FILE
                (fun h => writeConfig (defaultConfig h) h)) (fun _ =>
     andThen (unlessExists (TemplateFile "default.json")
                (fun h => writeTemplate "default.json"
                            (builtins h).1.1 h)) (fun _ =>
     andThen (unlessExists (TemplateFile "ie-outreach.json")
                (fun h => writeTemplate "ie-outreach.json"
                            (builtins h).1.2 h)) (fun _ =>
     andThen (unlessExists (TemplateFile "esade-outreach.json")
                (fun h => writeTemplate "esade-outreach.json"
                            (builtins h).2 h)) (fun _ =>
     unlessExists LOG_FILE (writeLogs []))))))))
    (fun error h => (Throw error, h)).

(** Everything [ensureConfigDirectories] looks after, in the order in
    which it does. *)
Definition targets : list Target :=
  [ConfigDir; TemplatesDir; Document SMTP_CONFIG_FILE;
   Document (TemplateFile "default.json");
   Document (TemplateFile "ie-outreach.json");
   Document (TemplateFile "esade-outreach.json");
   Document LOG_FILE].

(** Whether a target is there. *)
Definition present (h : Home) (t : Target) : bool :=
  match t with
  | ConfigDir => configDir h
  | TemplatesDir => match templates h with Some _ => true | None => false end
  | Document p => match pathExists p h with (Ok b, _) => b | _ => false end
  end.

(** [h'] has everything that [h] has, unchanged: what exists in [h]
    exists in [h'] with the same content, the files of the templates
    directory keep their places, and the objects in memory and the
    failures are the same. *)
Definition extends (h h' : Home) : Prop :=
  (configDir h = true -> configDir h' = true) /\
  (forall d, smtpConfig h = Some d -> smtpConfig h' = Some d) /\
  (logs h <> LogAbsent -> logs h' = logs h) /\
  (forall dir, templates h = Some dir ->
               exists more, templates h' = Some (dir ++ more)) /\
  servers h' = servers h /\ builtins h' = builtins h /\ fails h' = fails h.

(** How a step [m] that looks after the target [t] ends in [h]: it
    leaves [h] alone when the target is there; otherwise it throws,
    the creation failing, or it creates the target and touches
    nothing else. *)
Definition looksAfter (t : Target) (m : H unit) (h : Home) : Prop :=
  (present h t = true -> m h = (Ok tt, h)) /\
  ((present h t = false /\ fails h t = true /\
    m h = (Throw ioError, h)) \/
   (exists h1,
      m h = (Ok tt, h1) /\ extends h h1 /\ present h1 t = true /\
      (present h t = false -> fails h t = false))).

(** The world that the rest of the program finds in a home directory. *)
Definition world (h : Home) : World.t :=
  {| configFile := mjoin (smtpConfig h);
     defaultServers := servers h;
     templatesDir := templates h;
     builtinTemplates := builtins h;
     logFile := logs h;
     writeFails := fun p => fails h (Document p);
     clock := 0%Z;
     trace := [] |}.

End Setup.

(* ===================================================================== *)
(** * requestHandler.ts: the list handlers                                *)
(* ===================================================================== *)

Module ToolHandlers.
Import Js Config Mail World Run Run.Notations Store EmailService.

(** What the two list handlers return: [{success: true, configs}] or
    [{success: true, templates}], else [{success: false, message}]. *)
Inductive Listing (A : Type) : Type :=
| Listed (items : list A)
| NotListed (message : string).
Arguments Listed {A} items.
Arguments NotListed {A} message.

Definition handleGetSmtpConfigs : M (Listing SmtpServerConfig) :=
  tryCatch
    (let* configs := getSmtpConfigs in
     ret (Listed configs))
    (fun error => ret (NotListed (messageOr "Unknown error" error))).

Definition handleGetEmailTemplates : M (Listing EmailTemplate) :=
  tryCatch
    (let* templates := getEmailTemplates in
     ret (Listed templates))
    (fun error => ret (NotListed (messageOr "Unknown error" error))).

End ToolHandlers.


(* ===================================================================== *)
(** * What is read back from the store                                    *)
(* ===================================================================== *)

Module StoreViews.
Import Js Config Mail World Run Store TemplateModel.

(** The built-in templates, as [getEmailTemplates] hands them out when
    the directory cannot be read. *)
Definition builtinList (w : World.t) : list EmailTemplate :=
  let '(d, ie, esade) := builtinTemplates w in [d; ie; esade].

(** Every [.json] file of a directory parses. *)
Definition allParse (dir : list (string * option EmailTemplate)) : bool :=
  forallb (fun e => match e.2 with
                    | Some _ => true
                    | None => negb (isJson e.1)
                    end) dir.

(** A string that can be the name of a file: it holds neither the
    path separator nor the NUL character (POSIX).  For an id that is
    one, [path.join(TEMPLATES_DIR, id + ".json")] is the file of that
    name in the templates directory, as [saveEmailTemplate] and
    [deleteEmailTemplate] are modelled; for other ids [path.join]
    leads elsewhere, and nothing is stated. *)
Definition isFileName (s : string) : bool :=
  forallb (fun c => negb (Ascii.eqb c "/" || Ascii.eqb c "000"))
    (list_ascii_of_string s).

(** The entries that [getEmailLogs] finds. *)
Definition logsOf (w : World.t) : list EmailLogEntry :=
  match logFile w with
  | LogEntries l => l
  | _ => []
  end.

(** The log document can be extended: it is absent or parses, and can
    be written. *)
Definition logWritable (w : World.t) : bool :=
  match logFile w with
  | LogCorrupt => false
  | _ => negb (writeFails w LOG_FILE)
  end.

(** The deliveries of a trace, oldest first. *)
Definition sendMails (tr : list Event) : list (Transport * MailOptions) :=
  omap (fun e => match e with
                 | SendMail t m => Some (t, m)
                 | _ => None
                 end) tr.

End StoreViews.

(* ===================================================================== *)
(** * What the SMTP handlers return and write                             *)
(* ===================================================================== *)

Module SmtpViews.
Import Js Config World Run Store RequestHandler.

(** The entry that [handleUpdateSmtpConfig] returns for the entry
    [found]. *)
Definition updatedConfig (p : UpdateSmtpParams) (found : SmtpServerConfig)
    : SmtpServerConfig :=
  match us_isDefault p with
  | Some isDefault => setDefaultSmtp isDefault (updateSmtpFields p found)
  | None => updateSmtpFields p found
  end.

(** What an update does to the entries it does not name. *)
Definition bystander (p : UpdateSmtpParams) (c : SmtpServerConfig)
    : SmtpServerConfig :=
  match us_isDefault p with
  | Some true => setDefaultSmtp false c
  | _ => c
  end.

(** A change of the list of a handler is seen by the next read: the
    document is readable and can be written, or it is not readable and
    the list is the module-level one. *)
Definition takesEffect (w : World.t) : bool :=
  match configFile w with
  | Some _ => negb (writeFails w SMTP_CONFIG_FILE)
  | None => true
  end.

End SmtpViews.

(* ===================================================================== *)
(** * What a send resolves to                                             *)
(* ===================================================================== *)

Module SendViews.
Import Js Config Mail World Run Store EmailService Template RequestHandler.

(** The template that the id ["default"] stands for: the first one
    flagged as default, else the first one, else the built-in one. *)
Definition defaultTemplateOf (w : World.t) : EmailTemplate :=
  default (builtinTemplates w).1.1
    (orOpt (List.find tpl_isDefault (templatesOf w))
       (head (templatesOf w))).

(** Subject and body of a template rendered against [templateData]. *)
Definition rendered (inherited : string -> Val)
    (templateData : option (gmap string Val)) (t : EmailTemplate)
    : string * string :=
  (processTemplate inherited (tpl_subject t) templateData,
   processTemplate inherited (tpl_body t) templateData).

(** Subject and body that [generateEmailContent] returns, given the
    collection of templates and the template that ["default"] stands
    for. *)
Definition contentOf (inherited : string -> Val)
    (templates : list EmailTemplate) (defaultTemplate : EmailTemplate)
    (templateId : option string) (templateData : option (gmap string Val))
    (subject body : string) : string * string :=
  if negb (truthyOpt templateId) then (subject, body)
  else
    match (if String.eqb (default "" templateId) "default"
           then Some defaultTemplate
           else findTemplate (default "" templateId) templates) with
    | Some t => rendered inherited templateData t
    | None => (subject, body)
    end.


(** What every mail of a bulk send through the configuration [c] has
    in common. *)
Definition envelopeOk (data : BulkEmailData) (c : SmtpServerConfig)
    (mail : Transport * MailOptions) : Prop :=
  mail.1 = transportFor c /\
  mo_from mail.2 = match bulk_from data with
                   | Some f => formatRecipient f
                   | None => user (auth c)
                   end /\
  mo_cc mail.2 = (map formatRecipient <$> bulk_cc data) /\
  mo_bcc mail.2 = (map formatRecipient <$> bulk_bcc data).

End SendViews.

(* ===================================================================== *)
(** * What the log tool selects                                           *)
(* ===================================================================== *)

Module LogViews.
Import Js Config World Logs.

(** The entries that pass the filter of [get-email-logs]. *)
Definition selected (p : LogsParams) (l : list EmailLogEntry)
    : list EmailLogEntry :=
  match filterBySuccess p with
  | Some wanted => List.filter (fun e => Bool.eqb (log_success e) wanted) l
  | None => l
  end.

(** What the limit of [get-email-logs] keeps of a list. *)
Definition limited (p : LogsParams) (l : list EmailLogEntry)
    : list EmailLogEntry :=
  match limit p with
  | Some n => if (0 <? n)%Z then take (Z.to_nat n) l else l
  | None => l
  end.

(** The time of an entry whose timestamp is a date. *)
Definition timeOf (getTime : string -> option Z) (e : EmailLogEntry) : Z :=
  default 0%Z (getTime (timestamp e)).

(** The entries stamped with the time [t]. *)
Definition stampedAt (getTime : string -> option Z) (t : Z)
    (l : list EmailLogEntry) : list EmailLogEntry :=
  List.filter (fun e => (timeOf getTime e =? t)%Z) l.

End LogViews.

(* ===================================================================== *)
(** * More concrete worlds and inputs                                     *)
(* ===================================================================== *)

Module Cases.
Import Js Config Mail World Run Store EmailService RequestHandler.

(** A templates directory with a text file and a [.json] file that
    does not parse. *)
Definition brokenDir : list (string * option EmailTemplate) :=
  [("default.json", Some DEFAULT_TEMPLATE);
   ("notes.txt", None);
   ("broken.json", None)].

Definition brokenDirWorld : World.t :=
  setTemplatesDir World.initial (Some brokenDir).

(** A world in which nothing can be written. *)
Definition readOnlyWorld : World.t :=
  {| configFile := configFile World.initial;
     defaultServers := defaultServers World.initial;
     templatesDir := templatesDir World.initial;
     builtinTemplates := builtinTemplates World.initial;
     logFile := logFile World.initial;
     writeFails := fun _ => true;
     clock := 0%Z;
     trace := [] |}.

Definition welcome : AddTemplateParams :=
  {| at_name := "Welcome"; at_subject := "Welcome, {{name}}";
     at_body := "Hello {{name}}"; at_isDefault := None |}.

Definition renameIe : UpdateTemplateParams :=
  {| ut_id := "ie-outreach"; ut_name := Some "IE"; ut_subject := None;
     ut_body := None; ut_isDefault := Some true |}.

(** A bulk send with a batch size of zero. *)
Definition stalled : BulkEmailData :=
  {| recipients := [Examples.ana; Examples.bob]; bulk_subject := "News";
     bulk_body := "Hello"; bulk_from := None; bulk_cc := None;
     bulk_bcc := None; bulk_templateId := None;
     bulk_templateData := None; batchSize := Some 0;
     delayBetweenBatches := None |}.

(** Three log entries, the second one a failure; [second] and [third]
    carry the same timestamp. *)
Definition logEntryAt (stamp to : string) (ok : bool) : EmailLogEntry :=
  {| timestamp := stamp; log_smtpConfig := "aws-ses";
     log_templateId := None; recipient := to; log_subject := "News";
     log_success := ok; log_message := None |}.

Definition threeEntries : list EmailLogEntry :=
  [logEntryAt "t1" "ana@example.org" true;
   logEntryAt "t2" "bob@example.org" false;
   logEntryAt "t2" "cy@example.org" true].

Definition loggedWorld : World.t :=
  setLogFile World.initial (LogEntries threeEntries).

(** A clock that reads the stamps ["t1"] and ["t2"]. *)
Definition stampTime (s : string) : option Z :=
  if String.eqb s "t1" then Some 1%Z
  else if String.eqb s "t2" then Some 2%Z else None.

End Cases.

(* ===================================================================== *)
(** * Tactics                                                             *)
(* ===================================================================== *)

(** Normalise appends whose left operand starts with known characters. *)
Ltac str_simpl :=
  repeat match goal with
         | |- context [String ?c ?a +:+ ?b] =>
             change (String c a +:+ b) with (String c (a +:+ b))
         | |- context [EmptyString +:+ ?b] =>
             change (EmptyString +:+ b) with b
         end.

(* ===================================================================== *)
(** * Properties of the template renderer                                 *)
(* ===================================================================== *)

Module RenderFacts.
Import Js Template Spec.

Lemma app_cons c (a b : string) : String c a +:+ b = String c (a +:+ b).
Proof. reflexivity. Qed.

Lemma app_nil_l (a : string) : "" +:+ a = a.
Proof. reflexivity. Qed.

Lemma append_assoc (a b c : string) : (a +:+ b) +:+ c = a +:+ (b +:+ c).
Proof. induction a as [|x a IH]; str_simpl; [done | by f_equal]. Qed.

Lemma append_nil_r (a : string) : a +:+ "" = a.
Proof. induction a as [|x a IH]; str_simpl; [done | by f_equal]. Qed.

Lemma length_append (a b : string) :
  String.length (a +:+ b) = String.length a + String.length b.
Proof. induction a as [|x a IH]; str_simpl; simpl; [done | by f_equal]. Qed.

Lemma spanKey_split s k r :
  spanKey s = (k, r) -> s = k +:+ r /\ occurs "}" k = false.
Proof.
  revert k r. induction s as [|c s IH]; intros k r; simpl.
  - intros [= <- <-]. done.
  - destruct (Ascii.eqb_spec c "}") as [->|Hc].
    + intros [= <- <-]. done.
    + destruct (spanKey s) as [k' r'] eqn:E. intros [= <- <-].
      destruct (IH _ _ eq_refl) as [-> Hk]. split; [done|]. simpl.
      rewrite Hk. by destruct (Ascii.eqb_spec c "}").
Qed.

Lemma spanKey_app k rest :
  occurs "}" k = false ->
  spanKey (k +:+ String "}" rest) = (k, String "}" rest).
Proof.
  induction k as [|c k IH]; str_simpl; simpl; [done|].
  destruct (Ascii.eqb_spec c "}") as [->|Hc]; simpl; [done|].
  intros Hk. by rewrite (IH Hk).
Qed.

(** A match is a well-formed token at the head of the input. *)
Lemma matchPlaceholder_Some s key rest :
  matchPlaceholder s = Some (key, rest) ->
  s = placeholder key +:+ rest /\ key <> "" /\ occurs "}" key = false.
Proof.
  unfold matchPlaceholder, placeholder. intros H.
  destruct s as [|c1 [|c2 s1]];
    [done | by repeat case_match |].
  destruct (spanKey s1) as [k r] eqn:E.
  apply spanKey_split in E as [-> Hk].
  assert (c1 = "{"%char /\ c2 = "{"%char /\
          exists r', r = String "}" (String "}" r') /\
                     k = key /\ r' = rest /\ k <> "")
    as (-> & -> & r' & -> & <- & <- & Hne).
  { repeat case_match; simplify_eq; try done.
    repeat split; eexists; repeat split; done. }
  rewrite !append_assoc. str_simpl. done.
Qed.

Lemma matchPlaceholder_intro key rest :
  key <> "" -> occurs "}" key = false ->
  matchPlaceholder (placeholder key +:+ rest) = Some (key, rest).
Proof.
  intros Hne Hk. unfold placeholder.
  rewrite !append_assoc. str_simpl. simpl.
  rewrite spanKey_app by done.
  destruct key; done.
Qed.

Lemma matchPlaceholder_shorter s key rest :
  matchPlaceholder s = Some (key, rest) ->
  String.length rest < String.length s.
Proof.
  intros H. apply matchPlaceholder_Some in H as (-> & _ & _).
  unfold placeholder. rewrite !length_append. simpl. lia.
Qed.

Lemma matchPlaceholder_other c s :
  c <> "{"%char -> matchPlaceholder (String c s) = None.
Proof.
  intros Hc. unfold matchPlaceholder.
  destruct c as [[] [] [] [] [] [] [] []]; try done.
Qed.

Section Fuel.
Variable inherited : string -> Val.
Variable data : gmap string Val.

(** Fuel beyond the length of the input is never used. *)
Lemma replaceAll_fuel n m s :
  String.length s <= n -> String.length s <= m ->
  replaceAll inherited n data s = replaceAll inherited m data s.
Proof.
  revert m s. induction n as [|n IH]; intros m s Hn Hm.
  - destruct s; simpl in *; [|lia]. by destruct m.
  - destruct m as [|m].
    { destruct s; simpl in *; [done|lia]. }
    simpl. destruct (matchPlaceholder s) as [[key rest]|] eqn:E.
    + apply matchPlaceholder_shorter in E.
      f_equal. apply IH; lia.
    + destruct s as [|c s]; [done|]. simpl in *. f_equal. apply IH; lia.
Qed.

Lemma tokens_fuel n m s :
  String.length s <= n -> String.length s <= m ->
  tokens n s = tokens m s.
Proof.
  revert m s. induction n as [|n IH]; intros m s Hn Hm.
  - destruct s; simpl in *; [|lia]. by destruct m.
  - destruct m as [|m].
    { destruct s; simpl in *; [done|lia]. }
    simpl. destruct (matchPlaceholder s) as [[key rest]|] eqn:E.
    + apply matchPlaceholder_shorter in E.
      f_equal. apply IH; lia.
    + destruct s as [|c s]; [done|]. simpl in *. f_equal. apply IH; lia.
Qed.

(** The global replace, one step at a time. *)
Lemma processTemplate_step s :
  processTemplate inherited s (Some data) =
  match matchPlaceholder s with
  | Some (key, rest) =>
      replacer inherited data key +:+
      processTemplate inherited rest (Some data)
  | None =>
      match s with
      | String c s' => String c (processTemplate inherited s' (Some data))
      | EmptyString => EmptyString
      end
  end.
Proof.
  unfold processTemplate. simpl.
  destruct s as [|c s]; [done|].
  change (String.length (String c s)) with (S (String.length s)).
  cbn [replaceAll].
  destruct (matchPlaceholder (String c s)) as [[key rest]|] eqn:E.
  - apply matchPlaceholder_shorter in E. simpl in E.
    f_equal. apply replaceAll_fuel; lia.
  - done.
Qed.

Lemma tokenize_step s :
  tokenize s =
  match matchPlaceholder s with
  | Some (key, rest) => Placeholder key :: tokenize rest
  | None =>
      match s with
      | String c s' => Literal c :: tokenize s'
      | EmptyString => []
      end
  end.
Proof.
  unfold tokenize.
  destruct s as [|c s]; [done|].
  change (String.length (String c s)) with (S (String.length s)).
  cbn [tokens].
  destruct (matchPlaceholder (String c s)) as [[key rest]|] eqn:E.
  - apply matchPlaceholder_shorter in E. simpl in E.
    f_equal. apply tokens_fuel; lia.
  - done.
Qed.

Lemma replacer_renderPiece key :
  replacer inherited data key =
  renderPiece inherited data (Placeholder key).
Proof.
  unfold replacer, renderPiece, placeholder.
  by destruct (getProp inherited data (trim key)).
Qed.

End Fuel.

Section Tokens.
Variable inherited : string -> Val.
Variable data : gmap string Val.

(** Induction along the scan: on the length of what is left. *)
Lemma scan_ind (P : string -> Prop) :
  (forall s,
     (forall s', String.length s' < String.length s -> P s') -> P s) ->
  forall s, P s.
Proof.
  intros step s. remember (String.length s) as n eqn:Hn.
  revert s Hn. induction n as [n IH] using lt_wf_ind.
  intros s ->. apply step. intros s' Hlt. by apply (IH _ Hlt).
Qed.

Lemma tokenize_text s : concatStrings (pieceText <$> tokenize s) = s.
Proof.
  induction s as [s IH] using scan_ind.
  rewrite tokenize_step.
  destruct (matchPlaceholder s) as [[key rest]|] eqn:E.
  - pose proof (matchPlaceholder_shorter _ _ _ E) as Hlt.
    apply matchPlaceholder_Some in E as (-> & _ & _).
    cbn [fmap list_fmap concatStrings foldr pieceText].
    f_equal. apply (IH _ Hlt).
  - destruct s as [|c s]; [done|].
    cbn [fmap list_fmap concatStrings foldr pieceText]. str_simpl.
    f_equal. apply IH. simpl. lia.
Qed.

Lemma processTemplate_pieces s :
  processTemplate inherited s (Some data) =
  concatStrings (renderPiece inherited data <$> tokenize s).
Proof.
  induction s as [s IH] using scan_ind.
  rewrite processTemplate_step, tokenize_step.
  destruct (matchPlaceholder s) as [[key rest]|] eqn:E.
  - apply matchPlaceholder_shorter in E.
    cbn [fmap list_fmap concatStrings foldr].
    rewrite replacer_renderPiece. f_equal. by apply IH.
  - destruct s as [|c s]; [done|].
    cbn [fmap list_fmap concatStrings foldr renderPiece]. str_simpl.
    f_equal. apply IH. simpl. lia.
Qed.

Lemma tokenize_wf s key :
  Placeholder key ∈ tokenize s -> key <> "" /\ occurs "}" key = false.
Proof.
  induction s as [s IH] using scan_ind.
  rewrite tokenize_step.
  destruct (matchPlaceholder s) as [[k rest]|] eqn:E.
  - pose proof (matchPlaceholder_shorter _ _ _ E) as Hlt.
    apply matchPlaceholder_Some in E as (_ & Hne & Hk).
    intros [[= ->]|Hin]%elem_of_cons; [done|]. by apply (IH _ Hlt).
  - destruct s as [|c s]; [by intros ?%elem_of_nil|].
    intros [[=]|Hin]%elem_of_cons. apply (IH s); [simpl; lia | done].
Qed.

(** A well-formed token that follows text without an opening brace
    is rendered on its own. *)
Lemma processTemplate_token pre key rest :
  occurs "{" pre = false -> key <> "" -> occurs "}" key = false ->
  processTemplate inherited (pre +:+ "{{" +:+ key +:+ "}}" +:+ rest)
    (Some data) =
  pre +:+ renderPiece inherited data (Placeholder key) +:+
  processTemplate inherited rest (Some data).
Proof.
  intros Hpre Hne Hk. induction pre as [|c pre IH].
  - rewrite !app_nil_l.
    assert ("{{" +:+ key +:+ "}}" +:+ rest = placeholder key +:+ rest)
      as ->.
    { unfold placeholder. by rewrite !append_assoc. }
    rewrite processTemplate_step.
    rewrite matchPlaceholder_intro by done.
    by rewrite replacer_renderPiece.
  - simpl in Hpre. apply orb_false_elim in Hpre as [Hc Hpre].
    rewrite !(app_cons c). rewrite processTemplate_step.
    rewrite matchPlaceholder_other
      by (intros ->; by rewrite Ascii.eqb_refl in Hc).
    f_equal. by apply IH.
Qed.

End Tokens.

End RenderFacts.

(* ===================================================================== *)
(** * Claims about the template renderer                                  *)
(* ===================================================================== *)

Module RenderClaims.
Import Js Template Spec RenderFacts.

(** C5.  [processTemplate] works token by token.  The [{{key}}] tokens
    of a template are fixed by the template alone ([tokenize], whose
    pieces spell the template back); the output is the concatenation
    of the pieces, where a token whose trimmed key has a value other
    than [undefined] in the data is replaced by the string form of that
    value and every other piece, token or plain character, is copied as
    it stands.  Any well-formed [{{key}}] that follows text without an
    opening brace is such a token.  In particular
    [render("Hello {{name}}", {name: "Ana"})] is ["Hello Ana"] and
    [render("Hello {{name}}", {})] is ["Hello {{name}}"]. *)
Theorem processTemplate_tokenwise
    (inherited : string -> Val) (data : gmap string Val) :
  (forall template,
     concatStrings (pieceText <$> tokenize template) = template /\
     processTemplate inherited template (Some data) =
       concatStrings (renderPiece inherited data <$> tokenize template)) /\
  (forall pre key rest,
     occurs "{" pre = false -> key <> "" -> occurs "}" key = false ->
     processTemplate inherited (pre +:+ "{{" +:+ key +:+ "}}" +:+ rest)
       (Some data) =
     pre +:+
     match getProp inherited data (trim key) with
     | VUndefined => "{{" +:+ key +:+ "}}"
     | v => toString v
     end +:+
     processTemplate inherited rest (Some data)) /\
  processTemplate inherited "Hello {{name}}"
    (Some {[ "name" := VStr "Ana" ]}) = "Hello Ana" /\
  (inherited "name" = VUndefined ->
   processTemplate inherited "Hello {{name}}" (Some ∅) = "Hello {{name}}" /\
   processTemplate inherited "Hello {{name}}" None = "Hello {{name}}").
Proof.
  split; [|split; [|split]].
  - intros template. split.
    + apply tokenize_text.
    + apply processTemplate_pieces.
  - intros pre key rest Hpre Hne Hk.
    by rewrite processTemplate_token.
  - rewrite (processTemplate_token inherited _ "Hello " "name" "")
      by done.
    reflexivity.
  - intros Hname.
    assert (processTemplate inherited "Hello {{name}}" (Some ∅)
            = "Hello {{name}}") as H.
    { rewrite (processTemplate_token inherited _ "Hello " "name" "")
        by done.
      cbn [renderPiece]. unfold getProp.
      change (trim "name") with "name". rewrite lookup_empty, Hname.
      reflexivity. }
    split; [exact H|]. exact H.
Qed.

Lemma processTemplate_tokenwise_witness :
  processTemplate (fun _ => VUndefined) "Hello {{name}}" (Some ∅)
    = "Hello {{name}}" /\
  processTemplate (fun _ => VUndefined) "Dear {{ name }}!"
    (Some {[ "name" := VOther "42" ]}) = "Dear 42!".
Proof.
  pose proof (processTemplate_tokenwise (fun _ => VUndefined) ∅)
    as (_ & _ & _ & Hex).
  pose proof (processTemplate_tokenwise (fun _ => VUndefined)
                {[ "name" := VOther "42" ]}) as (_ & Htok & _).
  split.
  - exact (proj1 (Hex eq_refl)).
  - exact (Htok "Dear " " name " "!" eq_refl
             ltac:(discriminate) eq_refl).
Defined.

End RenderClaims.

(* ===================================================================== *)
(** * Properties of the document store                                    *)
(* ===================================================================== *)

Module StoreFacts.
Import Js Config World Run Run.Notations Store.

Lemma getSmtpConfigsRef_eq w :
  getSmtpConfigsRef w =
  (Ok match configFile w with
      | Some doc => (ParsedServers, smtpServers doc)
      | None => (SharedServers, defaultServers w)
      end, w).
Proof.
  unfold getSmtpConfigsRef, tryCatch, bind, readJsonConfig, get, ret.
  by destruct (configFile w).
Qed.

Lemma getSmtpConfigs_eq w :
  getSmtpConfigs w =
  (Ok match configFile w with
      | Some doc => smtpServers doc
      | None => defaultServers w
      end, w).
Proof.
  unfold getSmtpConfigs, bind. rewrite getSmtpConfigsRef_eq.
  by destruct (configFile w).
Qed.

Lemma saveSmtpConfigs_eq configs w :
  saveSmtpConfigs configs w =
  match configFile w with
  | Some doc =>
      if writeFails w SMTP_CONFIG_FILE then (Ok false, w)
      else (Ok true,
            setConfigFile w (Some (<["smtpServers" := FServers configs]> doc)))
  | None => (Ok false, w)
  end.
Proof.
  unfold saveSmtpConfigs, tryCatch, bind, readJsonConfig, writeJsonConfig, ret.
  destruct (configFile w); [|done].
  by destruct (writeFails w SMTP_CONFIG_FILE).
Qed.

Lemma smtpServers_insert configs (doc : gmap string Field) :
  smtpServers (<["smtpServers" := FServers configs]> doc) = configs.
Proof. unfold smtpServers. by rewrite lookup_insert_eq. Qed.

End StoreFacts.

(* ===================================================================== *)
(** * Claims about the document store                                     *)
(* ===================================================================== *)

Module StoreClaims.
Import Js Config World Run Store StoreFacts.

(** C9.  [saveSmtpConfigs] never throws.  When the configuration
    document can be read and written it returns [true] and the document
    on disk becomes the one read with its [smtpServers] field set to the
    given list: every other top-level field, [rateLimit] among them, is
    what it was, and so is everything else in the world.  When reading
    or writing fails it returns [false] and changes nothing. *)
Theorem saveSmtpConfigs_frame (configs : list SmtpServerConfig) (w : World.t) :
  exists (ok : bool) (w' : World.t),
    saveSmtpConfigs configs w = (Ok ok, w') /\
    (configFile w = None \/ writeFails w SMTP_CONFIG_FILE = true ->
     ok = false /\ w' = w) /\
    (forall doc,
       configFile w = Some doc -> writeFails w SMTP_CONFIG_FILE = false ->
       ok = true /\
       exists doc',
         w' = setConfigFile w (Some doc') /\
         doc' !! "smtpServers" = Some (FServers configs) /\
         doc' !! "rateLimit" = doc !! "rateLimit" /\
         forall field, field <> "smtpServers" -> doc' !! field = doc !! field).
Proof.
  rewrite saveSmtpConfigs_eq.
  destruct (configFile w) as [doc|] eqn:Hdoc.
  - destruct (writeFails w SMTP_CONFIG_FILE) eqn:Hw.
    + eexists _, _. split; [done|]. split; [done|]. by intros.
    + eexists _, _. split; [done|]. split.
      * by intros [|].
      * intros ? [= <-] _. split; [done|]. eexists. split; [done|].
        split; [by rewrite lookup_insert_eq|].
        split; [by rewrite lookup_insert_ne|].
        intros field Hf. by rewrite lookup_insert_ne.
  - eexists _, _. split; [done|]. split; [done|]. by intros.
Qed.

Lemma saveSmtpConfigs_frame_witness :
  exists w',
    saveSmtpConfigs [GMAIL] World.initial = (Ok true, w') /\
    (exists doc',
       configFile w' = Some doc' /\
       doc' !! "smtpServers" = Some (FServers [GMAIL]) /\
       doc' !! "rateLimit" = Some (FRateLimit DEFAULT_RATE_LIMIT)).
Proof.
  destruct (saveSmtpConfigs_frame [GMAIL] World.initial)
    as (ok & w' & Hrun & _ & Hok).
  destruct (Hok DEFAULT_SMTP_CONFIG eq_refl eq_refl)
    as (-> & doc' & -> & Hservers & Hrate & _).
  exists (setConfigFile World.initial (Some doc')).
  split; [exact Hrun|].
  exists doc'. split; [reflexivity|]. split; [exact Hservers|].
  rewrite Hrate. reflexivity.
Defined.

End StoreClaims.

(* ===================================================================== *)
(** * Properties of the SMTP configuration handlers                       *)
(* ===================================================================== *)

Module SmtpFacts.
Import Js Config World Run Run.Notations Store StoreFacts RequestHandler.
Import SmtpModel.

Lemma configsOf_eq w :
  configsOf w = match configFile w with
                | Some doc => smtpServers doc
                | None => defaultServers w
                end.
Proof. unfold configsOf. by rewrite getSmtpConfigs_eq. Qed.

Lemma getSmtpConfigsRef_configsOf w :
  getSmtpConfigsRef w = (Ok (refOf w, configsOf w), w).
Proof.
  rewrite getSmtpConfigsRef_eq, configsOf_eq. unfold refOf.
  by destruct (configFile w).
Qed.

(** The tail shared by the three handlers: write the array through,
    save it, answer. *)
Lemma commit_eq {A} w configs (r : A) :
  (mutateServers (refOf w) configs ;; saveSmtpConfigs configs ;; ret r) w
  = (Ok r, committed configs w).
Proof.
  unfold committed, refOf, bind.
  destruct (configFile w) as [doc|] eqn:Hdoc; simpl.
  - rewrite saveSmtpConfigs_eq, Hdoc.
    by destruct (writeFails w SMTP_CONFIG_FILE).
  - rewrite saveSmtpConfigs_eq. simpl. by rewrite Hdoc.
Qed.

(** The collection read back afterwards is the new array, unless the
    file is readable but cannot be written: then nothing changed. *)
Lemma committed_configsOf configs w :
  committed configs w = w \/ configsOf (committed configs w) = configs.
Proof.
  unfold committed.
  destruct (configFile w) as [doc|] eqn:Hdoc.
  - destruct (writeFails w SMTP_CONFIG_FILE); [by left|right].
    rewrite configsOf_eq. simpl. apply smtpServers_insert.
  - right. rewrite configsOf_eq. simpl. by rewrite Hdoc.
Qed.


Lemma committed_frame configs w :
  templatesDir (committed configs w) = templatesDir w /\
  builtinTemplates (committed configs w) = builtinTemplates w /\
  writeFails (committed configs w) = writeFails w /\
  logFile (committed configs w) = logFile w /\
  trace (committed configs w) = trace w.
Proof.
  unfold committed. destruct (configFile w); [|done].
  by destruct (writeFails w SMTP_CONFIG_FILE).
Qed.

(** ** The list each handler writes *)

Lemma handleAddSmtpConfig_eq uuid p w :
  handleAddSmtpConfig uuid p w =
  (Ok (ConfigOk (newConfig uuid p)),
   committed (added (newConfig uuid p) (configsOf w)) w).
Proof.
  unfold handleAddSmtpConfig, tryCatch. unfold bind at 1.
  rewrite getSmtpConfigsRef_configsOf.
  fold (newConfig uuid p).
  by rewrite (commit_eq w _ (ConfigOk (newConfig uuid p))).
Qed.

Lemma handleUpdateSmtpConfig_eq p w :
  handleUpdateSmtpConfig p w =
  match findIndex (us_id p) (configsOf w) with
  | None => (Ok (Status false (smtpNotFound (us_id p))), w)
  | Some (i, found) =>
      (Ok (ConfigOk
             (match us_isDefault p with
              | Some b => setDefaultSmtp b (updateSmtpFields p found)
              | None => updateSmtpFields p found
              end)),
       committed (updated p i found (configsOf w)) w)
  end.
Proof.
  unfold handleUpdateSmtpConfig, tryCatch. unfold bind at 1.
  rewrite getSmtpConfigsRef_configsOf.
  destruct (findIndex (us_id p) (configsOf w)) as [[i found]|]; [|done].
  unfold updated.
  destruct (us_isDefault p) as [b|];
    by rewrite (commit_eq w _ (ConfigOk _)).
Qed.

Lemma handleDeleteSmtpConfig_eq id w :
  handleDeleteSmtpConfig id w =
  match findIndex id (configsOf w) with
  | None => (Ok (Status false (smtpNotFound id)), w)
  | Some (i, found) =>
      if length (configsOf w) =? 1
      then (Ok (Status false "Cannot delete the only SMTP configuration"), w)
      else (Ok (Status true "SMTP configuration deleted successfully"),
            committed (promoteFirst (smtp_isDefault found)
                         (delete i (configsOf w))) w)
  end.
Proof.
  unfold handleDeleteSmtpConfig, tryCatch. unfold bind at 1.
  rewrite getSmtpConfigsRef_configsOf.
  destruct (findIndex id (configsOf w)) as [[i found]|]; [|done].
  destruct (length (configsOf w) =? 1); [done|].
  unfold promoteFirst.
  by rewrite (commit_eq w _ (Status true _)).
Qed.

(** ** Counting default flags *)

Lemma defaultConfigs_app l1 l2 :
  defaultConfigs (l1 ++ l2) = defaultConfigs l1 + defaultConfigs l2.
Proof.
  unfold defaultConfigs. by rewrite List.filter_app, length_app.
Qed.

Lemma defaultConfigs_cons c l :
  defaultConfigs (c :: l) =
  (if smtp_isDefault c then 1 else 0) + defaultConfigs l.
Proof. unfold defaultConfigs. simpl. by destruct (smtp_isDefault c). Qed.

Lemma defaultConfigs_cleared l :
  defaultConfigs (map (setDefaultSmtp false) l) = 0.
Proof. induction l; [done|]. by rewrite map_cons, defaultConfigs_cons. Qed.

Lemma findIndex_lookup id l i found :
  findIndex id l = Some (i, found) -> l !! i = Some found.
Proof. unfold findIndex. by intros (? & _ & _)%list_find_Some. Qed.

(** A list around one of its positions. *)
Lemma split_at {A} (l : list A) i x :
  l !! i = Some x -> l = take i l ++ x :: drop (S i) l.
Proof. intros H. by rewrite (take_drop_middle l i x H). Qed.

Lemma clear_except i (l : list SmtpServerConfig) found :
  l !! i = Some found ->
  imap (fun index config =>
          if decide (index = i) then config
          else setDefaultSmtp false config) l =
  map (setDefaultSmtp false) (take i l) ++ found ::
  map (setDefaultSmtp false) (drop (S i) l).
Proof.
  revert i. induction l as [|c l IH]; intros i Hi; [done|].
  destruct i as [|i]; simpl in Hi.
  - injection Hi as ->. simpl. f_equal.
    rewrite drop_0. rewrite <- (imap_const (setDefaultSmtp false)).
    apply imap_ext. intros j x _. simpl. by destruct (decide (S j = 0)).
  - simpl. f_equal. rewrite <- (IH i Hi).
    apply imap_ext. intros j x _. simpl.
    destruct (decide (S j = S i)), (decide (j = i)); done || lia.
Qed.

Lemma defaultConfigs_added c l :
  defaultConfigs (added c l) =
  if smtp_isDefault c then 1 else defaultConfigs l.
Proof.
  unfold added. rewrite defaultConfigs_app, defaultConfigs_cons.
  destruct (smtp_isDefault c).
  - by rewrite defaultConfigs_cleared.
  - unfold defaultConfigs at 2. simpl. lia.
Qed.

Lemma defaultConfigs_split i found l :
  l !! i = Some found ->
  defaultConfigs l =
  defaultConfigs (take i l) + (if smtp_isDefault found then 1 else 0) +
  defaultConfigs (drop (S i) l).
Proof.
  intros Hi. rewrite (split_at l i found Hi) at 1.
  rewrite defaultConfigs_app, defaultConfigs_cons. lia.
Qed.

Lemma defaultConfigs_insert i found x l :
  l !! i = Some found ->
  defaultConfigs (<[i := x]> l) =
  defaultConfigs (take i l) + (if smtp_isDefault x then 1 else 0) +
  defaultConfigs (drop (S i) l).
Proof.
  intros Hi. pose proof (lookup_lt_Some _ _ _ Hi) as Hlt.
  rewrite insert_take_drop by done.
  rewrite defaultConfigs_app, defaultConfigs_cons. lia.
Qed.

Lemma defaultConfigs_updated p i found l :
  l !! i = Some found ->
  defaultConfigs (updated p i found l) =
  match us_isDefault p with
  | Some true => 1
  | Some false => defaultConfigs l - (if smtp_isDefault found then 1 else 0)
  | None => defaultConfigs l
  end.
Proof.
  intros Hi. pose proof (lookup_lt_Some _ _ _ Hi) as Hlt.
  pose proof (defaultConfigs_split i found l Hi) as Hsplit.
  unfold updated.
  destruct (us_isDefault p) as [[]|].
  - rewrite (clear_except i l found Hi).
    rewrite insert_app_r_alt by (rewrite length_map, length_take; lia).
    rewrite length_map, length_take.
    replace (i - i `min` length l) with 0 by lia. simpl.
    rewrite defaultConfigs_app, defaultConfigs_cons.
    rewrite !defaultConfigs_cleared. simpl. lia.
  - rewrite (defaultConfigs_insert i found _ l Hi). simpl.
    destruct (smtp_isDefault found); lia.
  - rewrite (defaultConfigs_insert i found _ l Hi). simpl. lia.
Qed.

Lemma defaultConfigs_delete i found l :
  l !! i = Some found ->
  defaultConfigs (delete i l) =
  defaultConfigs l - (if smtp_isDefault found then 1 else 0).
Proof.
  intros Hi. rewrite (defaultConfigs_split i found l Hi).
  rewrite delete_take_drop, defaultConfigs_app.
  destruct (smtp_isDefault found); lia.
Qed.

Lemma defaultConfigs_promoteFirst b l :
  defaultConfigs (promoteFirst b l) =
  match l with
  | first :: _ =>
      if b && negb (smtp_isDefault first)
      then S (defaultConfigs l) else defaultConfigs l
  | [] => 0
  end.
Proof.
  destruct l as [|first others]; [done|]. unfold promoteFirst.
  destruct b; [|done]. rewrite !defaultConfigs_cons. simpl.
  by destruct (smtp_isDefault first).
Qed.

Lemma defaultConfigs_le_length l : defaultConfigs l <= length l.
Proof. unfold defaultConfigs. apply List.filter_length_le. Qed.

(** ** One call and the number of default flags *)

(** The collection after a call is the one before or the list the
    handler wrote. *)
Lemma after_smtpCall c w :
  configsOf (after (smtpCall c) w) = configsOf w \/
  match c with
  | AddSmtp uuid p =>
      configsOf (after (smtpCall c) w) =
      added (newConfig uuid p) (configsOf w)
  | UpdateSmtp p =>
      exists i found,
        configsOf w !! i = Some found /\
        configsOf (after (smtpCall c) w) = updated p i found (configsOf w)
  | DeleteSmtp id =>
      exists i found,
        configsOf w !! i = Some found /\ length (configsOf w) <> 1 /\
        configsOf (after (smtpCall c) w) =
        promoteFirst (smtp_isDefault found) (delete i (configsOf w))
  end.
Proof.
  unfold after. destruct c as [uuid p|p|id]; simpl.
  - rewrite handleAddSmtpConfig_eq. simpl.
    destruct (committed_configsOf
                (added (newConfig uuid p) (configsOf w)) w) as [->|H];
      [by left | by right].
  - rewrite handleUpdateSmtpConfig_eq.
    destruct (findIndex (us_id p) (configsOf w)) as [[i found]|] eqn:Hf;
      [|by left]. simpl.
    destruct (committed_configsOf (updated p i found (configsOf w)) w)
      as [->|H]; [by left|right].
    exists i, found. split; [by eapply findIndex_lookup | done].
  - rewrite handleDeleteSmtpConfig_eq.
    destruct (findIndex id (configsOf w)) as [[i found]|] eqn:Hf;
      [|by left].
    destruct (Nat.eqb_spec (length (configsOf w)) 1) as [|Hlen];
      [by left|]. simpl.
    destruct (committed_configsOf
                (promoteFirst (smtp_isDefault found)
                   (delete i (configsOf w))) w)
      as [->|H]; [by left|right].
    exists i, found. split; [by eapply findIndex_lookup | done].
Qed.

Lemma defaultConfigs_deleted i found l :
  l !! i = Some found -> length l <> 1 ->
  defaultConfigs (promoteFirst (smtp_isDefault found) (delete i l)) =
  if smtp_isDefault found
  then match delete i l with
       | first :: _ =>
           if smtp_isDefault first then defaultConfigs l - 1
           else defaultConfigs l
       | [] => 0
       end
  else defaultConfigs l.
Proof.
  intros Hi Hlen. rewrite defaultConfigs_promoteFirst.
  pose proof (defaultConfigs_delete i found l Hi) as Hdel.
  pose proof (defaultConfigs_split i found l Hi) as Hsplit.
  destruct (smtp_isDefault found) eqn:Hd; simpl.
  - destruct (delete i l) as [|first others] eqn:E; [done|].
    destruct (smtp_isDefault first); simpl; lia.
  - rewrite Nat.sub_0_r in Hdel. rewrite <- Hdel.
    by destruct (delete i l).
Qed.

Lemma smtpCall_at_most_one c w :
  defaultConfigs (configsOf w) <= 1 ->
  defaultConfigs (configsOf (after (smtpCall c) w)) <= 1.
Proof.
  intros Hle. destruct (after_smtpCall c w) as [->|H]; [done|].
  destruct c as [uuid p|p|id].
  - rewrite H, defaultConfigs_added. by destruct (smtp_isDefault _).
  - destruct H as (i & found & Hi & ->).
    rewrite (defaultConfigs_updated p i found _ Hi).
    destruct (us_isDefault p) as [[]|]; lia.
  - destruct H as (i & found & Hi & Hlen & ->).
    rewrite (defaultConfigs_deleted i found _ Hi Hlen).
    pose proof (defaultConfigs_split i found _ Hi) as Hsplit.
    destruct (smtp_isDefault found); [|done].
    destruct (delete i (configsOf w)) as [|first ?]; [lia|].
    destruct (smtp_isDefault first); lia.
Qed.

Lemma smtpCalls_at_most_one calls w :
  defaultConfigs (configsOf w) <= 1 ->
  defaultConfigs (configsOf (afterSmtpCalls calls w)) <= 1.
Proof.
  revert w. induction calls as [|c calls IH]; intros w Hle; [done|].
  apply IH. by apply smtpCall_at_most_one.
Qed.

End SmtpFacts.

(* ===================================================================== *)
(** * The template directory as a list of templates                       *)
(* ===================================================================== *)

Module TemplateStore.
Import Js Config World Run Run.Notations Store RequestHandler RenderFacts.
Import TemplateModel.

(** ** File names *)

Lemma endsWith_refl s : endsWith s s = true.
Proof. destruct s; simpl; [done|]. by rewrite Ascii.eqb_refl, String.eqb_refl. Qed.

Lemma endsWith_app s suffix : endsWith (s +:+ suffix) suffix = true.
Proof.
  induction s as [|c s IH]; rewrite ?app_cons, ?app_nil_l.
  - apply endsWith_refl.
  - cbn [endsWith]. rewrite IH. apply orb_true_r.
Qed.

Lemma isJson_fileName id : isJson (fileName id) = true.
Proof. apply endsWith_app. Qed.

Lemma fileName_inj id1 id2 : fileName id1 = fileName id2 -> id1 = id2.
Proof.
  unfold fileName. revert id2.
  induction id1 as [|c id1 IH]; intros [|c2 id2];
    rewrite ?app_cons, ?app_nil_l; intros H.
  - done.
  - apply (f_equal String.length) in H.
    simpl in H. rewrite length_append in H.
    simpl in H. lia.
  - apply (f_equal String.length) in H.
    simpl in H. rewrite length_append in H.
    simpl in H. lia.
  - injection H as -> H. f_equal. by apply IH.
Qed.

Lemma fileName_eqb id1 id2 :
  String.eqb (fileName id1) (fileName id2) = String.eqb id1 id2.
Proof.
  destruct (String.eqb_spec id1 id2) as [->|Hne].
  - apply String.eqb_refl.
  - apply String.eqb_neq. by intros ?%fileName_inj.
Qed.

(** ** Well-formed directories *)

Lemma wfDir_spec dir :
  wfDir dir = true <->
  (forall e, e ∈ dir -> fileOk e = true) /\ NoDup dir.*1.
Proof.
  unfold wfDir. rewrite andb_true_iff, forallb_forall, bool_decide_eq_true.
  by setoid_rewrite list_elem_of_In.
Qed.

Lemma fileOk_json e :
  fileOk e = true -> isJson e.1 = true ->
  exists t, e = (fileName (tpl_id t), Some t).
Proof.
  destruct e as [f [t|]]; unfold fileOk; simpl; intros H Hj;
    rewrite Hj in H; [|done].
  apply String.eqb_eq in H as ->. by exists t.
Qed.

Lemma parsed_cons e dir :
  parsed (e :: dir) =
  match (if isJson e.1 then e.2 else None) with
  | Some t => t :: parsed dir
  | None => parsed dir
  end.
Proof. reflexivity. Qed.

Lemma parsed_app d1 d2 : parsed (d1 ++ d2) = parsed d1 ++ parsed d2.
Proof. apply omap_app. Qed.

Lemma parsed_name dir t :
  (forall e, e ∈ dir -> fileOk e = true) ->
  t ∈ parsed dir -> fileName (tpl_id t) ∈ dir.*1.
Proof.
  intros Hok (e & He & Hj)%list_elem_of_omap.
  destruct (isJson e.1) eqn:Hjson; [|done].
  destruct (fileOk_json e (Hok _ He) Hjson) as (t' & ->).
  simpl in Hj. injection Hj as ->.
  apply list_elem_of_fmap. by exists (fileName (tpl_id t), Some t).
Qed.

Lemma parsed_NoDup dir :
  wfDir dir = true -> NoDup (tpl_id <$> parsed dir).
Proof.
  rewrite wfDir_spec. intros [Hok Hnd].
  induction dir as [|e dir IH]; [constructor|].
  rewrite fmap_cons in Hnd. apply NoDup_cons in Hnd as [Hnotin Hnd].
  assert (forall e', e' ∈ dir -> fileOk e' = true) as Hok'
    by (intros; apply Hok; by right).
  rewrite parsed_cons.
  destruct (isJson e.1) eqn:Hjson; [|by apply IH].
  destruct (fileOk_json e (Hok _ ltac:(left)) Hjson) as (t & ->).
  simpl in *. apply NoDup_cons. split; [|by apply IH].
  intros (t' & Hid & Hin)%list_elem_of_fmap.
  apply Hnotin. rewrite Hid. by apply parsed_name.
Qed.

Lemma dirLookup_in dir f c :
  NoDup dir.*1 -> (f, c) ∈ dir -> dirLookup f dir = c.
Proof.
  unfold dirLookup. induction dir as [|[f' c'] dir IH]; intros Hnd Hin.
  - by apply elem_of_nil in Hin.
  - rewrite fmap_cons in Hnd. apply NoDup_cons in Hnd as [Hnotin Hnd].
    simpl. destruct (String.eqb_spec f' f) as [->|Hne].
    + apply elem_of_cons in Hin as [[= ->]|Hin]; [done|].
      exfalso. apply Hnotin. apply list_elem_of_fmap. by exists (f, c).
    + apply elem_of_cons in Hin as [[= -> ->]|Hin]; [done|]. by apply IH.
Qed.

Lemma readTemplates_suffix w dir d1 d2 acc :
  templatesDir w = Some dir -> wfDir dir = true -> dir = d1 ++ d2 ->
  readTemplates d2.*1 acc w = (Ok (acc ++ parsed d2), w).
Proof.
  intros Hdir [Hok Hnd]%wfDir_spec. revert d1 acc.
  induction d2 as [|e d2 IH]; intros d1 acc Heq.
  - simpl. by rewrite app_nil_r.
  - assert (e ∈ dir) as Hin
      by (rewrite Heq; apply elem_of_app; right; left).
    rewrite fmap_cons, parsed_cons. cbn [readTemplates].
    fold (isJson e.1).
    assert (dir = (d1 ++ [e]) ++ d2) as Heq'
      by (by rewrite <- app_assoc).
    destruct (isJson e.1) eqn:Hjson.
    + destruct (fileOk_json e (Hok _ Hin) Hjson) as (t & ->).
      unfold bind, readJsonTemplate. rewrite Hdir. cbn [fst snd].
      rewrite (dirLookup_in _ _ _ Hnd Hin).
      rewrite (IH _ (acc ++ [t]) Heq').
      by rewrite <- app_assoc.
    + by apply (IH (d1 ++ [e])).
Qed.

Lemma stored_get w l :
  Stored w l -> getEmailTemplatesRef w = (Ok (ParsedTemplates, l), w).
Proof.
  intros (dir & Hdir & Hwf & <- & _).
  unfold getEmailTemplatesRef, tryCatch, bind, readdirTemplates.
  rewrite Hdir.
  by rewrite (readTemplates_suffix w dir [] dir [] Hdir Hwf eq_refl).
Qed.

Lemma stored_templatesOf w l : Stored w l -> templatesOf w = l.
Proof.
  intros H. unfold templatesOf, getEmailTemplates, bind.
  by rewrite (stored_get w l H).
Qed.

Lemma stored_NoDup w l : Stored w l -> NoDup (tpl_id <$> l).
Proof. intros (dir & _ & Hwf & <- & _). by apply parsed_NoDup. Qed.

Lemma healthy_stored w : healthy w -> exists l, Stored w l.
Proof. intros (dir & ? & ? & ?). exists (parsed dir), dir. done. Qed.

(** ** Writing and removing files *)

(** How an entry of a well-formed directory relates to the file of the
    template [t]. *)
Lemma entry_cases e id :
  fileOk e = true ->
  (isJson e.1 = false /\ String.eqb e.1 (fileName id) = false) \/
  (exists x, e = (fileName (tpl_id x), Some x) /\
             String.eqb e.1 (fileName id) = hasId id x).
Proof.
  intros Hok. destruct (isJson e.1) eqn:Hjson.
  - right. destruct (fileOk_json e Hok Hjson) as (x & ->).
    exists x. split; [done|]. simpl. apply fileName_eqb.
  - left. split; [done|]. apply String.eqb_neq. intros Heq.
    rewrite Heq, isJson_fileName in Hjson. done.
Qed.

Lemma existsb_file dir id :
  (forall e, e ∈ dir -> fileOk e = true) ->
  existsb (fun e => String.eqb e.1 (fileName id)) dir =
  existsb (hasId id) (parsed dir).
Proof.
  induction dir as [|e dir IH]; intros Hok; [done|].
  rewrite parsed_cons. cbn [existsb].
  rewrite IH by (intros; apply Hok; by right).
  destruct (entry_cases e id (Hok _ ltac:(left)))
    as [[Hj ->]|(x & -> & ->)].
  - by rewrite Hj.
  - cbn [fst snd]. by rewrite isJson_fileName.
Qed.

Lemma parsed_replace dir t :
  (forall e, e ∈ dir -> fileOk e = true) ->
  parsed (map (fun e => if String.eqb e.1 (fileName (tpl_id t))
                       then (fileName (tpl_id t), Some t) else e) dir) =
  map (fun x => if hasId (tpl_id t) x then t else x) (parsed dir).
Proof.
  induction dir as [|e dir IH]; intros Hok; [done|].
  rewrite map_cons, !parsed_cons.
  rewrite IH by (intros; apply Hok; by right).
  destruct (entry_cases e (tpl_id t) (Hok _ ltac:(left)))
    as [[Hj ->]|(x & -> & ->)].
  - by rewrite Hj.
  - cbn [fst snd]. rewrite isJson_fileName.
    rewrite map_cons.
    destruct (hasId (tpl_id t) x); cbn [fst snd];
      by rewrite ?isJson_fileName.
Qed.

Lemma parsed_dirWrite dir t :
  (forall e, e ∈ dir -> fileOk e = true) ->
  parsed (dirWrite (fileName (tpl_id t)) t dir) = upsert t (parsed dir).
Proof.
  intros Hok. unfold dirWrite, upsert.
  rewrite (existsb_file dir (tpl_id t) Hok).
  destruct (existsb (hasId (tpl_id t)) (parsed dir)).
  - by apply parsed_replace.
  - rewrite parsed_app. f_equal. unfold parsed. simpl.
    fold (isJson (fileName (tpl_id t))). by rewrite isJson_fileName.
Qed.

Lemma wfDir_dirWrite dir t :
  wfDir dir = true -> wfDir (dirWrite (fileName (tpl_id t)) t dir) = true.
Proof.
  rewrite !wfDir_spec. intros [Hok Hnd]. unfold dirWrite.
  destruct (existsb _ dir) eqn:Hex.
  - split.
    + intros e (e0 & -> & Hin)%list_elem_of_fmap.
      destruct (String.eqb e0.1 (fileName (tpl_id t))); [|by apply Hok].
      unfold fileOk. cbn [fst snd]. rewrite isJson_fileName.
      apply String.eqb_refl.
    + assert ((map (fun e => if String.eqb e.1 (fileName (tpl_id t))
                             then (fileName (tpl_id t), Some t) else e) dir).*1
              = dir.*1) as ->; [|done].
      clear. induction dir as [|e dir IH]; [done|].
      rewrite map_cons, !fmap_cons. f_equal; [|done].
      by destruct (String.eqb_spec e.1 (fileName (tpl_id t))).
  - split.
    + intros e [Hin|Hin%list_elem_of_singleton]%elem_of_app; [by apply Hok|].
      subst. unfold fileOk. cbn [fst snd]. rewrite isJson_fileName.
      apply String.eqb_refl.
    + rewrite fmap_app. apply NoDup_app. split; [done|]. split.
      * intros f Hf Hf'%list_elem_of_singleton. simpl in Hf'. subst f.
        apply list_elem_of_fmap in Hf as (e & He & Hin).
        assert (existsb (fun e => String.eqb e.1 (fileName (tpl_id t))) dir
                = true) as Htrue; [|congruence].
        apply existsb_exists. exists e. split; [by apply list_elem_of_In|].
        rewrite <- He. apply String.eqb_refl.
      * apply NoDup_singleton.
Qed.

Lemma parsed_dirRemove dir id :
  (forall e, e ∈ dir -> fileOk e = true) ->
  parsed (dirRemove (fileName id) dir) = without id (parsed dir).
Proof.
  unfold dirRemove, without.
  induction dir as [|e dir IH]; intros Hok; [done|].
  rewrite parsed_cons. cbn [List.filter].
  specialize (IH (fun e' H => Hok e' (list_elem_of_further _ _ _ H))).
  destruct (entry_cases e id (Hok _ ltac:(left)))
    as [[Hj ->]|(x & -> & ->)].
  - cbn [negb]. by rewrite parsed_cons, Hj.
  - cbn [fst snd]. rewrite isJson_fileName. cbn [List.filter].
    destruct (hasId id x); cbn [negb]; [done|].
    rewrite parsed_cons. cbn [fst snd]. rewrite isJson_fileName.
    by f_equal.
Qed.

Lemma wfDir_dirRemove dir f :
  wfDir dir = true -> wfDir (dirRemove f dir) = true.
Proof.
  rewrite !wfDir_spec. intros [Hok Hnd]. unfold dirRemove. split.
  - intros e [Hin _]%list_elem_of_In%filter_In. apply Hok.
    by apply list_elem_of_In.
  - eapply sublist_NoDup; [exact Hnd|].
    apply fmap_sublist. clear.
    induction dir as [|e dir IH]; [done|]. cbn [List.filter].
    destruct (negb _); by constructor.
Qed.

(** ** The exported functions on a healthy store *)

Lemma stored_save w l t :
  Stored w l ->
  exists w',
    saveEmailTemplate t w = (Ok true, w') /\ Stored w' (upsert t l) /\
    configFile w' = configFile w /\ defaultServers w' = defaultServers w.
Proof.
  intros (dir & Hdir & Hwf & <- & Hwr).
  exists (setTemplatesDir w (Some (dirWrite (fileName (tpl_id t)) t dir))).
  split.
  - unfold saveEmailTemplate, tryCatch, bind, writeJsonTemplate.
    fold (fileName (tpl_id t)). by rewrite Hwr, Hdir.
  - split; [|done]. eexists. split; [done|].
    split; [by apply wfDir_dirWrite|]. split; [|done].
    apply parsed_dirWrite. by apply wfDir_spec in Hwf as [? _].
Qed.

Lemma stored_delete w l id :
  Stored w l ->
  exists w',
    deleteEmailTemplate id w = (Ok true, w') /\ Stored w' (without id l) /\
    configFile w' = configFile w /\ defaultServers w' = defaultServers w.
Proof.
  intros (dir & Hdir & Hwf & <- & Hwr).
  exists (setTemplatesDir w (Some (dirRemove (fileName id) dir))).
  split.
  - unfold deleteEmailTemplate, tryCatch, bind, removeTemplateFile.
    fold (fileName id). by rewrite Hwr, Hdir.
  - split; [|done]. eexists. split; [done|].
    split; [by apply wfDir_dirRemove|]. split; [|done].
    apply parsed_dirRemove. by apply wfDir_spec in Hwf as [? _].
Qed.

End TemplateStore.

(* ===================================================================== *)
(** * Properties of the template handlers on a healthy store              *)
(* ===================================================================== *)

Module TemplateFacts.
Import Js Config World Run Run.Notations Store RequestHandler.
Import TemplateStore.
Import TemplateModel.

Lemma hasId_true id t : hasId id t = true <-> tpl_id t = id.
Proof. apply String.eqb_eq. Qed.

Lemma hasId_false id t : hasId id t = false <-> tpl_id t <> id.
Proof. apply String.eqb_neq. Qed.

Lemma replace_absent t l :
  (forall x, x ∈ l -> tpl_id x <> tpl_id t) ->
  map (fun x => if hasId (tpl_id t) x then t else x) l = l.
Proof.
  induction l as [|x l IH]; intros H; [done|].
  rewrite map_cons, IH by (intros; apply H; by right).
  by rewrite (proj2 (hasId_false _ _) (H x ltac:(left))).
Qed.

(** Writing over one entry of a list without duplicate ids. *)
Lemma upsert_middle t' t l1 l2 :
  NoDup (tpl_id <$> (l1 ++ t :: l2)) -> tpl_id t' = tpl_id t ->
  upsert t' (l1 ++ t :: l2) = l1 ++ t' :: l2.
Proof.
  intros Hnd Hid. unfold upsert.
  rewrite fmap_app, fmap_cons in Hnd.
  apply NoDup_app in Hnd as (_ & Hl1 & [Hl2 _]%NoDup_cons).
  assert (existsb (hasId (tpl_id t')) (l1 ++ t :: l2) = true) as ->.
  { apply existsb_exists. exists t. split.
    - apply in_or_app. right. by left.
    - by apply hasId_true. }
  rewrite map_app, map_cons.
  rewrite (proj2 (hasId_true _ _) (eq_sym Hid)).
  rewrite !replace_absent; [done| |].
  - intros x Hx Heq. apply Hl2. rewrite <- Hid, <- Heq.
    by apply list_elem_of_fmap_2.
  - intros x Hx Heq. apply (Hl1 (tpl_id x)).
    + by apply list_elem_of_fmap_2.
    + rewrite Heq, Hid. left.
Qed.

Lemma upsert_cases t l :
  NoDup (tpl_id <$> l) ->
  (exists l1 x l2,
     l = l1 ++ x :: l2 /\ tpl_id x = tpl_id t /\
     upsert t l = l1 ++ t :: l2) \/
  ((forall x, x ∈ l -> tpl_id x <> tpl_id t) /\ upsert t l = l ++ [t]).
Proof.
  intros Hnd. destruct (existsb (hasId (tpl_id t)) l) eqn:Hex.
  - left. apply existsb_exists in Hex as (x & Hin & Hx%hasId_true).
    apply list_elem_of_In, list_elem_of_split in Hin as (l1 & l2 & ->).
    exists l1, x, l2. split; [done|]. split; [done|].
    by apply upsert_middle.
  - right. split.
    + intros x Hin Hid.
      assert (existsb (hasId (tpl_id t)) l = true); [|congruence].
      apply existsb_exists. exists x. split; [by apply list_elem_of_In|].
      by apply hasId_true.
    + unfold upsert. by rewrite Hex.
Qed.

Lemma upsert_ids t l :
  NoDup (tpl_id <$> l) -> NoDup (tpl_id <$> upsert t l).
Proof.
  intros Hnd.
  destruct (upsert_cases t l Hnd)
    as [(l1 & x & l2 & -> & Hid & ->)|[Habs ->]].
  - rewrite fmap_app, fmap_cons in *. by rewrite <- Hid.
  - rewrite fmap_app. apply NoDup_app. split; [done|]. split.
    + intros id (x & -> & Hx)%list_elem_of_fmap Hin.
      apply list_elem_of_singleton in Hin. simpl in Hin.
      by apply (Habs x).
    + apply NoDup_singleton.
Qed.

Lemma demote_id other t : tpl_id (demote other t) = tpl_id t.
Proof. unfold demote. by destruct (other t && tpl_isDefault t). Qed.

(** The saves of [demoteOthers], over what is left of the snapshot. *)
Lemma demoteLoop_stored other l2 : forall l1 w,
  Stored w (map (demote other) l1 ++ l2) ->
  exists w',
    forEach l2 (fun t =>
      if other t && tpl_isDefault t
      then saveEmailTemplate (setDefaultTpl false t) ;; ret tt
      else ret tt) w = (Ok tt, w') /\
    Stored w' (map (demote other) (l1 ++ l2)) /\
    configFile w' = configFile w /\ defaultServers w' = defaultServers w.
Proof.
  induction l2 as [|t l2 IH]; intros l1 w Hst.
  - exists w. rewrite app_nil_r in *. done.
  - cbn [forEach]. unfold bind at 1.
    assert (map (demote other) (l1 ++ [t]) ++ l2 =
            map (demote other) l1 ++ demote other t :: l2) as Hshape.
    { by rewrite map_app, <- app_assoc. }
    destruct (other t && tpl_isDefault t) eqn:Hsel.
    + destruct (stored_save w _ (setDefaultTpl false t) Hst)
        as (w1 & Hsave & Hst1 & Hc1 & Hd1).
      unfold bind at 1. rewrite Hsave. unfold ret at 1.
      rewrite upsert_middle in Hst1; [|by eapply stored_NoDup|done].
      destruct (IH (l1 ++ [t]) w1) as (w' & Hrun & Hst' & Hc & Hd).
      { rewrite Hshape. unfold demote. by rewrite Hsel. }
      exists w'. rewrite Hrun.
      rewrite <- app_assoc in Hst'. split; [done|]. split; [done|].
      split; congruence.
    + unfold ret at 1.
      destruct (IH (l1 ++ [t]) w) as (w' & Hrun & Hst' & Hc & Hd).
      { rewrite Hshape. unfold demote. by rewrite Hsel. }
      exists w'. rewrite Hrun.
      rewrite <- app_assoc in Hst'. done.
Qed.

Lemma demoteOthers_stored other l w :
  Stored w l ->
  exists w',
    demoteOthers ParsedTemplates other l w = (Ok tt, w') /\
    Stored w' (map (demote other) l) /\
    configFile w' = configFile w /\ defaultServers w' = defaultServers w.
Proof.
  intros Hst. unfold demoteOthers, bind. simpl.
  apply (demoteLoop_stored other l [] w Hst).
Qed.

(** ** The list each handler leaves behind *)

Lemma handleAddEmailTemplate_stored uuid p w l :
  Stored w l ->
  exists w',
    handleAddEmailTemplate uuid p w =
      (Ok (TemplateOk (newTemplate uuid p)), w') /\
    Stored w' (addedTemplates (newTemplate uuid p) l) /\
    configFile w' = configFile w /\ defaultServers w' = defaultServers w.
Proof.
  intros Hst. unfold handleAddEmailTemplate, tryCatch. unfold bind at 1.
  rewrite (stored_get w l Hst). fold (newTemplate uuid p).
  unfold addedTemplates. unfold bind at 1.
  destruct (tpl_isDefault (newTemplate uuid p)).
  - destruct (demoteOthers_stored (fun _ => true) l w Hst)
      as (w1 & -> & Hst1 & Hc1 & Hd1).
    destruct (stored_save w1 _ (newTemplate uuid p) Hst1)
      as (w2 & Hsave & Hst2 & Hc2 & Hd2).
    exists w2. unfold bind. rewrite Hsave. unfold ret.
    split; [done|]. split; [done|]. split; congruence.
  - unfold ret at 1.
    destruct (stored_save w _ (newTemplate uuid p) Hst)
      as (w2 & Hsave & Hst2 & Hc2 & Hd2).
    exists w2. unfold bind. rewrite Hsave. done.
Qed.

Lemma handleUpdateEmailTemplate_stored p w l :
  Stored w l ->
  exists w',
    handleUpdateEmailTemplate p w =
      (Ok match List.find (hasId (ut_id p)) l with
          | Some t => TemplateOk (updatedTemplate p t)
          | None => Status false (templateNotFound (ut_id p))
          end, w') /\
    Stored w' match List.find (hasId (ut_id p)) l with
              | Some t => updatedTemplates p t l
              | None => l
              end /\
    configFile w' = configFile w /\ defaultServers w' = defaultServers w.
Proof.
  intros Hst. unfold handleUpdateEmailTemplate, tryCatch. unfold bind at 1.
  rewrite (stored_get w l Hst).
  destruct (List.find (hasId (ut_id p)) l) as [t|]; [|by exists w].
  unfold updatedTemplates, updatedTemplate, flagChange.
  unfold bind at 1.
  destruct (ut_isDefault p) as [b|].
  - destruct (negb (Bool.eqb b (tpl_isDefault t))).
    + unfold bind at 1. destruct b.
      * destruct (demoteOthers_stored
                    (fun x => negb (hasId (ut_id p) x)) l w Hst)
          as (w1 & -> & Hst1 & Hc1 & Hd1).
        unfold ret at 1.
        destruct (stored_save w1 _
                    (setDefaultTpl true (updateTemplateFields p t)) Hst1)
          as (w2 & Hsave & Hst2 & Hc2 & Hd2).
        exists w2. unfold bind. rewrite Hsave. unfold ret.
        split; [done|]. split; [done|]. split; congruence.
      * unfold ret at 1. unfold ret at 1.
        destruct (stored_save w _
                    (setDefaultTpl false (updateTemplateFields p t)) Hst)
          as (w2 & Hsave & Hst2 & Hc2 & Hd2).
        exists w2. unfold bind. rewrite Hsave. done.
    + unfold ret at 1.
      destruct (stored_save w _ (updateTemplateFields p t) Hst)
        as (w2 & Hsave & Hst2 & Hc2 & Hd2).
      exists w2. unfold bind. rewrite Hsave. done.
  - unfold ret at 1.
    destruct (stored_save w _ (updateTemplateFields p t) Hst)
      as (w2 & Hsave & Hst2 & Hc2 & Hd2).
    exists w2. unfold bind. rewrite Hsave. done.
Qed.

Lemma handleDeleteEmailTemplate_stored id w l :
  Stored w l ->
  exists w',
    handleDeleteEmailTemplate id w =
      (Ok match List.find (hasId id) l with
          | Some t => Status true "Email template deleted successfully"
          | None => Status false (templateNotFound id)
          end, w') /\
    Stored w' match List.find (hasId id) l with
              | Some t => deletedTemplates id t l
              | None => l
              end /\
    configFile w' = configFile w /\ defaultServers w' = defaultServers w.
Proof.
  intros Hst. unfold handleDeleteEmailTemplate, tryCatch. unfold bind at 1.
  rewrite (stored_get w l Hst).
  destruct (List.find (hasId id) l) as [t|]; [|by exists w].
  unfold deletedTemplates. unfold bind at 1.
  destruct (tpl_isDefault t && (1 <? length l)).
  - destruct (List.find (fun x => negb (hasId id x)) l) as [another|].
    + unfold bind at 1. simpl. unfold bind at 1.
      destruct (stored_save w _ (setDefaultTpl true another) Hst)
        as (w1 & Hsave & Hst1 & Hc1 & Hd1).
      rewrite Hsave. unfold ret at 1.
      destruct (stored_delete w1 _ id Hst1)
        as (w2 & Hdel & Hst2 & Hc2 & Hd2).
      exists w2. unfold bind. rewrite Hdel. unfold ret.
      split; [done|]. split; [done|]. split; congruence.
    + unfold ret at 1.
      destruct (stored_delete w _ id Hst)
        as (w2 & Hdel & Hst2 & Hc2 & Hd2).
      exists w2. unfold bind. rewrite Hdel. done.
  - unfold ret at 1.
    destruct (stored_delete w _ id Hst)
      as (w2 & Hdel & Hst2 & Hc2 & Hd2).
    exists w2. unfold bind. rewrite Hdel. done.
Qed.

(** ** Deleting the default template *)

Lemma find_split {A} (f : A -> bool) l x :
  List.find f l = Some x ->
  exists l1 l2,
    l = l1 ++ x :: l2 /\ f x = true /\ forall y, y ∈ l1 -> f y = false.
Proof.
  induction l as [|a l IH]; [done|]. simpl.
  destruct (f a) eqn:Ha.
  - intros [= ->]. exists [], l. split; [done|]. split; [done|].
    by intros y ?%elem_of_nil.
  - intros (l1 & l2 & -> & Hx & Hl1)%IH.
    exists (a :: l1), l2. split; [done|]. split; [done|].
    by intros y [->|?]%elem_of_cons; [|apply Hl1].
Qed.

Lemma without_all id l :
  (forall y, y ∈ l -> negb (hasId id y) = false) -> without id l = [].
Proof.
  induction l as [|a l IH]; intros H; [done|]. unfold without in *.
  simpl. rewrite (H a ltac:(left)). apply IH. intros. apply H. by right.
Qed.

Lemma find_other id l :
  NoDup (tpl_id <$> l) -> 1 < length l ->
  exists another, List.find (fun x => negb (hasId id x)) l = Some another.
Proof.
  intros Hnd Hlen.
  destruct (List.find (fun x => negb (hasId id x)) l) as [a|] eqn:Hfind;
    [by exists a|].
  exfalso. destruct l as [|x [|y l]]; simpl in Hlen; try lia.
  pose proof (find_none _ _ Hfind x ltac:(by left)) as Hx.
  pose proof (find_none _ _ Hfind y ltac:(right; by left)) as Hy.
  apply negb_false_iff, hasId_true in Hx, Hy.
  rewrite !fmap_cons in Hnd. apply NoDup_cons in Hnd as [Hnotin _].
  apply Hnotin. rewrite Hx, <- Hy. left.
Qed.

(** With at least one other template, deleting a default template
    leaves the remaining ones in order, the first of them promoted. *)
Lemma deletedTemplates_promotes id t l :
  NoDup (tpl_id <$> l) -> tpl_isDefault t = true -> 1 < length l ->
  exists first others,
    without id l = first :: others /\
    deletedTemplates id t l = setDefaultTpl true first :: others.
Proof.
  intros Hnd Hdef Hlen. unfold deletedTemplates. rewrite Hdef.
  rewrite (proj2 (Nat.ltb_lt 1 (length l)) Hlen). simpl.
  destruct (find_other id l Hnd Hlen) as (a & Hfind). rewrite Hfind.
  destruct (find_split _ _ _ Hfind) as (l1 & l2 & -> & Ha & Hl1).
  rewrite (upsert_middle (setDefaultTpl true a) a l1 l2 Hnd eq_refl).
  exists a, (without id l2). unfold without in *.
  rewrite !List.filter_app. fold (without id l1).
  rewrite (without_all id l1 Hl1). simpl.
  unfold hasId in *. simpl. by rewrite Ha.
Qed.


(** ** The list after a call *)

Lemma templateCall_stored c w l :
  Stored w l -> Stored (after (templateCall c) w) (nextTemplates c l).
Proof.
  intros Hst. unfold after. destruct c as [uuid p|p|id]; simpl.
  - by destruct (handleAddEmailTemplate_stored uuid p w l Hst)
      as (w' & -> & Hst' & _).
  - by destruct (handleUpdateEmailTemplate_stored p w l Hst)
      as (w' & -> & Hst' & _).
  - by destruct (handleDeleteEmailTemplate_stored id w l Hst)
      as (w' & -> & Hst' & _).
Qed.

(** ** Counting default flags *)

Lemma defaultTemplates_app l1 l2 :
  defaultTemplates (l1 ++ l2) = defaultTemplates l1 + defaultTemplates l2.
Proof.
  unfold defaultTemplates. by rewrite List.filter_app, length_app.
Qed.

Lemma defaultTemplates_cons t l :
  defaultTemplates (t :: l) = flag t + defaultTemplates l.
Proof. unfold defaultTemplates. simpl. by destruct (tpl_isDefault t). Qed.

Lemma defaultTemplates_nil : defaultTemplates [] = 0.
Proof. reflexivity. Qed.

Lemma defaultTemplates_demoted other l :
  (forall x, x ∈ l -> other x = true) ->
  defaultTemplates (map (demote other) l) = 0.
Proof.
  induction l as [|x l IH]; intros H; [done|].
  rewrite map_cons, defaultTemplates_cons, IH
    by (intros; apply H; by right).
  unfold demote. rewrite (H x ltac:(left)). simpl.
  by destruct (tpl_isDefault x) eqn:E; simpl; rewrite ?E.
Qed.

Lemma demoted_ids other l :
  tpl_id <$> map (demote other) l = tpl_id <$> l.
Proof.
  induction l as [|x l IH]; [done|].
  by rewrite map_cons, !fmap_cons, demote_id, IH.
Qed.

Lemma upsert_count t l :
  NoDup (tpl_id <$> l) ->
  (exists l1 x l2,
     l = l1 ++ x :: l2 /\ tpl_id x = tpl_id t /\
     defaultTemplates (upsert t l) =
     defaultTemplates l1 + flag t + defaultTemplates l2) \/
  ((forall x, x ∈ l -> tpl_id x <> tpl_id t) /\
   defaultTemplates (upsert t l) = defaultTemplates l + flag t).
Proof.
  intros Hnd.
  destruct (upsert_cases t l Hnd)
    as [(l1 & x & l2 & -> & Hid & ->)|[Habs ->]].
  - left. exists l1, x, l2. split; [done|]. split; [done|].
    rewrite defaultTemplates_app, defaultTemplates_cons. lia.
  - right. split; [done|].
    rewrite defaultTemplates_app, defaultTemplates_cons,
      defaultTemplates_nil. lia.
Qed.

Lemma upsert_count_le t l :
  NoDup (tpl_id <$> l) ->
  defaultTemplates (upsert t l) <= defaultTemplates l + flag t.
Proof.
  intros Hnd.
  destruct (upsert_count t l Hnd)
    as [(l1 & x & l2 & -> & _ & ->)|[_ ->]]; [|done].
  rewrite defaultTemplates_app, defaultTemplates_cons. lia.
Qed.

(** Where the template found by id sits in a list without duplicate
    ids: nothing else carries its id. *)
Lemma found_split id l t :
  NoDup (tpl_id <$> l) -> List.find (hasId id) l = Some t ->
  exists l1 l2,
    l = l1 ++ t :: l2 /\ tpl_id t = id /\
    (forall x, x ∈ l1 -> tpl_id x <> id) /\
    (forall x, x ∈ l2 -> tpl_id x <> id).
Proof.
  intros Hnd (l1 & l2 & -> & Hid%hasId_true & Hl1)%find_split.
  exists l1, l2. split; [done|]. split; [done|].
  rewrite fmap_app, fmap_cons in Hnd.
  apply NoDup_app in Hnd as (_ & _ & [Hl2 _]%NoDup_cons).
  split.
  - intros x Hx. by apply hasId_false, Hl1.
  - intros x Hx Heq. apply Hl2. rewrite Hid, <- Heq.
    by apply list_elem_of_fmap_2.
Qed.

Lemma without_absent id l :
  (forall x, x ∈ l -> tpl_id x <> id) -> without id l = l.
Proof.
  induction l as [|x l IH]; intros H; [done|]. unfold without in *.
  simpl. rewrite (proj2 (hasId_false id x) (H x ltac:(left))). simpl.
  f_equal. apply IH. intros. apply H. by right.
Qed.

Lemma without_found id l1 t l2 :
  tpl_id t = id ->
  (forall x, x ∈ l1 -> tpl_id x <> id) ->
  (forall x, x ∈ l2 -> tpl_id x <> id) ->
  without id (l1 ++ t :: l2) = l1 ++ l2.
Proof.
  intros Hid H1 H2. unfold without. rewrite List.filter_app. simpl.
  rewrite (proj2 (hasId_true id t) Hid). simpl.
  fold (without id l1). fold (without id l2).
  by rewrite !without_absent.
Qed.

Lemma without_count_le id l :
  defaultTemplates (without id l) <= defaultTemplates l.
Proof.
  induction l as [|x l IH]; [done|]. unfold without in *. simpl.
  destruct (negb (hasId id x)); rewrite !defaultTemplates_cons; lia.
Qed.

Lemma updatedTemplate_id p t : tpl_id (updatedTemplate p t) = tpl_id t.
Proof. unfold updatedTemplate. by destruct (flagChange p t). Qed.

Lemma updatedTemplate_flag p t :
  tpl_isDefault (updatedTemplate p t) =
  match flagChange p t with
  | Some b => b
  | None => tpl_isDefault t
  end.
Proof. unfold updatedTemplate. by destruct (flagChange p t). Qed.

(** The list written by an update, around the template updated. *)
Lemma updatedTemplates_split p l1 t l2 :
  NoDup (tpl_id <$> (l1 ++ t :: l2)) -> tpl_id t = ut_id p ->
  (forall x, x ∈ l1 -> tpl_id x <> ut_id p) ->
  (forall x, x ∈ l2 -> tpl_id x <> ut_id p) ->
  defaultTemplates (updatedTemplates p t (l1 ++ t :: l2)) =
  match flagChange p t with
  | Some true => 1
  | Some false => defaultTemplates l1 + defaultTemplates l2
  | None => defaultTemplates (l1 ++ t :: l2)
  end.
Proof.
  intros Hnd Hid H1 H2. unfold updatedTemplates.
  pose proof (updatedTemplate_id p t) as Hu.
  pose proof (updatedTemplate_flag p t) as Hf.
  destruct (flagChange p t) as [[]|].
  - rewrite map_app, map_cons.
    assert (demote (fun x => negb (hasId (ut_id p) x)) t = t) as ->.
    { unfold demote. by rewrite (proj2 (hasId_true _ _) Hid). }
    rewrite upsert_middle;
      [|by rewrite fmap_app, fmap_cons, !demoted_ids,
                   <- fmap_cons, <- fmap_app|done].
    rewrite defaultTemplates_app, defaultTemplates_cons, Hf.
    rewrite !defaultTemplates_demoted; [done| |].
    + intros x Hx. by apply negb_true_iff, hasId_false, H2.
    + intros x Hx. by apply negb_true_iff, hasId_false, H1.
  - rewrite upsert_middle by done.
    rewrite defaultTemplates_app, defaultTemplates_cons, Hf. lia.
  - rewrite upsert_middle by done.
    rewrite !defaultTemplates_app, !defaultTemplates_cons, Hf. lia.
Qed.

Lemma nextTemplates_at_most_one c l :
  NoDup (tpl_id <$> l) ->
  defaultTemplates l <= 1 -> defaultTemplates (nextTemplates c l) <= 1.
Proof.
  intros Hnd Hle. destruct c as [uuid p|p|id]; simpl.
  - unfold addedTemplates.
    destruct (tpl_isDefault (newTemplate uuid p)) eqn:Hd.
    + etrans; [apply upsert_count_le; by rewrite demoted_ids|].
      rewrite defaultTemplates_demoted by done. by rewrite Hd.
    + etrans; [by apply upsert_count_le|]. rewrite Hd. lia.
  - destruct (List.find (hasId (ut_id p)) l) as [t|] eqn:Hfind; [|done].
    destruct (found_split _ _ _ Hnd Hfind) as (l1 & l2 & -> & Hid & H1 & H2).
    rewrite (updatedTemplates_split p l1 t l2 Hnd Hid H1 H2).
    rewrite defaultTemplates_app, defaultTemplates_cons in Hle.
    destruct (flagChange p t) as [[]|]; [lia|lia|].
    rewrite defaultTemplates_app, defaultTemplates_cons. lia.
  - destruct (List.find (hasId id) l) as [t|] eqn:Hfind; [|done].
    destruct (found_split _ _ _ Hnd Hfind) as (l1 & l2 & Hl & Hid & H1 & H2).
    destruct (tpl_isDefault t && (1 <? length l)) eqn:Hcond.
    + apply andb_true_iff in Hcond as [Hd Hlen%Nat.ltb_lt].
      destruct (deletedTemplates_promotes id t l Hnd Hd Hlen)
        as (first & others & Hrest & ->).
      subst l. rewrite (without_found id l1 t l2 Hid H1 H2) in Hrest.
      rewrite defaultTemplates_app, defaultTemplates_cons, Hd in Hle.
      pose proof (defaultTemplates_app l1 l2) as Hsum.
      rewrite Hrest, defaultTemplates_cons in Hsum.
      rewrite defaultTemplates_cons. simpl. lia.
    + unfold deletedTemplates. rewrite Hcond.
      etrans; [apply without_count_le|done].
Qed.

(** ** Runs *)

Lemma templateCalls_stored calls : forall w l,
  Stored w l ->
  exists l', Stored (afterTemplateCalls calls w) l'.
Proof.
  induction calls as [|c calls IH]; intros w l Hst; [by exists l|].
  simpl. eapply IH. by apply templateCall_stored.
Qed.

Lemma templateCalls_at_most_one calls : forall w l,
  Stored w l -> defaultTemplates l <= 1 ->
  defaultTemplates (templatesOf (afterTemplateCalls calls w)) <= 1.
Proof.
  induction calls as [|c calls IH]; intros w l Hst Hle.
  - simpl. by rewrite (stored_templatesOf w l Hst).
  - simpl. apply (IH _ _ (templateCall_stored c w l Hst)).
    apply nextTemplates_at_most_one; [by eapply stored_NoDup|done].
Qed.

End TemplateFacts.

(* ===================================================================== *)
(** * Claims about deletion                                               *)
(* ===================================================================== *)

Module DeleteClaims.
Import Js Config World Run Store RequestHandler.
Import StoreFacts SmtpFacts TemplateStore TemplateFacts.
Import SmtpModel TemplateModel Examples.

(** C7.  [delete-smtp-config] called on the only SMTP configuration (of
    a world [ws]) answers with a failure and leaves the world as it was;
    [delete-email-template] called on the only template (of a world [wt]
    with a healthy template store) succeeds, and no template is left. *)
Theorem delete_sole_entry (ws wt : World.t) (c : SmtpServerConfig)
    (t : EmailTemplate) :
  configsOf ws = [c] ->
  healthy wt -> templatesOf wt = [t] ->
  handleDeleteSmtpConfig (smtp_id c) ws =
    (Ok (Status false "Cannot delete the only SMTP configuration"), ws) /\
  exists w',
    handleDeleteEmailTemplate (tpl_id t) wt =
      (Ok (Status true "Email template deleted successfully"), w') /\
    templatesOf w' = [] /\ healthy w'.
Proof.
  intros Hc Hh Ht. split.
  - rewrite handleDeleteSmtpConfig_eq, Hc. unfold findIndex. simpl.
    by rewrite decide_True.
  - destruct (healthy_stored wt Hh) as (l & Hst).
    rewrite (stored_templatesOf wt l Hst) in Ht. subst l.
    destruct (handleDeleteEmailTemplate_stored (tpl_id t) wt [t] Hst)
      as (w' & Hrun & Hst' & _).
    simpl in Hrun, Hst'. unfold hasId in Hrun, Hst'.
    rewrite String.eqb_refl in Hrun, Hst'.
    exists w'. split; [done|].
    unfold deletedTemplates, without in Hst'. simpl in Hst'.
    rewrite andb_false_r in Hst'. simpl in Hst'.
    unfold hasId in Hst'. rewrite String.eqb_refl in Hst'. simpl in Hst'.
    split; [by apply stored_templatesOf|].
    destruct Hst' as (dir & ? & ? & _ & ?). by exists dir.
Qed.

Lemma delete_sole_entry_witness :
  handleDeleteSmtpConfig "aws-ses" soleWorld =
    (Ok (Status false "Cannot delete the only SMTP configuration"),
     soleWorld) /\
  exists w',
    handleDeleteEmailTemplate "default" soleWorld =
      (Ok (Status true "Email template deleted successfully"), w') /\
    templatesOf w' = [] /\ healthy w'.
Proof.
  apply (delete_sole_entry soleWorld soleWorld AWS_SES DEFAULT_TEMPLATE).
  - reflexivity.
  - exists [("default.json", Some DEFAULT_TEMPLATE)].
    split; [reflexivity|]. split; [vm_compute; reflexivity|].
    intros file. reflexivity.
  - reflexivity.
Defined.



End DeleteClaims.

(* ===================================================================== *)
(** * Properties of the send pipeline                                     *)
(* ===================================================================== *)

Module SendFacts.
Import Js Config Mail World Run Run.Notations Store EmailService.
Import StoreFacts.
Import SendModel.

(** ** Reading the store does not change the world *)

Lemma getDefaultSmtpConfig_eq w :
  exists c, getDefaultSmtpConfig w = (Ok c, w).
Proof.
  unfold getDefaultSmtpConfig, bind. rewrite getSmtpConfigs_eq.
  by eexists.
Qed.

Lemma readTemplates_reads files : forall acc w,
  (exists l, readTemplates files acc w = (Ok l, w)) \/
  (exists e, readTemplates files acc w = (Throw e, w)).
Proof.
  induction files as [|file files IH]; intros acc w; [left; by eexists|].
  cbn [readTemplates]. destruct (endsWith file ".json"); [|apply IH].
  unfold bind, readJsonTemplate.
  destruct (templatesDir w) as [dir|]; [|right; by eexists].
  destruct (dirLookup file dir); [apply IH | right; by eexists].
Qed.

Lemma getEmailTemplatesRef_reads w :
  exists r, getEmailTemplatesRef w = (Ok r, w).
Proof.
  unfold getEmailTemplatesRef, tryCatch, bind, readdirTemplates.
  destruct (templatesDir w) as [dir|].
  - destruct (readTemplates_reads dir.*1 [] w) as [[l ->]|[e ->]].
    + by eexists.
    + unfold get, ret. destruct (builtinTemplates w) as [[d ie] esade].
      by eexists.
  - unfold get, ret. destruct (builtinTemplates w) as [[d ie] esade].
    by eexists.
Qed.

Lemma getEmailTemplates_reads w :
  exists l, getEmailTemplates w = (Ok l, w).
Proof.
  unfold getEmailTemplates, bind.
  destruct (getEmailTemplatesRef_reads w) as [r ->]. by eexists.
Qed.

Lemma getDefaultEmailTemplate_reads w :
  exists t, getDefaultEmailTemplate w = (Ok t, w).
Proof.
  unfold getDefaultEmailTemplate, bind.
  destruct (getEmailTemplates_reads w) as [l ->]. by eexists.
Qed.

(** ** Logging *)

Lemma logEmailActivity_eq entry w :
  exists ok, logEmailActivity entry w = (Ok ok, logged entry w).
Proof.
  unfold logEmailActivity, logged, tryCatch, bind, pathExistsLog,
    readJsonLog, writeJsonLog, ret.
  destruct (logFile w) eqn:E; simpl; rewrite ?E;
    destruct (writeFails w LOG_FILE); by eexists.
Qed.

Lemma sameButLog_refl w : sameButLog w w.
Proof. by repeat split. Qed.

Lemma sameButLog_trans w1 w2 w3 :
  sameButLog w1 w2 -> sameButLog w2 w3 -> sameButLog w1 w3.
Proof.
  unfold sameButLog. intros (?&?&?&?&?&?&?) (?&?&?&?&?&?&?).
  repeat split; congruence.
Qed.

Lemma logged_same entry w : sameButLog w (logged entry w).
Proof.
  unfold logged. destruct (logFile w);
    destruct (writeFails w LOG_FILE); by repeat split.
Qed.

Lemma logged_works entry w l :
  logWorks w l -> logWorks (logged entry w) (l ++ [entry]).
Proof. unfold logWorks, logged. intros [H1 H2]. by rewrite H1, H2. Qed.

(** ** sendEmail, path by path *)

Lemma createTransport_eq smtpConfigId w :
  createTransport smtpConfigId w =
  (match chosenConfig smtpConfigId w with
   | Some c => Ok (transportFor c)
   | None => Throw (resolveError smtpConfigId)
   end, w).
Proof.
  unfold createTransport, chosenConfig, resolveError, bind.
  rewrite SmtpFacts.configsOf_eq.
  destruct (truthyOpt smtpConfigId).
  - rewrite getSmtpConfigs_eq. by destruct (findConfig _ _).
  - unfold getDefaultSmtpConfig, bind. rewrite getSmtpConfigs_eq.
    unfold get, ret.
    by destruct (orOpt _ _).
Qed.

Lemma lookupAgain_eq smtpConfigId w :
  (if truthyOpt smtpConfigId
   then let* configs := getSmtpConfigs in
        ret (findConfig (default "" smtpConfigId) configs)
   else getDefaultSmtpConfig) w = (Ok (chosenConfig smtpConfigId w), w).
Proof.
  unfold chosenConfig. rewrite SmtpFacts.configsOf_eq.
  destruct (truthyOpt smtpConfigId).
  - unfold bind. by rewrite getSmtpConfigs_eq.
  - unfold getDefaultSmtpConfig, bind. by rewrite getSmtpConfigs_eq.
Qed.

Section Collaborators.
Variable inherited : string -> Val.
Variable deliver : list Event -> Transport -> MailOptions -> Thrown + string.
Variable isoString : Z -> string.

Lemma generateEmailContent_reads tid td subj bod w :
  exists c, generateEmailContent inherited tid td subj bod w = (Ok c, w).
Proof.
  unfold generateEmailContent.
  destruct (negb (truthyOpt tid)); [by eexists|].
  unfold bind at 1. destruct (getEmailTemplates_reads w) as [l ->].
  unfold bind.
  destruct (String.eqb (default "" tid) "default").
  - destruct (getDefaultEmailTemplate_reads w) as [t ->]. by eexists.
  - unfold ret at 1. destruct (findTemplate _ l); by eexists.
Qed.

Lemma generateEmailContent_final data w :
  generateEmailContent inherited (templateId data) (templateData data)
    (subject data) (body data) w = (Ok (finalContent inherited data w), w).
Proof.
  unfold finalContent.
  by destruct (generateEmailContent_reads (templateId data)
                 (templateData data) (subject data) (body data) w)
    as [c ->].
Qed.

Lemma forEach_logEntry entry rs : forall w,
  forEach rs (logEntry isoString entry) w = (Ok tt, logAll isoString entry rs w).
Proof.
  induction rs as [|r rs IH]; intros w; [done|].
  cbn [forEach]. unfold bind at 1, logEntry at 1, bind, nowISO.
  destruct (logEmailActivity_eq (entry (isoString (clock w)) r) w)
    as [ok ->].
  unfold ret. by rewrite IH.
Qed.

Lemma logAll_same entry rs : forall w, sameButLog w (logAll isoString entry rs w).
Proof.
  induction rs as [|r rs IH]; intros w; [apply sameButLog_refl|].
  eapply sameButLog_trans; [apply logged_same|apply IH].
Qed.

Lemma logAll_works entry rs : forall w l,
  logWorks w l ->
  logWorks (logAll isoString entry rs w)
    (l ++ map (entry (isoString (clock w))) rs).
Proof.
  induction rs as [|r rs IH]; intros w l Hl.
  - simpl. by rewrite app_nil_r.
  - simpl. rewrite (cons_middle _ l), app_assoc.
    destruct (logged_same (entry (isoString (clock w)) r) w)
      as (_&_&_&_&_&Hclock&_).
    pose proof (IH _ _ (logged_works (entry (isoString (clock w)) r)
                          _ _ Hl)) as H.
    by rewrite Hclock in H.
Qed.

Lemma sendEmail_eq data smtpConfigId w :
  sendEmail inherited deliver isoString data smtpConfigId w =
  match chosenConfig smtpConfigId w with
  | None =>
      (Ok (failure (resolveError smtpConfigId)),
       logAll isoString (failedEntry data smtpConfigId (resolveError smtpConfigId))
         (toArray (to data)) w)
  | Some c =>
      match deliver (trace w) (transportFor c)
              (mailOptionsFor data c (finalContent inherited data w).1
                 (finalContent inherited data w).2) with
      | inl e =>
          (Ok (failure e),
           logAll isoString (failedEntry data smtpConfigId e) (toArray (to data))
             (delivering inherited data c w))
      | inr messageId =>
          (Ok (sent messageId),
           logAll isoString (sentEntry data c (finalContent inherited data w).1 messageId)
             (toArray (to data)) (delivering inherited data c w))
      end
  end.
Proof.
  unfold sendEmail, tryCatch. unfold bind at 1.
  rewrite createTransport_eq.
  destruct (chosenConfig smtpConfigId w) as [c|] eqn:Hc.
  - unfold bind at 1. rewrite lookupAgain_eq, Hc.
    unfold bind at 1. rewrite generateEmailContent_final.
    destruct (finalContent inherited data w) as [subj bod] eqn:Hfc.
    unfold bind at 1, sendMail, delivering. rewrite Hfc. simpl.
    destruct (deliver (trace w) (transportFor c)
                (mailOptionsFor data c subj bod)) as [e|messageId].
    + unfold bind. by rewrite forEach_logEntry.
    + unfold bind. by rewrite forEach_logEntry.
  - unfold bind. by rewrite forEach_logEntry.
Qed.

End Collaborators.

End SendFacts.

(* ===================================================================== *)
(** * Properties of batching                                              *)
(* ===================================================================== *)

Module ChunkFacts.
Import Spec.

Section Chunks.
Context {A : Type}.
Variable size : nat.
Hypothesis size_pos : 1 <= size.

Lemma chunksFuel_enough n : forall m (l : list A),
  length l <= n -> length l <= m ->
  chunksFuel n size l = chunksFuel m size l.
Proof.
  induction n as [|n IH]; intros m l Hn Hm.
  - destruct l; [|simpl in Hn; lia]. by destruct m.
  - destruct l as [|x l]; [by destruct m|]. simpl in Hn, Hm.
    destruct m as [|m]; [lia|].
    cbn [chunksFuel]. f_equal.
    apply IH; rewrite length_drop; simpl; lia.
Qed.

Lemma chunks_nil : chunks size (@nil A) = [].
Proof. reflexivity. Qed.

Lemma chunks_cons (l : list A) :
  l <> [] -> chunks size l = take size l :: chunks size (drop size l).
Proof.
  intros Hne. destruct l as [|x l]; [done|].
  unfold chunks. cbn [chunksFuel length]. f_equal.
  apply chunksFuel_enough; rewrite ?length_drop; simpl; lia.
Qed.

Lemma chunks_eq_nil (l : list A) : chunks size l = [] <-> l = [].
Proof.
  split; [|by intros ->].
  destruct l as [|x l]; [done|]. by rewrite chunks_cons.
Qed.

(** Induction on the length of a list. *)
Lemma length_ind (P : list A -> Prop) :
  (forall l, (forall l', length l' < length l -> P l') -> P l) ->
  forall l, P l.
Proof.
  intros step l. remember (length l) as n eqn:Hn.
  revert l Hn. induction n as [n IH] using lt_wf_ind.
  intros l ->. apply step. intros l' Hlt. by apply (IH _ Hlt).
Qed.

Lemma concat_chunks (l : list A) : concat (chunks size l) = l.
Proof.
  induction l as [l IH] using length_ind.
  destruct l as [|x l]; [done|].
  rewrite chunks_cons by done. cbn [concat].
  rewrite IH by (rewrite length_drop; simpl; lia).
  apply take_drop.
Qed.

Lemma lengths_chunks (l : list A) :
  length <$> chunks size l =
  replicate (length l / size) size ++
  (if length l mod size =? 0 then [] else [length l mod size]).
Proof.
  induction l as [l IH] using length_ind.
  destruct l as [|x l].
  - rewrite chunks_nil. simpl.
    rewrite Nat.Div0.div_0_l, Nat.Div0.mod_0_l. done.
  - rewrite chunks_cons by done. rewrite fmap_cons.
    rewrite IH by (rewrite length_drop; simpl; lia).
    rewrite length_drop, length_take.
    set (n := length (x :: l)).
    assert (1 <= n) as Hn by (subst n; simpl; lia).
    destruct (le_lt_dec size n) as [Hge|Hlt].
    + replace (size `min` n) with size by lia.
      assert (n / size = S ((n - size) / size)) as ->.
      { replace n with ((n - size) + 1 * size) at 1 by lia.
        rewrite Nat.div_add by lia. lia. }
      assert (n mod size = (n - size) mod size) as ->.
      { replace n with ((n - size) + 1 * size) at 1 by lia.
        by rewrite Nat.Div0.mod_add. }
      done.
    + replace (size `min` n) with n by lia.
      replace (n - size) with 0 by lia.
      rewrite Nat.Div0.div_0_l, Nat.Div0.mod_0_l.
      rewrite Nat.div_small, Nat.mod_small by done. simpl.
      destruct (Nat.eqb_spec n 0); [lia|done].
Qed.

Lemma ceilDiv_eq n :
  ceilDiv n size = n / size + (if n mod size =? 0 then 0 else 1).
Proof.
  unfold ceilDiv.
  pose proof (Nat.div_mod_eq n size) as Hdm.
  pose proof (Nat.mod_upper_bound n size ltac:(lia)) as Hlt.
  destruct (Nat.eqb_spec (n mod size) 0) as [Hz|Hnz].
  - symmetry. rewrite Nat.add_0_r.
    apply (Nat.div_unique _ _ _ (size - 1)); lia.
  - symmetry.
    apply (Nat.div_unique _ _ _ (n mod size - 1)); lia.
Qed.

Lemma length_chunks (l : list A) :
  length (chunks size l) = ceilDiv (length l) size.
Proof.
  rewrite ceilDiv_eq. rewrite <- (length_fmap length).
  rewrite lengths_chunks, length_app, length_replicate.
  by destruct (length l mod size =? 0).
Qed.

End Chunks.

End ChunkFacts.

(* ===================================================================== *)
(** * Properties of the bulk pipeline                                     *)
(* ===================================================================== *)

Module BulkFacts.
Import Js Config Mail World Run Run.Notations Store EmailService Spec.
Import SendFacts ChunkFacts.
Import SendModel.

Lemma timeouts_app tr1 tr2 :
  timeouts (tr1 ++ tr2) = timeouts tr1 ++ timeouts tr2.
Proof. apply omap_app. Qed.

Lemma tallied_nil acc : tallied acc [] = acc.
Proof.
  destruct acc as [s f]. unfold tallied, successes, failuresOf. simpl.
  by rewrite Nat.add_0_r, app_nil_r.
Qed.

Lemma tallied_cons acc r res results :
  tallied acc ((r, res) :: results) = tallied (tally r res acc) results.
Proof.
  destruct acc as [s f].
  unfold tallied, tally, successes, failuresOf. simpl.
  destruct (success res); simpl; f_equal; [lia | by rewrite <- app_assoc].
Qed.

Lemma tallied_app acc results1 results2 :
  tallied acc (results1 ++ results2) =
  tallied (tallied acc results1) results2.
Proof.
  destruct acc as [s f]. unfold tallied, successes, failuresOf. simpl.
  rewrite List.filter_app, length_app, omap_app.
  f_equal; [lia | by rewrite app_assoc].
Qed.

Section Collaborators.
Variable inherited : string -> Val.
Variable deliver : list Event -> Transport -> MailOptions -> Thrown + string.
Variable isoString : Z -> string.

Lemma sendEmail_ok d smtpConfigId w :
  exists res w',
    sendEmail inherited deliver isoString d smtpConfigId w = (Ok res, w') /\
    timeouts (trace w') = timeouts (trace w) /\
    delivered deliver d res.
Proof.
  rewrite sendEmail_eq.
  destruct (chosenConfig smtpConfigId w) as [c|].
  - destruct (deliver (trace w) (transportFor c) _) as [e|messageId] eqn:Hd;
      eexists _, _; (split; [reflexivity|]); split.
    + destruct (logAll_same isoString (failedEntry d smtpConfigId e)
                  (toArray (to d)) (delivering inherited d c w))
        as (_&_&_&_&_&_&->).
      unfold delivering. simpl. rewrite timeouts_app. simpl.
      apply app_nil_r.
    + by intros ?.
    + destruct (logAll_same isoString
                  (sentEntry d c (finalContent inherited d w).1 messageId)
                  (toArray (to d)) (delivering inherited d c w))
        as (_&_&_&_&_&_&->).
      unfold delivering. simpl. rewrite timeouts_app. simpl.
      apply app_nil_r.
    + intros _. by eexists _, _, _, _.
  - eexists _, _. split; [reflexivity|]. split; [|by intros ?].
    by destruct (logAll_same isoString
                   (failedEntry d smtpConfigId (resolveError smtpConfigId))
                   (toArray (to d)) w) as (_&_&_&_&_&_&->).
Qed.

Variable data : BulkEmailData.
Variable smtpConfigId : option string.

Lemma sendOne_eq recipient acc w res w' :
  sendEmail inherited deliver isoString (bulkEmailData data recipient)
    smtpConfigId w = (Ok res, w') ->
  sendOne inherited deliver isoString data smtpConfigId recipient acc w =
  (Ok (tally recipient res acc), w').
Proof.
  intros H. destruct acc as [s f].
  unfold sendOne, tryCatch, bind. rewrite H. unfold tally. simpl.
  by destruct (success res).
Qed.

Lemma attemptBatch_ok batch : forall w,
  exists results w',
    attemptBatch inherited deliver isoString data smtpConfigId batch w
      = (Ok results, w') /\
    results.*1 = batch /\
    timeouts (trace w') = timeouts (trace w) /\
    Forall (attempted deliver data) results.
Proof.
  induction batch as [|r batch IH]; intros w.
  - exists [], w. by repeat split.
  - cbn [attemptBatch]. unfold bind at 1.
    destruct (sendEmail_ok (bulkEmailData data r) smtpConfigId w)
      as (res & w1 & -> & Ht1 & Hd).
    destruct (IH w1) as (results & w' & Hrun & Hfst & Ht & Hall).
    unfold bind. rewrite Hrun.
    exists ((r, res) :: results), w'. split; [done|].
    split; [by rewrite fmap_cons, Hfst|].
    split; [congruence|]. by constructor.
Qed.

Lemma sendBatch_eq batch : forall acc w results w',
  attemptBatch inherited deliver isoString data smtpConfigId batch w
    = (Ok results, w') ->
  sendBatch inherited deliver isoString data smtpConfigId batch acc w =
  (Ok (tallied acc results), w').
Proof.
  induction batch as [|r batch IH]; intros acc w results w'.
  - intros [= <- <-]. simpl. by rewrite tallied_nil.
  - cbn [attemptBatch sendBatch]. unfold bind at 1 3.
    destruct (sendEmail_ok (bulkEmailData data r) smtpConfigId w)
      as (res & w1 & Hsend & _).
    rewrite Hsend, (sendOne_eq r acc w res w1 Hsend).
    unfold bind.
    destruct (attemptBatch_ok batch w1) as (rest & w2 & Hrest & _).
    rewrite Hrest. intros [= <- <-].
    rewrite tallied_cons. by apply IH.
Qed.

Lemma attemptBatches_ok delay batches : forall w,
  exists results w',
    attemptBatches inherited deliver isoString data smtpConfigId
      delay batches w = (Ok results, w') /\
    results.*1 = concat batches /\
    timeouts (trace w') =
      timeouts (trace w) ++ replicate (length batches - 1) delay /\
    Forall (attempted deliver data) results.
Proof.
  induction batches as [|batch batches IH]; intros w.
  - exists [], w. simpl. by rewrite app_nil_r.
  - cbn [attemptBatches]. unfold bind at 1.
    destruct (attemptBatch_ok batch w)
      as (results & w1 & -> & Hfst & Ht1 & Hall).
    unfold bind at 1.
    destruct batches as [|batch' batches].
    + unfold ret at 1. simpl.
      exists (results ++ []), w1. split; [done|].
      rewrite !app_nil_r. done.
    + unfold sleep at 1.
      destruct (IH (addEvent w1 (Timeout delay) (Z.max 0 delay)))
        as (results' & w' & Hrun & Hfst' & Ht' & Hall').
      unfold bind. rewrite Hrun.
      exists (results ++ results'), w'. split; [done|].
      split; [by rewrite fmap_app, Hfst, Hfst'|].
      split; [|by apply Forall_app].
      rewrite Ht'. simpl. rewrite timeouts_app, Ht1. simpl.
      rewrite Nat.sub_0_r. by rewrite <- app_assoc.
Qed.

(** The loop of [sendBulkEmails] does what the batch-by-batch
    program does, and counts its results. *)
Lemma bulkLoop_eq batchSize delay :
  1 <= batchSize ->
  forall fuel i acc w results w',
    length (recipients data) - i < fuel ->
    attemptBatches inherited deliver isoString data smtpConfigId delay
      (chunks batchSize (drop i (recipients data))) w = (Ok results, w') ->
    bulkLoop inherited deliver isoString fuel data smtpConfigId
      batchSize delay i acc w = (Ok (tallied acc results), w').
Proof.
  intros Hpos. induction fuel as [|fuel IH];
    intros i acc w results w' Hfuel Hrun; [lia|].
  cbn [bulkLoop].
  destruct (Nat.ltb_spec i (length (recipients data))) as [Hlt|Hge].
  - assert (drop i (recipients data) <> []) as Hne.
    { intros Hnil%(f_equal length). rewrite length_drop in Hnil.
      simpl in Hnil. lia. }
    rewrite (chunks_cons batchSize Hpos _ Hne), drop_drop in Hrun.
    cbn [attemptBatches] in Hrun. unfold bind at 1 in Hrun.
    destruct (attemptBatch_ok
                (take batchSize (drop i (recipients data))) w)
      as (results1 & w1 & Hbatch & _).
    rewrite Hbatch in Hrun.
    unfold bind at 1.
    rewrite (sendBatch_eq _ acc w results1 w1 Hbatch).
    unfold bind at 1 in Hrun. unfold bind at 1.
    destruct (Nat.ltb_spec (i + batchSize) (length (recipients data)))
      as [Hmore|Hlast].
    + destruct (chunks batchSize (drop (i + batchSize) (recipients data)))
        as [|b bs] eqn:Hchunks.
      { apply (proj1 (chunks_eq_nil batchSize Hpos _)) in Hchunks.
        apply (f_equal length) in Hchunks.
        rewrite length_drop in Hchunks. simpl in Hchunks. lia. }
      unfold sleep at 1 in Hrun. unfold sleep at 1.
      rewrite <- Hchunks in Hrun.
      set (w2 := addEvent w1 (Timeout delay) (Z.max 0 delay)) in *.
      unfold bind in Hrun.
      destruct (attemptBatches_ok delay
                  (chunks batchSize (drop (i + batchSize) (recipients data)))
                  w2) as (results2 & w3 & Hrest & _).
      rewrite Hrest in Hrun. injection Hrun as <- <-.
      rewrite tallied_app. apply IH; [lia|done].
    + assert (drop (i + batchSize) (recipients data) = []) as Hnil
        by (by apply drop_ge).
      rewrite Hnil, chunks_nil in Hrun. simpl in Hrun.
      injection Hrun as <- <-. unfold ret at 1.
      rewrite app_nil_r.
      rewrite (IH (i + batchSize) (tallied acc results1) w1 [] w1);
        [by rewrite tallied_nil | lia | by rewrite Hnil, chunks_nil].
  - assert (drop i (recipients data) = []) as Hnil by (by apply drop_ge).
    rewrite Hnil, chunks_nil in Hrun. injection Hrun as <- <-.
    by rewrite tallied_nil.
Qed.

Lemma sendBulkEmails_eq fuel w results w' :
  1 <= length (recipients data) ->
  1 <= default 10 (batchSize data) ->
  length (recipients data) < fuel ->
  attemptBatches inherited deliver isoString data smtpConfigId
    (default 1000%Z (delayBetweenBatches data))
    (chunks (default 10 (batchSize data)) (recipients data)) w
    = (Ok results, w') ->
  sendBulkEmails inherited deliver isoString fuel data smtpConfigId w =
  (Ok (bulkResult data results), w').
Proof.
  intros Hn Hb Hfuel Hrun.
  unfold sendBulkEmails, tryCatch.
  rewrite (proj2 (Nat.eqb_neq _ 0)) by lia.
  unfold bind.
  rewrite (bulkLoop_eq _ _ Hb fuel 0 (0, []) w results w');
    [|lia|by rewrite drop_0].
  done.
Qed.

(** Whatever the input and the fuel, nothing is thrown. *)
Lemma sendBulkEmails_no_throw fuel w e :
  (sendBulkEmails inherited deliver isoString fuel data smtpConfigId w).1
  <> Throw e.
Proof.
  unfold sendBulkEmails, tryCatch.
  match goal with
  | |- context [match ?body w with _ => _ end] =>
      destruct (body w) as [[r| |] w1]
  end; done.
Qed.

End Collaborators.

End BulkFacts.

(* ===================================================================== *)
(** * Claims about the send pipeline                                      *)
(* ===================================================================== *)

Module SendClaims.
Import Js Config Mail World Run Store EmailService Template Spec.
Import SendFacts BulkFacts ChunkFacts RenderFacts.
Import SendModel Examples.

(** ** Concrete collaborators and inputs *)

(** C2, counterexample.  A send through the default template whose
    delivery throws: the final subject is the one of the template, the
    two log entries carry the subject the caller passed. *)
Lemma failed_send_logs_caller_subject :
  (finalContent noPrototype greeting World.initial).1 = "Default Subject" /\
  exists w' e1 e2,
    sendEmail noPrototype refusing epoch greeting None World.initial =
      (Ok (failure (ErrorObj "connect ECONNREFUSED")), w') /\
    logFile w' = LogEntries [e1; e2] /\
    log_subject e1 = "Greetings" /\ log_subject e2 = "Greetings".
Proof.
  split; [reflexivity|].
  eexists _, _, _. split; [vm_compute; reflexivity|].
  split; [reflexivity|]. split; reflexivity.
Qed.

(** ** The bulk pipeline *)

Lemma tally_total results :
  successes results + length (failuresOf results) = length results.
Proof.
  induction results as [|[r res] results IH]; [done|].
  assert (successes ((r, res) :: results) =
          (if success res then 1 else 0) + successes results) as ->.
  { unfold successes. simpl. by destruct (success res). }
  assert (length (failuresOf ((r, res) :: results)) =
          (if success res then 0 else 1) + length (failuresOf results))
    as ->.
  { change (failuresOf ((r, res) :: results))
      with (match (if success res then None
                   else Some {| f_email := email r;
                                f_error := orElse (message res)
                                             "Unknown error" |}) with
            | Some y => y :: failuresOf results
            | None => failuresOf results
            end).
    by destruct (success res). }
  simpl. destruct (success res); lia.
Qed.

(** C3.  For a list of N >= 1 recipients and a batch size B >= 1, the
    loop of [sendBulkEmails] does what the batch-by-batch program does
    on the contiguous batches [chunks B recipients]: these spell the
    list back, there are ceil(N/B) of them, all of size B except a
    shorter last one when B does not divide N, and the run makes
    exactly ceil(N/B) - 1 delays, each of [delayBetweenBatches]
    milliseconds, one between two consecutive batches and none after
    the last.  For N = 25 and B = 10: batches of 10, 10 and 5, and two
    delays. *)
Theorem bulk_batches_and_delays
    (inherited : string -> Val)
    (deliver : list Event -> Transport -> MailOptions -> Thrown + string)
    (isoString : Z -> string)
    (fuel : nat) (data : BulkEmailData) (smtpConfigId : option string)
    (w : World.t) :
  1 <= length (recipients data) ->
  1 <= default 10 (batchSize data) ->
  length (recipients data) < fuel ->
  concat (chunks (default 10 (batchSize data)) (recipients data))
    = recipients data /\
  length (chunks (default 10 (batchSize data)) (recipients data))
    = ceilDiv (length (recipients data)) (default 10 (batchSize data)) /\
  length <$> chunks (default 10 (batchSize data)) (recipients data) =
    replicate (length (recipients data) / default 10 (batchSize data))
      (default 10 (batchSize data)) ++
    (if length (recipients data) mod default 10 (batchSize data) =? 0
     then []
     else [length (recipients data) mod default 10 (batchSize data)]) /\
  (exists results result w',
     attemptBatches inherited deliver isoString data smtpConfigId
       (default 1000%Z (delayBetweenBatches data))
       (chunks (default 10 (batchSize data)) (recipients data)) w
       = (Ok results, w') /\
     sendBulkEmails inherited deliver isoString fuel data smtpConfigId w
       = (Ok result, w') /\
     timeouts (trace w') =
       timeouts (trace w) ++
       replicate
         (ceilDiv (length (recipients data)) (default 10 (batchSize data)) - 1)
         (default 1000%Z (delayBetweenBatches data))) /\
  (length (recipients data) = 25 -> default 10 (batchSize data) = 10 ->
   length <$> chunks (default 10 (batchSize data)) (recipients data)
     = [10; 10; 5] /\
   ceilDiv (length (recipients data)) (default 10 (batchSize data)) - 1 = 2).
Proof.
  intros Hn Hb Hfuel.
  pose proof (lengths_chunks _ Hb (recipients data)) as Hlens.
  split; [by apply concat_chunks|].
  split; [by apply length_chunks|].
  split; [exact Hlens|]. split.
  - destruct (attemptBatches_ok inherited deliver isoString data
                smtpConfigId (default 1000%Z (delayBetweenBatches data))
                (chunks (default 10 (batchSize data)) (recipients data)) w)
      as (results & w' & Hrun & _ & Ht & _).
    exists results, (bulkResult data results), w'.
    split; [done|]. split; [by apply sendBulkEmails_eq|].
    by rewrite Ht, (length_chunks _ Hb).
  - intros H25 H10. rewrite Hlens, H25, H10. done.
Qed.

Lemma bulk_batches_and_delays_witness :
  chunks 1 [ana; bob] = [[ana]; [bob]] /\
  exists result w',
    sendBulkEmails noPrototype refusingBob epoch 3 announcement None
      World.initial = (Ok result, w') /\
    timeouts (trace w') = [1000%Z].
Proof.
  destruct (bulk_batches_and_delays noPrototype refusingBob epoch 3
              announcement None World.initial
              ltac:(simpl; lia) ltac:(simpl; lia) ltac:(simpl; lia))
    as (_ & _ & _ & (results & result & w' & _ & Hrun & Ht) & _).
  split; [reflexivity|]. exists result, w'. split; [exact Hrun|exact Ht].
Defined.

(** C6.  For a non-empty recipient list (and a batch size of at least
    one, so that the loop ends) [sendBulkEmails] returns a result in
    which [totalSent] is the number of per-recipient [sendEmail] calls
    that reported success, [failures] lists the others as
    [{email, error}] in order ([undefined] when there is none),
    [totalFailed] is the length of that list, every recipient is counted
    once, and [success] is [totalSent > 0]. *)
Theorem bulk_result_aggregates
    (inherited : string -> Val)
    (deliver : list Event -> Transport -> MailOptions -> Thrown + string)
    (isoString : Z -> string)
    (fuel : nat) (data : BulkEmailData) (smtpConfigId : option string)
    (w : World.t) :
  1 <= length (recipients data) ->
  1 <= default 10 (batchSize data) ->
  length (recipients data) < fuel ->
  exists results result w',
    attemptBatches inherited deliver isoString data smtpConfigId
      (default 1000%Z (delayBetweenBatches data))
      (chunks (default 10 (batchSize data)) (recipients data)) w
      = (Ok results, w') /\
    results.*1 = recipients data /\
    sendBulkEmails inherited deliver isoString fuel data smtpConfigId w
      = (Ok result, w') /\
    totalSent result = successes results /\
    failures result =
      (if 0 <? length (failuresOf results)
       then Some (failuresOf results) else None) /\
    totalFailed result = length (failuresOf results) /\
    totalSent result + totalFailed result = length (recipients data) /\
    bulk_success result = (0 <? totalSent result).
Proof.
  intros Hn Hb Hfuel.
  destruct (attemptBatches_ok inherited deliver isoString data
              smtpConfigId (default 1000%Z (delayBetweenBatches data))
              (chunks (default 10 (batchSize data)) (recipients data)) w)
    as (results & w' & Hrun & Hfst & _ & _).
  rewrite (concat_chunks _ Hb) in Hfst.
  exists results, (bulkResult data results), w'.
  split; [done|]. split; [done|].
  split; [by apply sendBulkEmails_eq|]. simpl.
  repeat split.
  rewrite tally_total, <- Hfst. by rewrite length_fmap.
Qed.

Lemma bulk_result_aggregates_witness :
  exists result w',
    sendBulkEmails noPrototype refusingBob epoch 3 announcement None
      World.initial = (Ok result, w') /\
    bulk_success result = true /\ totalSent result = 1 /\
    totalFailed result = 1 /\
    failures result =
      Some [{| f_email := "bob@example.org";
               f_error := "mailbox unavailable" |}].
Proof.
  destruct (bulk_result_aggregates noPrototype refusingBob epoch 3
              announcement None World.initial
              ltac:(simpl; lia) ltac:(simpl; lia) ltac:(simpl; lia))
    as (results & result & w' & Hatt & _ & Hrun & Hsent & Hfs & Hfailed
        & _ & Hsucc).
  assert (results.*2 = [sent "<id@example.org>";
                        failure (ErrorObj "mailbox unavailable")]) as Hres.
  { pose proof Hatt as Hc. vm_compute in Hc. by injection Hc as <- _. }
  destruct results as [|[r1 res1] [|[r2 res2] [|? ?]]]; try done.
  injection Hres as -> ->.
  assert (r2 = bob) as ->.
  { pose proof Hatt as Hc. vm_compute in Hc. by injection Hc as _ <- _. }
  exists result, w'. split; [exact Hrun|].
  rewrite Hsucc, Hsent, Hfailed, Hfs. by repeat split.
Defined.

(** C4.  [sendEmail] always resolves to a result object, and a result
    with [success = false] carries a message.  [sendBulkEmails] never
    throws, whatever the input and however long it runs; with a batch
    size of at least one it returns a result; and a recipient for whom
    the delivery collaborator throws is listed in [failures]. *)
Theorem sends_never_throw
    (inherited : string -> Val)
    (deliver : list Event -> Transport -> MailOptions -> Thrown + string)
    (isoString : Z -> string) :
  (forall data smtpConfigId w,
     exists result w',
       sendEmail inherited deliver isoString data smtpConfigId w
         = (Ok result, w') /\
       (success result = false -> exists m, message result = Some m)) /\
  (forall fuel data smtpConfigId w e,
     (sendBulkEmails inherited deliver isoString fuel data smtpConfigId w).1
     <> Throw e) /\
  (forall fuel data smtpConfigId w,
     1 <= default 10 (batchSize data) ->
     length (recipients data) < fuel ->
     exists result w',
       sendBulkEmails inherited deliver isoString fuel data smtpConfigId w
         = (Ok result, w')) /\
  (forall fuel data smtpConfigId w r,
     1 <= default 10 (batchSize data) ->
     length (recipients data) < fuel ->
     r ∈ recipients data ->
     (forall tr t m,
        mo_to m = Address (formatRecipient r) ->
        exists e, deliver tr t m = inl e) ->
     exists result w' fs,
       sendBulkEmails inherited deliver isoString fuel data smtpConfigId w
         = (Ok result, w') /\
       failures result = Some fs /\
       email r ∈ f_email <$> fs).
Proof.
  split; [|split; [|split]].
  - intros data smtpConfigId w. rewrite sendEmail_eq.
    destruct (chosenConfig smtpConfigId w) as [c|].
    + destruct (deliver _ _ _); eexists _, _;
        (split; [reflexivity|]); intros _; by eexists.
    + eexists _, _. split; [reflexivity|]. intros _. by eexists.
  - intros. apply sendBulkEmails_no_throw.
  - intros fuel data smtpConfigId w Hb Hfuel.
    destruct (recipients data) as [|r0 rs] eqn:Hrs.
    + unfold sendBulkEmails, tryCatch. rewrite Hrs. simpl.
      by eexists _, _.
    + destruct (attemptBatches_ok inherited deliver isoString data
                  smtpConfigId (default 1000%Z (delayBetweenBatches data))
                  (chunks (default 10 (batchSize data)) (recipients data)) w)
        as (results & w' & Hrun & _).
      exists (bulkResult data results), w'.
      apply sendBulkEmails_eq; [rewrite Hrs; simpl; lia|done| |done].
      by rewrite Hrs.
  - intros fuel data smtpConfigId w r Hb Hfuel Hin Hthrows.
    assert (1 <= length (recipients data)) as Hn.
    { destruct (recipients data); [by apply elem_of_nil in Hin|simpl; lia]. }
    destruct (attemptBatches_ok inherited deliver isoString data
                smtpConfigId (default 1000%Z (delayBetweenBatches data))
                (chunks (default 10 (batchSize data)) (recipients data)) w)
      as (results & w' & Hrun & Hfst & _ & Hall).
    rewrite (concat_chunks _ Hb) in Hfst.
    rewrite <- Hfst in Hin.
    apply list_elem_of_fmap in Hin as ([r' res] & -> & Hin).
    assert (success res = false) as Hfail.
    { destruct (success res) eqn:Hs; [|done].
      rewrite Forall_forall in Hall.
      destruct (Hall _ Hin Hs) as (tr & t & m & messageId & Hd & Hto).
      destruct (Hthrows tr t m Hto) as [e He]. congruence. }
    assert ({| f_email := email r';
               f_error := orElse (message res) "Unknown error" |}
            ∈ failuresOf results) as Hf.
    { apply list_elem_of_omap. exists (r', res). split; [done|].
      simpl. by rewrite Hfail. }
    exists (bulkResult data results), w', (failuresOf results).
    split; [by apply sendBulkEmails_eq|]. split.
    + simpl. destruct (failuresOf results); [by apply elem_of_nil in Hf|done].
    + apply list_elem_of_fmap. eexists. split; [|exact Hf]. done.
Qed.

Lemma sends_never_throw_witness :
  exists result w' fs,
    sendBulkEmails noPrototype refusingBob epoch 3 announcement None
      World.initial = (Ok result, w') /\
    failures result = Some fs /\
    "bob@example.org" ∈ f_email <$> fs.
Proof.
  destruct (sends_never_throw noPrototype refusingBob epoch)
    as (_ & _ & _ & Hthrower).
  apply (Hthrower 3 announcement None World.initial bob);
    [simpl; lia | simpl; lia | right; left |].
  intros tr t m Hto. exists (ErrorObj "mailbox unavailable").
  unfold refusingBob. rewrite Hto. reflexivity.
Defined.

End SendClaims.

(* ===================================================================== *)
(** * More on the template renderer                                       *)
(* ===================================================================== *)

Module RenderMore.
Import Js Template Spec RenderFacts.

Section Render.
Variable inherited : string -> Val.

Lemma matchPlaceholder_no_brace s :
  occurs "{" s = false -> matchPlaceholder s = None.
Proof.
  destruct s as [|c s]; [done|]. simpl.
  destruct (Ascii.eqb_spec c "{") as [->|Hc]; [done|].
  intros _. by apply matchPlaceholder_other.
Qed.

Lemma replaceAll_no_brace n data s :
  occurs "{" s = false -> replaceAll inherited n data s = s.
Proof.
  revert s. induction n as [|n IH]; intros s Hs; [done|].
  cbn [replaceAll]. rewrite (matchPlaceholder_no_brace s Hs).
  destruct s as [|c s]; [done|]. f_equal. apply IH.
  simpl in Hs. by apply orb_false_elim in Hs as [_ Hs].
Qed.

Lemma renderPiece_undefined data p :
  (forall key, getProp inherited data key = VUndefined) ->
  renderPiece inherited data p = pieceText p.
Proof.
  intros Hno. destruct p as [c|key]; [done|].
  unfold renderPiece, pieceText, placeholder. by rewrite Hno.
Qed.

(** X1.  A template that holds no opening brace is rendered as it
    stands, whatever the data; and so is every template when none of
    the keys looked up has a value other than [undefined], as with an
    empty data object that inherits nothing. *)
Theorem processTemplate_identity :
  (forall template data,
     occurs "{" template = false ->
     processTemplate inherited template data = template) /\
  (forall template data,
     (forall key, getProp inherited data key = VUndefined) ->
     processTemplate inherited template (Some data) = template) /\
  ((forall key, inherited key = VUndefined) ->
   forall template,
     processTemplate inherited template None = template /\
     processTemplate inherited template (Some ∅) = template).
Proof.
  assert (forall template data,
            (forall key, getProp inherited data key = VUndefined) ->
            processTemplate inherited template (Some data) = template)
    as Hsome.
  { intros template data Hno. rewrite processTemplate_pieces.
    rewrite <- (tokenize_text template) at 2. f_equal.
    apply list_fmap_ext. intros _ p _. by apply renderPiece_undefined. }
  split; [|split].
  - intros template data Hs. by apply replaceAll_no_brace.
  - exact Hsome.
  - intros Hno template.
    assert (forall key, getProp inherited ∅ key = VUndefined) as Hempty.
    { intros key. unfold getProp. by rewrite lookup_empty. }
    split; [exact (Hsome template ∅ Hempty) | exact (Hsome template ∅ Hempty)].
Qed.

End Render.

Lemma processTemplate_identity_witness :
  processTemplate Examples.noPrototype "Dear customer,"
    (Some {[ "name" := VStr "Ana" ]}) = "Dear customer," /\
  processTemplate Examples.noPrototype "Hello {{name}}" None
    = "Hello {{name}}".
Proof.
  pose proof (processTemplate_identity Examples.noPrototype)
    as (Hplain & _ & Hnone).
  split.
  - exact (Hplain "Dear customer," (Some {[ "name" := VStr "Ana" ]}) eq_refl).
  - exact (proj1 (Hnone (fun _ => eq_refl) "Hello {{name}}")).
Defined.

End RenderMore.
(* ===================================================================== *)
(** * More on the document store                                          *)
(* ===================================================================== *)

Module StoreMore.
Import Js Config World Run Run.Notations Store EmailService RequestHandler.
Import TemplateModel SendModel StoreViews Logs.
Import TemplateStore TemplateFacts SendFacts.

(** ** Reading the templates directory *)

Lemma readTemplates_all w dir d2 : forall d1 acc,
  templatesDir w = Some dir -> NoDup dir.*1 -> dir = d1 ++ d2 ->
  readTemplates d2.*1 acc w =
  if allParse d2 then (Ok (acc ++ parsed d2), w) else (Throw ioError, w).
Proof.
  induction d2 as [|[f c] d2 IH]; intros d1 acc Hdir Hnd Heq.
  - simpl. by rewrite app_nil_r.
  - assert ((f, c) ∈ dir) as Hin
      by (rewrite Heq; apply elem_of_app; right; left).
    assert (dir = (d1 ++ [(f, c)]) ++ d2) as Heq'
      by (by rewrite <- app_assoc).
    rewrite fmap_cons, parsed_cons. cbn [readTemplates allParse forallb fst snd].
    fold (allParse d2). fold (isJson f).
    destruct (isJson f) eqn:Hjson.
    + unfold bind, readJsonTemplate. rewrite Hdir.
      rewrite (dirLookup_in _ _ _ Hnd Hin).
      destruct c as [t|]; [|done].
      rewrite (IH _ (acc ++ [t]) Hdir Hnd Heq'). simpl.
      destruct (allParse d2); [|done]. by rewrite <- app_assoc.
    + rewrite (IH _ acc Hdir Hnd Heq'). by destruct c.
Qed.

Lemma getEmailTemplatesRef_builtin w :
  (let* w0 := get in
   let '(d, ie, esade) := builtinTemplates w0 in
   ret (SharedTemplates, [d; ie; esade])) w
  = (Ok (SharedTemplates, builtinList w), w).
Proof.
  unfold bind, get, builtinList. by destruct (builtinTemplates w) as [[d ie] e].
Qed.

(** X2.  [getEmailTemplates] never throws and changes nothing.  When the
    directory cannot be enumerated it returns the three built-in
    templates.  Otherwise (file names being distinct) it returns the
    content of the [.json] files in enumeration order, files of other
    names being skipped, provided every one of them parses; a single
    [.json] file that does not parse makes it return the three built-in
    templates instead of the files that do. *)
Theorem getEmailTemplates_all_or_nothing (w : World.t) :
  (templatesDir w = None ->
   getEmailTemplates w = (Ok (builtinList w), w)) /\
  (forall dir,
     templatesDir w = Some dir -> NoDup dir.*1 ->
     getEmailTemplates w =
     (Ok (if allParse dir then parsed dir else builtinList w), w)).
Proof.
  split.
  - intros Hdir.
    unfold getEmailTemplates, getEmailTemplatesRef, bind at 1, tryCatch.
    unfold bind at 1, readdirTemplates. rewrite Hdir.
    by rewrite getEmailTemplatesRef_builtin.
  - intros dir Hdir Hnd.
    unfold getEmailTemplates, getEmailTemplatesRef, bind at 1, tryCatch.
    unfold bind at 1, readdirTemplates. rewrite Hdir.
    unfold bind at 1.
    rewrite (readTemplates_all w dir dir [] [] Hdir Hnd eq_refl).
    destruct (allParse dir); [done|].
    by rewrite getEmailTemplatesRef_builtin.
Qed.

Lemma getEmailTemplates_all_or_nothing_witness :
  getEmailTemplates Cases.brokenDirWorld
  = (Ok [DEFAULT_TEMPLATE; IE_TEMPLATE; ESADE_TEMPLATE],
     Cases.brokenDirWorld).
Proof.
  apply (proj2 (getEmailTemplates_all_or_nothing Cases.brokenDirWorld)
           Cases.brokenDir eq_refl).
  apply (bool_decide_unpack (NoDup Cases.brokenDir.*1)). vm_compute. exact I.
Defined.

(** ** Saving and deleting a template *)

Lemma find_skip {A} (f : A -> bool) l1 l2 :
  (forall y, y ∈ l1 -> f y = false) ->
  List.find f (l1 ++ l2) = List.find f l2.
Proof.
  induction l1 as [|x l1 IH]; intros H; [done|].
  simpl. rewrite (H x ltac:(left)). apply IH. intros; apply H; by right.
Qed.

Lemma find_middle {A} (f : A -> bool) l1 x y l2 :
  f x = f y -> f x = false ->
  List.find f (l1 ++ x :: l2) = List.find f (l1 ++ y :: l2).
Proof.
  intros Hxy Hx. induction l1 as [|z l1 IH]; simpl.
  - by rewrite <- Hxy, Hx.
  - by rewrite IH.
Qed.

Lemma find_upsert_same t l :
  NoDup (tpl_id <$> l) -> List.find (hasId (tpl_id t)) (upsert t l) = Some t.
Proof.
  intros Hnd.
  assert (hasId (tpl_id t) t = true) as Ht by by apply hasId_true.
  destruct (upsert_cases t l Hnd)
    as [(l1 & x & l2 & -> & Hid & ->)|[Habs ->]].
  - rewrite find_skip; [by simpl; rewrite Ht|].
    intros y Hy. apply hasId_false. intros Heq.
    rewrite fmap_app, fmap_cons in Hnd.
    apply NoDup_app in Hnd as (_ & Hl1 & _).
    apply (Hl1 (tpl_id y)); [by apply list_elem_of_fmap_2|].
    rewrite Heq, <- Hid. left.
  - rewrite find_skip; [by simpl; rewrite Ht|].
    intros y Hy. by apply hasId_false, Habs.
Qed.

Lemma find_upsert_other id t l :
  NoDup (tpl_id <$> l) -> id <> tpl_id t ->
  List.find (hasId id) (upsert t l) = List.find (hasId id) l.
Proof.
  intros Hnd Hne.
  assert (hasId id t = false) as Ht by (apply hasId_false; congruence).
  destruct (upsert_cases t l Hnd)
    as [(l1 & x & l2 & -> & Hid & ->)|[Habs ->]].
  - apply find_middle; [|done].
    rewrite Ht. symmetry. apply hasId_false. congruence.
  - induction l as [|y l IH]; simpl; [by rewrite Ht|].
    destruct (hasId id y); [done|]. apply IH.
    + rewrite fmap_cons in Hnd. by apply NoDup_cons in Hnd as [_ ?].
    + intros; apply Habs; by right.
Qed.

Lemma upsert_ids_cases t l :
  NoDup (tpl_id <$> l) ->
  tpl_id <$> upsert t l =
  if existsb (hasId (tpl_id t)) l then tpl_id <$> l
  else (tpl_id <$> l) ++ [tpl_id t].
Proof.
  intros Hnd.
  destruct (upsert_cases t l Hnd)
    as [(l1 & x & l2 & -> & Hid & ->)|[Habs ->]].
  - assert (existsb (hasId (tpl_id t)) (l1 ++ x :: l2) = true) as ->.
    { apply existsb_exists. exists x. split.
      - apply in_or_app. right. by left.
      - by apply hasId_true. }
    by rewrite !fmap_app, !fmap_cons, Hid.
  - assert (existsb (hasId (tpl_id t)) l = false) as ->.
    { apply not_true_is_false. intros (x & Hx & Hid%hasId_true)%existsb_exists.
      by apply (Habs x); [apply list_elem_of_In|]. }
    by rewrite fmap_app.
Qed.

Lemma saveEmailTemplate_total t w :
  exists ok w',
    saveEmailTemplate t w = (Ok ok, w') /\ (ok = false -> w' = w).
Proof.
  unfold saveEmailTemplate, tryCatch, bind, writeJsonTemplate.
  destruct (writeFails w _); [by exists false, w|].
  destruct (templatesDir w); [|by exists false, w].
  eexists true, _. by split.
Qed.

Lemma without_upsert t l :
  NoDup (tpl_id <$> l) ->
  without (tpl_id t) (upsert t l) = without (tpl_id t) l.
Proof.
  intros Hnd.
  assert (negb (hasId (tpl_id t) t) = false) as Ht.
  { apply negb_false_iff. by apply hasId_true. }
  destruct (upsert_cases t l Hnd)
    as [(l1 & x & l2 & -> & Hid & ->)|[Habs ->]]; unfold without.
  - rewrite !List.filter_app. simpl. rewrite Ht.
    assert (negb (hasId (tpl_id t) x) = false) as ->; [|done].
    apply negb_false_iff. by apply hasId_true.
  - rewrite List.filter_app. simpl. rewrite Ht. apply app_nil_r.
Qed.

(** X3.  For a template whose id can be a file name,
    [saveEmailTemplate] never throws, and when it returns [false]
    nothing was changed.  On a healthy template store it returns
    [true], and what is read back afterwards is the collection with
    the template written under its id: looking up the id gives the
    template saved, looking up another id gives what it gave before,
    the other templates are the same and in the same order, and the
    ids are those there were, with the id saved when it is new (where
    a new file is enumerated is not stated). *)
Theorem save_then_find (t : EmailTemplate) (w : World.t) :
  isFileName (tpl_id t) = true ->
  (exists ok w',
     saveEmailTemplate t w = (Ok ok, w') /\ (ok = false -> w' = w)) /\
  (healthy w ->
   exists w',
     saveEmailTemplate t w = (Ok true, w') /\ healthy w' /\
     findTemplate (tpl_id t) (templatesOf w') = Some t /\
     (forall id, id <> tpl_id t ->
        findTemplate id (templatesOf w') = findTemplate id (templatesOf w)) /\
     without (tpl_id t) (templatesOf w') = without (tpl_id t) (templatesOf w) /\
     tpl_id <$> templatesOf w' ≡ₚ
       (if existsb (hasId (tpl_id t)) (templatesOf w)
        then tpl_id <$> templatesOf w
        else tpl_id t :: (tpl_id <$> templatesOf w)) /\
     configFile w' = configFile w /\ defaultServers w' = defaultServers w /\
     logFile w' = logFile w /\ trace w' = trace w).
Proof.
  intros _.
  split; [apply saveEmailTemplate_total|].
  intros Hh. destruct (healthy_stored w Hh) as (l & Hl).
  pose proof (stored_NoDup w l Hl) as Hnd.
  destruct (stored_save w l t Hl) as (w' & Hrun & Hl' & Hc & Hd).
  exists w'. rewrite (stored_templatesOf w l Hl).
  rewrite (stored_templatesOf w' _ Hl').
  split; [done|]. split.
  { destruct Hl' as (dir & ? & ? & _ & ?). by exists dir. }
  split; [by apply find_upsert_same|].
  split; [intros id Hid; by apply find_upsert_other|].
  split; [by apply without_upsert|].
  split.
  { rewrite (upsert_ids_cases t l Hnd).
    destruct (existsb (hasId (tpl_id t)) l); [done|].
    symmetry. apply Permutation_cons_append. }
  split; [done|]. split; [done|].
  revert Hrun. unfold saveEmailTemplate, tryCatch, bind, writeJsonTemplate.
  destruct (writeFails w _); [done|].
  destruct (templatesDir w); [|done]. by intros [= <-].
Qed.

Lemma save_then_find_witness :
  exists w',
    saveEmailTemplate (setDefaultTpl true IE_TEMPLATE) World.initial
      = (Ok true, w') /\
    findTemplate "ie-outreach" (templatesOf w')
      = Some (setDefaultTpl true IE_TEMPLATE) /\
    findTemplate "default" (templatesOf w') = Some DEFAULT_TEMPLATE.
Proof.
  destruct (proj2 (save_then_find (setDefaultTpl true IE_TEMPLATE)
                     World.initial eq_refl))
    as (w' & Hrun & _ & Hfind & Hother & _).
  - eexists. split; [reflexivity|]. split; [vm_compute; reflexivity|].
    intros file. reflexivity.
  - exists w'. split; [exact Hrun|]. split; [exact Hfind|].
    rewrite (Hother "default" ltac:(discriminate)). reflexivity.
Defined.

Lemma find_without_same id l : List.find (hasId id) (without id l) = None.
Proof.
  unfold without. induction l as [|x l IH]; [done|]. simpl.
  destruct (hasId id x) eqn:E; simpl; [done|]. by rewrite E.
Qed.

Lemma find_without_other id id' l :
  id' <> id ->
  List.find (hasId id') (without id l) = List.find (hasId id') l.
Proof.
  intros Hne. unfold without. induction l as [|x l IH]; [done|]. simpl.
  destruct (hasId id x) eqn:E; simpl.
  - apply hasId_true in E.
    assert (hasId id' x = false) as -> by (apply hasId_false; congruence).
    done.
  - by rewrite IH.
Qed.

Lemma find_none_absent id l :
  List.find (hasId id) l = None -> forall x, x ∈ l -> tpl_id x <> id.
Proof.
  intros Hfind x Hx Hid.
  apply list_elem_of_In in Hx.
  pose proof (find_none _ _ Hfind x Hx) as Hf.
  by apply hasId_false in Hf.
Qed.

(** X4.  For an id that can be a file name, on a healthy template
    store, [deleteEmailTemplate] returns [true]; afterwards the id is
    not found any more, every other id is found as before, the
    templates left are in the order they were in, and the store is
    still healthy.  Deleting an id that is not there also returns
    [true] and leaves the collection as it was. *)
Theorem delete_then_find (id : string) (w : World.t) :
  isFileName id = true ->
  healthy w ->
  exists w',
    deleteEmailTemplate id w = (Ok true, w') /\ healthy w' /\
    findTemplate id (templatesOf w') = None /\
    (forall id', id' <> id ->
       findTemplate id' (templatesOf w') = findTemplate id' (templatesOf w)) /\
    templatesOf w' = without id (templatesOf w) /\
    (findTemplate id (templatesOf w) = None ->
     templatesOf w' = templatesOf w).
Proof.
  intros _ Hh. destruct (healthy_stored w Hh) as (l & Hl).
  destruct (stored_delete w l id Hl) as (w' & Hrun & Hl' & _).
  exists w'. rewrite (stored_templatesOf w l Hl).
  rewrite (stored_templatesOf w' _ Hl').
  split; [done|]. split.
  { destruct Hl' as (dir & ? & ? & _ & ?). by exists dir. }
  split; [apply find_without_same|].
  split; [intros id' Hne; by apply find_without_other|].
  split; [done|].
  intros Hnone. apply without_absent. by apply find_none_absent.
Qed.

Lemma delete_then_find_witness :
  exists w',
    deleteEmailTemplate "ie-outreach" World.initial = (Ok true, w') /\
    findTemplate "ie-outreach" (templatesOf w') = None /\
    findTemplate "default" (templatesOf w') = Some DEFAULT_TEMPLATE.
Proof.
  destruct (delete_then_find "ie-outreach" World.initial eq_refl)
    as (w' & Hrun & _ & Hfind & Hother & _).
  - eexists. split; [reflexivity|]. split; [vm_compute; reflexivity|].
    intros file. reflexivity.
  - exists w'. split; [exact Hrun|]. split; [exact Hfind|].
    rewrite (Hother "default" ltac:(discriminate)). reflexivity.
Defined.

(** ** The activity log *)

Lemma getEmailLogs_eq w : getEmailLogs w = (Ok (logsOf w), w).
Proof.
  unfold getEmailLogs, tryCatch, bind, pathExistsLog, readJsonLog, logsOf.
  destruct (logFile w) eqn:E; simpl; rewrite ?E; done.
Qed.

(** X5.  [getEmailLogs] never throws and changes nothing; it returns
    the entries of the log document, none when the document is absent
    or does not parse.  [logEmailActivity] never throws either and
    touches nothing but the log document.  It returns [true] when the
    document is absent or parses and can be written, and then
    [getEmailLogs] returns the entries it returned before followed by
    the new one; otherwise it returns [false] and changes nothing. *)
Theorem log_round_trip (entry : EmailLogEntry) (w : World.t) :
  getEmailLogs w = (Ok (logsOf w), w) /\
  exists w',
    logEmailActivity entry w = (Ok (logWritable w), w') /\
    sameButLog w w' /\
    (logWritable w = true ->
     getEmailLogs w' = (Ok (logsOf w ++ [entry]), w')) /\
    (logWritable w = false -> w' = w).
Proof.
  split; [apply getEmailLogs_eq|].
  exists (logged entry w). split; [|split; [apply logged_same|]].
  - unfold logEmailActivity, tryCatch, bind, pathExistsLog, readJsonLog,
      writeJsonLog, logWritable, logged.
    destruct (logFile w) eqn:E; simpl; rewrite ?E;
      by destruct (writeFails w LOG_FILE).
  - rewrite getEmailLogs_eq. unfold logWritable, logged, logsOf.
    destruct (logFile w) eqn:E; destruct (writeFails w LOG_FILE);
      simpl; rewrite ?E; done.
Qed.

Lemma log_round_trip_witness :
  exists w',
    logEmailActivity (Cases.logEntryAt "t1" "ana@example.org" true)
      World.initial = (Ok true, w') /\
    getEmailLogs w' =
      (Ok [Cases.logEntryAt "t1" "ana@example.org" true], w').
Proof.
  destruct (log_round_trip (Cases.logEntryAt "t1" "ana@example.org" true)
              World.initial) as (_ & w' & Hrun & _ & Hread & _).
  exists w'. split; [exact Hrun | exact (Hread eq_refl)].
Defined.

End StoreMore.
(* ===================================================================== *)
(** * More on the SMTP configuration handlers                             *)
(* ===================================================================== *)

Module SmtpMore.
Import Js Config Mail World Run Run.Notations Store EmailService.
Import RequestHandler SmtpModel SendModel StoreViews SmtpViews.
Import StoreFacts SmtpFacts SendFacts.

(** ** Whether a change is seen *)

Lemma committed_effective configs w :
  takesEffect w = true -> configsOf (committed configs w) = configs.
Proof.
  unfold takesEffect, committed. rewrite configsOf_eq.
  destruct (configFile w) as [doc|] eqn:E; simpl.
  - intros ->%negb_true_iff. simpl. by rewrite smtpServers_insert.
  - intros _. by rewrite E.
Qed.

Lemma committed_ineffective configs w :
  takesEffect w = false -> committed configs w = w.
Proof.
  unfold takesEffect, committed.
  destruct (configFile w); [|done]. by intros ->%negb_false_iff.
Qed.

Lemma committed_takesEffect configs w :
  takesEffect (committed configs w) = takesEffect w.
Proof.
  unfold takesEffect, committed.
  destruct (configFile w) eqn:E; [|by simpl; rewrite E].
  destruct (writeFails w SMTP_CONFIG_FILE) eqn:F; simpl; by rewrite ?E, ?F.
Qed.

Lemma committed_defaultServers configs w :
  defaultServers (committed configs w) =
  match configFile w with
  | Some _ => defaultServers w
  | None => configs
  end.
Proof.
  unfold committed. destruct (configFile w); [|done].
  by destruct (writeFails w SMTP_CONFIG_FILE).
Qed.

(** ** Looking an id up *)

Lemma findIndex_absent id l :
  id ∉ smtp_id <$> l -> findIndex id l = None.
Proof.
  intros Habs. apply list_find_None, Forall_forall.
  intros c Hc Hid. apply Habs. rewrite <- Hid. by apply list_elem_of_fmap_2.
Qed.



(** ** The list written by an update, entry by entry *)

Lemma updatedConfig_id p found :
  smtp_id (updatedConfig p found) = smtp_id found.
Proof. unfold updatedConfig. by destruct (us_isDefault p). Qed.

Lemma bystander_id p c : smtp_id (bystander p c) = smtp_id c.
Proof. unfold bystander. by destruct (us_isDefault p) as [[]|]. Qed.

Lemma updated_lookup_same p i found l :
  l !! i = Some found ->
  updated p i found l !! i = Some (updatedConfig p found).
Proof.
  intros Hi. pose proof (lookup_lt_Some _ _ _ Hi) as Hlt.
  unfold updated, updatedConfig.
  destruct (us_isDefault p) as [b|];
    apply list_lookup_insert_eq; [|done].
  destruct b; [by rewrite length_imap | done].
Qed.

Lemma updated_lookup_other p i found l j :
  j <> i -> updated p i found l !! j = bystander p <$> l !! j.
Proof.
  intros Hne. unfold updated, bystander.
  destruct (us_isDefault p) as [[]|];
    rewrite list_lookup_insert_ne by done.
  - rewrite list_lookup_imap. destruct (l !! j); [|done]. simpl.
    by rewrite decide_False.
  - by destruct (l !! j).
  - by destruct (l !! j).
Qed.

Lemma updated_ids p i found l :
  l !! i = Some found ->
  smtp_id <$> updated p i found l = smtp_id <$> l.
Proof.
  intros Hi. apply list_eq. intros j. rewrite !list_lookup_fmap.
  destruct (decide (j = i)) as [->|Hne].
  - rewrite (updated_lookup_same p i found l Hi), Hi. simpl.
    by rewrite updatedConfig_id.
  - rewrite (updated_lookup_other p i found l j Hne).
    destruct (l !! j); [|done]. simpl. by rewrite bystander_id.
Qed.

Lemma handleUpdateSmtpConfig_found p w i found :
  findIndex (us_id p) (configsOf w) = Some (i, found) ->
  handleUpdateSmtpConfig p w =
  (Ok (ConfigOk (updatedConfig p found)),
   committed (updated p i found (configsOf w)) w).
Proof. intros H. by rewrite handleUpdateSmtpConfig_eq, H. Qed.



(** ** Unknown ids *)

Lemma find_absent id (l : list EmailTemplate) :
  id ∉ tpl_id <$> l -> List.find (hasId id) l = None.
Proof.
  intros Habs. induction l as [|t l IH]; [done|]. simpl.
  rewrite fmap_cons in Habs. apply not_elem_of_cons in Habs as [Hne Habs].
  destruct (hasId id t) eqn:E; [|by apply IH].
  apply String.eqb_eq in E. congruence.
Qed.

Lemma getEmailTemplatesRef_templatesOf w :
  exists ref, getEmailTemplatesRef w = (Ok (ref, templatesOf w), w).
Proof.
  destruct (getEmailTemplatesRef_reads w) as ([ref l] & Hr).
  exists ref. unfold templatesOf, getEmailTemplates, bind. by rewrite Hr.
Qed.

(** X8.  An update or a delete that names an id which is not in the
    collection answers [success: false] with a message that names the
    id, and changes nothing: for SMTP configurations and for templates,
    in every world. *)
Theorem unknown_id_changes_nothing (w : World.t) :
  (forall p,
     us_id p ∉ smtp_id <$> configsOf w ->
     handleUpdateSmtpConfig p w =
       (Ok (Status false
              ("SMTP configuration with ID " +:+ us_id p +:+ " not found")),
        w)) /\
  (forall id,
     id ∉ smtp_id <$> configsOf w ->
     handleDeleteSmtpConfig id w =
       (Ok (Status false
              ("SMTP configuration with ID " +:+ id +:+ " not found")), w)) /\
  (forall p,
     ut_id p ∉ tpl_id <$> templatesOf w ->
     handleUpdateEmailTemplate p w =
       (Ok (Status false
              ("Email template with ID " +:+ ut_id p +:+ " not found")), w)) /\
  (forall id,
     id ∉ tpl_id <$> templatesOf w ->
     handleDeleteEmailTemplate id w =
       (Ok (Status false
              ("Email template with ID " +:+ id +:+ " not found")), w)).
Proof.
  destruct (getEmailTemplatesRef_templatesOf w) as (ref & Href).
  repeat split.
  - intros p Habs.
    by rewrite handleUpdateSmtpConfig_eq, (findIndex_absent _ _ Habs).
  - intros id Habs.
    by rewrite handleDeleteSmtpConfig_eq, (findIndex_absent _ _ Habs).
  - intros p Habs.
    unfold handleUpdateEmailTemplate, tryCatch, bind at 1. rewrite Href.
    by rewrite (find_absent _ _ Habs).
  - intros id Habs.
    unfold handleDeleteEmailTemplate, tryCatch, bind at 1. rewrite Href.
    by rewrite (find_absent _ _ Habs).
Qed.

Lemma unknown_id_changes_nothing_witness :
  handleDeleteSmtpConfig "sendgrid" World.initial =
    (Ok (Status false "SMTP configuration with ID sendgrid not found"),
     World.initial) /\
  handleDeleteEmailTemplate "welcome" World.initial =
    (Ok (Status false "Email template with ID welcome not found"),
     World.initial).
Proof.
  pose proof (unknown_id_changes_nothing World.initial)
    as (_ & Hsmtp & _ & Htpl).
  split.
  - apply (Hsmtp "sendgrid").
    apply (bool_decide_unpack
             ("sendgrid" ∉ smtp_id <$> configsOf World.initial)).
    vm_compute. exact I.
  - apply (Htpl "welcome").
    apply (bool_decide_unpack
             ("welcome" ∉ tpl_id <$> templatesOf World.initial)).
    vm_compute. exact I.
Defined.

(** ** The collection is never emptied *)

Lemma updated_length p i found l :
  l !! i = Some found -> length (updated p i found l) = length l.
Proof.
  intros Hi. rewrite <- (length_fmap smtp_id), (updated_ids p i found l Hi).
  apply length_fmap.
Qed.

Lemma promoteFirst_length b l : length (promoteFirst b l) = length l.
Proof. destruct l as [|first others]; [done|]. by destruct b. Qed.

Lemma smtpCall_nonempty c w :
  configsOf w <> [] -> configsOf (after (smtpCall c) w) <> [].
Proof.
  intros Hne. destruct (after_smtpCall c w) as [->|H]; [done|].
  intros Hnil. apply (f_equal length) in Hnil. simpl in Hnil.
  destruct c as [uuid p|p|id].
  - rewrite H in Hnil. unfold added in Hnil.
    rewrite length_app in Hnil. simpl in Hnil. lia.
  - destruct H as (i & found & Hi & H). rewrite H in Hnil.
    rewrite (updated_length p i found _ Hi) in Hnil.
    apply lookup_lt_Some in Hi. lia.
  - destruct H as (i & found & Hi & Hlen & H). rewrite H in Hnil.
    rewrite promoteFirst_length, length_delete in Hnil by done.
    apply lookup_lt_Some in Hi. lia.
Qed.

Lemma afterSmtpCalls_cons c calls w :
  afterSmtpCalls (c :: calls) w = afterSmtpCalls calls (after (smtpCall c) w).
Proof. reflexivity. Qed.

Lemma smtpCall_length c w :
  length (configsOf (after (smtpCall c) w)) <= S (length (configsOf w)) /\
  length (configsOf w) <= S (length (configsOf (after (smtpCall c) w))).
Proof.
  destruct (after_smtpCall c w) as [->|H]; [lia|].
  destruct c as [uuid p|p|id].
  - rewrite H. unfold added. rewrite length_app. simpl.
    destruct (default false (as_isDefault p)); rewrite ?length_map; lia.
  - destruct H as (i & found & Hi & ->).
    rewrite (updated_length p i found _ Hi). lia.
  - destruct H as (i & found & Hi & Hlen & ->).
    rewrite promoteFirst_length, length_delete by done. lia.
Qed.

(** X6.  Once the collection of SMTP configurations is not empty, no
    sequence of add, update and delete calls empties it, in any world;
    and a single call changes the number of entries by one at most. *)
Theorem smtp_collection_never_emptied (calls : list SmtpCall) (w : World.t) :
  configsOf w <> [] ->
  configsOf (afterSmtpCalls calls w) <> [] /\
  forall c,
    length (configsOf (after (smtpCall c) w)) <= S (length (configsOf w)) /\
    length (configsOf w) <= S (length (configsOf (after (smtpCall c) w))).
Proof.
  intros Hne. split; [|intros c; apply smtpCall_length].
  revert w Hne. induction calls as [|c calls IH]; intros w Hne; [done|].
  rewrite afterSmtpCalls_cons. by apply IH, smtpCall_nonempty.
Qed.

Lemma smtp_collection_never_emptied_witness :
  configsOf
    (afterSmtpCalls [DeleteSmtp "gmail"; DeleteSmtp "aws-ses"] World.initial)
  <> [].
Proof.
  apply (smtp_collection_never_emptied
           [DeleteSmtp "gmail"; DeleteSmtp "aws-ses"] World.initial).
  discriminate.
Defined.

(** ** The default configuration always resolves *)

Lemma smtpCall_world c w :
  after (smtpCall c) w = w \/
  exists l, after (smtpCall c) w = committed l w.
Proof.
  unfold after. destruct c as [uuid p|p|id]; simpl.
  - right. rewrite handleAddSmtpConfig_eq. by eexists.
  - rewrite handleUpdateSmtpConfig_eq.
    destruct (findIndex _ _) as [[i found]|]; [right; by eexists | by left].
  - rewrite handleDeleteSmtpConfig_eq.
    destruct (findIndex _ _) as [[i found]|]; [|by left].
    destruct (length (configsOf w) =? 1); [by left | right; by eexists].
Qed.

Lemma smtpCall_defaultServers c w :
  defaultServers w <> [] -> defaultServers (after (smtpCall c) w) <> [].
Proof.
  intros Hne. pose proof (smtpCall_nonempty c w) as Hconfigs.
  destruct (smtpCall_world c w) as [->|(l & Hw)]; [done|].
  rewrite Hw in *. rewrite committed_defaultServers.
  rewrite !configsOf_eq in Hconfigs. unfold committed in Hconfigs.
  destruct (configFile w) eqn:E; [done|].
  simpl in Hconfigs. rewrite E in Hconfigs. by apply Hconfigs.
Qed.

Lemma getDefaultSmtpConfig_chosen w :
  getDefaultSmtpConfig w = (Ok (chosenConfig None w), w).
Proof. exact (lookupAgain_eq None w). Qed.

Lemma chosenConfig_default w :
  defaultServers w <> [] -> is_Some (chosenConfig None w).
Proof.
  intros Hne. unfold chosenConfig. simpl.
  destruct (List.find _ _); [done|]. simpl.
  destruct (head (configsOf w)); [done|]. simpl.
  by destruct (defaultServers w).
Qed.

Lemma logAll_trace isoString entry rs w :
  trace (logAll isoString entry rs w) = trace w.
Proof.
  by destruct (logAll_same isoString entry rs w)
    as (_ & _ & _ & _ & _ & _ & ->).
Qed.

(** X7.  The module-level list of default servers, which handlers
    change in place when the configuration document cannot be read, is
    never emptied by a sequence of add, update and delete calls.  Hence
    [getDefaultSmtpConfig] always finds a configuration, and a send
    that names no SMTP configuration always reaches the delivery
    collaborator, exactly once. *)
Theorem default_config_always_resolves
    (inherited : string -> Val)
    (deliver : list Event -> Transport -> MailOptions -> Thrown + string)
    (isoString : Z -> string)
    (calls : list SmtpCall) (w : World.t) :
  defaultServers w <> [] ->
  defaultServers (afterSmtpCalls calls w) <> [] /\
  (exists c,
     getDefaultSmtpConfig (afterSmtpCalls calls w) =
       (Ok (Some c), afterSmtpCalls calls w)) /\
  (forall data,
     exists result w' t m,
       sendEmail inherited deliver isoString data None
         (afterSmtpCalls calls w) = (Ok result, w') /\
       trace w' = trace (afterSmtpCalls calls w) ++ [SendMail t m]).
Proof.
  intros Hne.
  assert (defaultServers (afterSmtpCalls calls w) <> []) as Hafter.
  { revert w Hne. induction calls as [|c calls IH]; intros w Hne; [done|].
    rewrite afterSmtpCalls_cons. by apply IH, smtpCall_defaultServers. }
  destruct (chosenConfig_default _ Hafter) as [c Hc].
  split; [done|]. split.
  - exists c. by rewrite getDefaultSmtpConfig_chosen, Hc.
  - intros data. rewrite (sendEmail_eq inherited deliver isoString), Hc.
    destruct (deliver _ _ _) as [e|messageId];
      eexists _, _, _, _; (split; [reflexivity|]);
      by rewrite logAll_trace.
Qed.

Lemma default_config_always_resolves_witness :
  exists c,
    getDefaultSmtpConfig
      (afterSmtpCalls [DeleteSmtp "aws-ses"]
         (setConfigFile World.initial None)) =
    (Ok (Some c),
     afterSmtpCalls [DeleteSmtp "aws-ses"]
       (setConfigFile World.initial None)).
Proof.
  apply (default_config_always_resolves Examples.noPrototype
           Examples.refusing Examples.epoch [DeleteSmtp "aws-ses"]
           (setConfigFile World.initial None)).
  discriminate.
Defined.

(** ** Adding an entry and deleting it again *)

Lemma handleDeleteSmtpConfig_found id w i found :
  findIndex id (configsOf w) = Some (i, found) ->
  length (configsOf w) <> 1 ->
  handleDeleteSmtpConfig id w =
  (Ok (Status true "SMTP configuration deleted successfully"),
   committed (promoteFirst (smtp_isDefault found) (delete i (configsOf w))) w).
Proof.
  intros H Hlen. rewrite handleDeleteSmtpConfig_eq, H.
  by apply Nat.eqb_neq in Hlen as ->.
Qed.



(** ** A save that fails *)

Lemma saveEmailTemplate_fails t w :
  writeFails w (TemplateFile (tpl_id t +:+ ".json")) = true ->
  saveEmailTemplate t w = (Ok false, w).
Proof.
  intros H. unfold saveEmailTemplate, tryCatch, bind, writeJsonTemplate.
  by rewrite H.
Qed.

(** X11.  When the configuration document is readable and cannot be
    written, the three SMTP handlers still answer [success: true],
    while the world, and with it the collection that the next call
    reads, is exactly as before.  Likewise [add-email-template]
    answers with the new template when its file cannot be written. *)
Theorem failed_save_reports_success (w : World.t) :
  takesEffect w = false ->
  (forall uuid p,
     handleAddSmtpConfig uuid p w = (Ok (ConfigOk (newConfig uuid p)), w)) /\
  (forall p i found,
     findIndex (us_id p) (configsOf w) = Some (i, found) ->
     handleUpdateSmtpConfig p w =
       (Ok (ConfigOk (updatedConfig p found)), w)) /\
  (forall id i found,
     findIndex id (configsOf w) = Some (i, found) ->
     length (configsOf w) <> 1 ->
     handleDeleteSmtpConfig id w =
       (Ok (Status true "SMTP configuration deleted successfully"), w)) /\
  (forall uuid p,
     writeFails w (TemplateFile (uuid +:+ ".json")) = true ->
     default false (at_isDefault p) = false ->
     handleAddEmailTemplate uuid p w =
       (Ok (TemplateOk (TemplateModel.newTemplate uuid p)), w)).
Proof.
  intros Heff. repeat split.
  - intros uuid p.
    by rewrite handleAddSmtpConfig_eq, (committed_ineffective _ w Heff).
  - intros p i found Hfind.
    by rewrite (handleUpdateSmtpConfig_found p w i found Hfind),
         (committed_ineffective _ w Heff).
  - intros id i found Hfind Hlen.
    by rewrite (handleDeleteSmtpConfig_found id w i found Hfind Hlen),
         (committed_ineffective _ w Heff).
  - intros uuid p Hfails Hflag.
    destruct (getEmailTemplatesRef_templatesOf w) as (ref & Href).
    unfold handleAddEmailTemplate, tryCatch, bind at 1. rewrite Href.
    fold (TemplateModel.newTemplate uuid p).
    assert (tpl_isDefault (TemplateModel.newTemplate uuid p) = false) as ->
      by done.
    unfold bind, ret.
    by rewrite (saveEmailTemplate_fails (TemplateModel.newTemplate uuid p)
                  w Hfails).
Qed.

Lemma failed_save_reports_success_witness :
  handleAddSmtpConfig "relay" Examples.addDefaultSmtp Cases.readOnlyWorld =
    (Ok (ConfigOk (newConfig "relay" Examples.addDefaultSmtp)),
     Cases.readOnlyWorld) /\
  handleDeleteSmtpConfig "gmail" Cases.readOnlyWorld =
    (Ok (Status true "SMTP configuration deleted successfully"),
     Cases.readOnlyWorld).
Proof.
  destruct (failed_save_reports_success Cases.readOnlyWorld eq_refl)
    as (Hadd & _ & Hdel & _).
  split.
  - exact (Hadd "relay" Examples.addDefaultSmtp).
  - exact (Hdel "gmail" 1 GMAIL eq_refl ltac:(discriminate)).
Defined.

End SmtpMore.
(* ===================================================================== *)
(** * More on the template handlers                                       *)
(* ===================================================================== *)

Module TemplateMore.
Import Js Config Mail World Run Run.Notations Store EmailService.
Import RequestHandler TemplateModel StoreViews.
Import TemplateStore TemplateFacts StoreMore.

Lemma stored_healthy w l : Stored w l -> healthy w.
Proof. intros (dir & ? & ? & _ & ?). by exists dir. Qed.

(** X12.  On a healthy template store every sequence of add, update
    and delete calls leaves a healthy store, in which every template
    sits in the file named after its id, and no two templates of the
    collection read back have the same id (an added template whose id
    is taken replaces the template that has it). *)
Theorem template_ids_stay_unique (calls : list TemplateCall) (w : World.t) :
  healthy w ->
  healthy (afterTemplateCalls calls w) /\
  NoDup (tpl_id <$> templatesOf (afterTemplateCalls calls w)).
Proof.
  intros Hh. destruct (healthy_stored w Hh) as (l & Hl).
  destruct (templateCalls_stored calls w l Hl) as (l' & Hl').
  split; [by apply (stored_healthy _ l')|].
  rewrite (stored_templatesOf _ _ Hl'). by apply (stored_NoDup _ _ Hl').
Qed.

Lemma template_ids_stay_unique_witness :
  NoDup (tpl_id <$>
           templatesOf
             (afterTemplateCalls
                [AddTemplate "default" Cases.welcome;
                 UpdateTemplate Cases.renameIe] World.initial)).
Proof.
  apply (template_ids_stay_unique
           [AddTemplate "default" Cases.welcome;
            UpdateTemplate Cases.renameIe] World.initial).
  eexists. split; [reflexivity|]. split; [vm_compute; reflexivity|].
  intros file. reflexivity.
Defined.

(** ** Adding a template and deleting it again *)







(** ** Updating a template *)





End TemplateMore.

(* ===================================================================== *)
(** * Claims about the default flag                                       *)
(* ===================================================================== *)

Module DefaultClaims.
Import Js Config World Run Store RequestHandler.
Import StoreFacts SmtpFacts TemplateStore TemplateFacts.
Import SmtpModel TemplateModel SmtpViews Examples.
Import StoreMore SmtpMore TemplateMore.

(** ** SMTP configurations, call by call *)

Lemma added_nonempty c l : added c l <> [].
Proof. unfold added. by destruct (if smtp_isDefault c then _ else _). Qed.

Lemma after_add uuid p w :
  after (smtpCall (AddSmtp uuid p)) w =
  committed (added (newConfig uuid p) (configsOf w)) w.
Proof. unfold after. simpl. by rewrite handleAddSmtpConfig_eq. Qed.

Lemma after_update p w :
  after (smtpCall (UpdateSmtp p)) w =
  match findIndex (us_id p) (configsOf w) with
  | Some (i, found) => committed (updated p i found (configsOf w)) w
  | None => w
  end.
Proof.
  unfold after. simpl. rewrite handleUpdateSmtpConfig_eq.
  by destruct (findIndex _ _) as [[i found]|].
Qed.

Lemma after_delete id w :
  after (smtpCall (DeleteSmtp id)) w =
  match findIndex id (configsOf w) with
  | Some (i, found) =>
      if length (configsOf w) =? 1 then w
      else committed (promoteFirst (smtp_isDefault found)
                        (delete i (configsOf w))) w
  | None => w
  end.
Proof.
  unfold after. simpl. rewrite handleDeleteSmtpConfig_eq.
  destruct (findIndex _ _) as [[i found]|]; [|done].
  by destruct (length (configsOf w) =? 1).
Qed.

(** Whether the write is seen or not, the invariant holds of the
    collection read next when it holds of the one written and of the
    one that was there. *)
Lemma oneDefaultSmtp_committed l w :
  oneDefaultSmtp (configsOf w) -> oneDefaultSmtp l ->
  oneDefaultSmtp (configsOf (committed l w)).
Proof.
  intros Hw Hl. by destruct (committed_configsOf l w) as [->| ->].
Qed.

Lemma oneDefaultSmtp_updated p i found l :
  l !! i = Some found -> oneDefaultSmtp l ->
  (us_isDefault p = Some false -> smtp_isDefault found = false) ->
  oneDefaultSmtp (updated p i found l).
Proof.
  intros Hi Hone Hk _. rewrite (defaultConfigs_updated p i found l Hi).
  assert (defaultConfigs l = 1) as Hl.
  { apply Hone. intros ->. by rewrite lookup_nil in Hi. }
  destruct (us_isDefault p) as [[]|]; [done| |done].
  by rewrite Hk, Hl.
Qed.

Lemma oneDefaultSmtp_deleted i found l :
  l !! i = Some found -> length l <> 1 -> oneDefaultSmtp l ->
  oneDefaultSmtp (promoteFirst (smtp_isDefault found) (delete i l)).
Proof.
  intros Hi Hlen Hone _.
  assert (defaultConfigs l = 1) as Hl.
  { apply Hone. intros ->. by rewrite lookup_nil in Hi. }
  rewrite (defaultConfigs_deleted i found l Hi Hlen).
  pose proof (defaultConfigs_delete i found l Hi) as Hdel.
  destruct (smtp_isDefault found); [|done].
  destruct (delete i l) as [|first others] eqn:E.
  { apply (f_equal length) in E.
    rewrite length_delete in E by (by eexists).
    apply lookup_lt_Some in Hi. simpl in E. lia. }
  rewrite defaultConfigs_cons in Hdel.
  destruct (smtp_isDefault first); lia.
Qed.

Lemma smtpCall_keeps c w :
  oneDefaultSmtp (configsOf w) -> keepsDefaultSmtp (configsOf w) c = true ->
  oneDefaultSmtp (configsOf (after (smtpCall c) w)).
Proof.
  intros Hone Hk. destruct c as [uuid p|p|id].
  - rewrite after_add. apply oneDefaultSmtp_committed; [done|].
    intros _. rewrite defaultConfigs_added.
    change (smtp_isDefault (newConfig uuid p))
      with (default false (as_isDefault p)).
    simpl in Hk. destruct (default false (as_isDefault p)); [done|].
    simpl in Hk. apply negb_true_iff, Nat.eqb_neq in Hk.
    apply Hone. intros Hnil. by rewrite Hnil in Hk.
  - rewrite after_update.
    destruct (findIndex (us_id p) (configsOf w)) as [[i found]|] eqn:Hf;
      [|done].
    apply oneDefaultSmtp_committed; [done|].
    apply oneDefaultSmtp_updated; [by eapply findIndex_lookup|done|].
    intros Hp. simpl in Hk. rewrite Hp, Hf in Hk.
    by apply negb_true_iff.
  - rewrite after_delete.
    destruct (findIndex id (configsOf w)) as [[i found]|] eqn:Hf; [|done].
    destruct (Nat.eqb_spec (length (configsOf w)) 1) as [|Hlen]; [done|].
    apply oneDefaultSmtp_committed; [done|].
    apply oneDefaultSmtp_deleted; [by eapply findIndex_lookup|done..].
Qed.

Lemma smtpCall_breaks c w :
  takesEffect w = true ->
  oneDefaultSmtp (configsOf w) -> keepsDefaultSmtp (configsOf w) c = false ->
  configsOf (after (smtpCall c) w) <> [] /\
  defaultConfigs (configsOf (after (smtpCall c) w)) = 0.
Proof.
  intros Heff Hone Hk. destruct c as [uuid p|p|id]; [| |done].
  - rewrite after_add, committed_effective by done.
    split; [apply added_nonempty|].
    rewrite defaultConfigs_added.
    change (smtp_isDefault (newConfig uuid p))
      with (default false (as_isDefault p)).
    simpl in Hk. apply orb_false_iff in Hk as [-> Hk].
    apply negb_false_iff, Nat.eqb_eq in Hk.
    by rewrite (nil_length_inv _ Hk).
  - simpl in Hk. rewrite after_update.
    destruct (us_isDefault p) as [[]|] eqn:Hp; [done| |done].
    destruct (findIndex (us_id p) (configsOf w)) as [[i found]|] eqn:Hf;
      [|done].
    apply negb_false_iff in Hk.
    pose proof (findIndex_lookup _ _ _ _ Hf) as Hi.
    rewrite committed_effective by done.
    split.
    + intros Hnil%(f_equal length).
      rewrite (updated_length p i found _ Hi) in Hnil.
      apply lookup_lt_Some in Hi. simpl in Hnil. lia.
    + rewrite (defaultConfigs_updated p i found _ Hi), Hp, Hk.
      rewrite Hone; [done|]. intros Hnil. by rewrite Hnil, lookup_nil in Hi.
Qed.

Lemma smtpCalls_keep calls : forall w,
  oneDefaultSmtp (configsOf w) -> smtpCallsKeep calls w = true ->
  oneDefaultSmtp (configsOf (afterSmtpCalls calls w)).
Proof.
  induction calls as [|c calls IH]; intros w Hone Hk; [done|].
  simpl in Hk. apply andb_true_iff in Hk as [Hc Hk].
  simpl. apply IH; [by apply smtpCall_keeps|done].
Qed.

(** ** SMTP configurations: when a run ends in order *)

Lemma inOrderSmtp_spec l : inOrderSmtp l = true <-> oneDefaultSmtp l.
Proof.
  unfold oneDefaultSmtp. destruct l as [|c l]; simpl; [done|].
  rewrite Nat.eqb_eq. split; [by intros ? _ | intros H; by apply H].
Qed.

Lemma smtpCall_takesEffect c w :
  takesEffect (after (smtpCall c) w) = takesEffect w.
Proof.
  destruct (smtpCall_world c w) as [->|[l ->]]; [done|].
  apply committed_takesEffect.
Qed.

Lemma smtpCall_sets c w :
  takesEffect w = true -> setsDefaultSmtp (configsOf w) c = true ->
  oneDefaultSmtp (configsOf (after (smtpCall c) w)).
Proof.
  intros Heff Hs _. destruct c as [uuid p|p|id]; [| |done]; simpl in Hs.
  - rewrite after_add, committed_effective, defaultConfigs_added by done.
    change (smtp_isDefault (newConfig uuid p))
      with (default false (as_isDefault p)). by rewrite Hs.
  - rewrite after_update.
    destruct (us_isDefault p) as [[]|] eqn:Hp; [|done..].
    destruct (findIndex (us_id p) (configsOf w)) as [[i found]|] eqn:Hf;
      [|done].
    rewrite committed_effective by done.
    rewrite (defaultConfigs_updated p i found _ (findIndex_lookup _ _ _ _ Hf)).
    by rewrite Hp.
Qed.

Lemma found_not_default i found l :
  l !! i = Some found -> defaultConfigs l = 0 -> smtp_isDefault found = false.
Proof.
  intros Hi Hz. rewrite (defaultConfigs_split i found l Hi) in Hz.
  destruct (smtp_isDefault found); [lia|done].
Qed.

Lemma smtpCall_stays c w :
  takesEffect w = true ->
  configsOf w <> [] -> defaultConfigs (configsOf w) = 0 ->
  setsDefaultSmtp (configsOf w) c = false ->
  configsOf (after (smtpCall c) w) <> [] /\
  defaultConfigs (configsOf (after (smtpCall c) w)) = 0.
Proof.
  intros Heff Hne Hz Hs. destruct c as [uuid p|p|id]; simpl in Hs.
  - rewrite after_add, committed_effective by done.
    split; [apply added_nonempty|]. rewrite defaultConfigs_added.
    change (smtp_isDefault (newConfig uuid p))
      with (default false (as_isDefault p)). by rewrite Hs.
  - rewrite after_update.
    destruct (findIndex (us_id p) (configsOf w)) as [[i found]|] eqn:Hf;
      [|done].
    pose proof (findIndex_lookup _ _ _ _ Hf) as Hi.
    rewrite committed_effective by done. split.
    + intros Hnil%(f_equal length).
      rewrite (updated_length p i found _ Hi) in Hnil.
      apply lookup_lt_Some in Hi. simpl in Hnil. lia.
    + rewrite (defaultConfigs_updated p i found _ Hi), Hz.
      by destruct (us_isDefault p) as [[]|].
  - rewrite after_delete.
    destruct (findIndex id (configsOf w)) as [[i found]|] eqn:Hf; [|done].
    pose proof (findIndex_lookup _ _ _ _ Hf) as Hi.
    destruct (Nat.eqb_spec (length (configsOf w)) 1) as [|Hlen]; [done|].
    rewrite committed_effective by done. split.
    + intros Hnil%(f_equal length).
      rewrite promoteFirst_length, length_delete in Hnil by (by eexists).
      apply lookup_lt_Some in Hi. simpl in Hnil. lia.
    + rewrite (defaultConfigs_deleted i found _ Hi Hlen).
      by rewrite (found_not_default i found _ Hi Hz).
Qed.

Lemma smtpCall_order c w :
  takesEffect w = true -> defaultConfigs (configsOf w) <= 1 ->
  inOrderSmtp (configsOf (after (smtpCall c) w)) =
  setsDefaultSmtp (configsOf w) c ||
  inOrderSmtp (configsOf w) && keepsDefaultSmtp (configsOf w) c.
Proof.
  intros Heff Hle.
  destruct (setsDefaultSmtp (configsOf w) c) eqn:Hs.
  { by apply inOrderSmtp_spec, smtpCall_sets. }
  simpl. destruct (inOrderSmtp (configsOf w)) eqn:Hin.
  - apply inOrderSmtp_spec in Hin. simpl.
    destruct (keepsDefaultSmtp (configsOf w) c) eqn:Hk.
    + by apply inOrderSmtp_spec, smtpCall_keeps.
    + destruct (smtpCall_breaks c w Heff Hin Hk) as [Hne Hzero].
      destruct (configsOf (after (smtpCall c) w)); [done|].
      simpl. by rewrite Hzero.
  - simpl. destruct (configsOf w) as [|c0 l0] eqn:Hl; [done|].
    simpl in Hin. apply Nat.eqb_neq in Hin.
    destruct (smtpCall_stays c w Heff) as [Hne Hzero];
      [by rewrite Hl | rewrite Hl; lia | by rewrite Hl |].
    destruct (configsOf (after (smtpCall c) w)); [done|].
    simpl. by rewrite Hzero.
Qed.

Lemma smtpCalls_order calls : forall w,
  takesEffect w = true -> defaultConfigs (configsOf w) <= 1 ->
  inOrderSmtp (configsOf (afterSmtpCalls calls w)) =
  smtpOrderAfter calls w (inOrderSmtp (configsOf w)).
Proof.
  induction calls as [|c calls IH]; intros w Heff Hle; [done|].
  simpl. rewrite <- (smtpCall_order c w Heff Hle).
  apply IH; [by rewrite smtpCall_takesEffect | by apply smtpCall_at_most_one].
Qed.

(** ** Templates, call by call *)

Lemma upsert_found t x l :
  NoDup (tpl_id <$> l) -> List.find (hasId (tpl_id t)) l = Some x ->
  upsert t l <> [] /\
  defaultTemplates (upsert t l) + flag x = defaultTemplates l + flag t.
Proof.
  intros Hnd Hfind.
  destruct (found_split _ _ _ Hnd Hfind) as (l1 & l2 & -> & Hid & _ & _).
  rewrite (upsert_middle t x l1 l2 Hnd) by done.
  split; [by destruct l1|].
  rewrite !defaultTemplates_app, !defaultTemplates_cons. lia.
Qed.

Lemma upsert_fresh t l :
  List.find (hasId (tpl_id t)) l = None -> upsert t l = l ++ [t].
Proof.
  intros Hfind. unfold upsert.
  destruct (existsb (hasId (tpl_id t)) l) eqn:Hex; [|done].
  apply existsb_exists in Hex as (x & Hin & Hx).
  pose proof (find_none _ _ Hfind x Hin) as Hno. congruence.
Qed.

Lemma found_flag id l t :
  List.find (hasId id) l = Some t -> flag t <= defaultTemplates l.
Proof.
  intros (l1 & l2 & -> & _)%find_split.
  rewrite defaultTemplates_app, defaultTemplates_cons. lia.
Qed.

Lemma addedTemplates_count t l :
  NoDup (tpl_id <$> l) ->
  addedTemplates t l <> [] /\
  defaultTemplates (addedTemplates t l) =
  if tpl_isDefault t then 1
  else defaultTemplates l -
       match List.find (hasId (tpl_id t)) l with
       | Some x => flag x
       | None => 0
       end.
Proof.
  intros Hnd. unfold addedTemplates.
  destruct (tpl_isDefault t) eqn:Hd.
  - assert (NoDup (tpl_id <$> map (demote (fun _ => true)) l)) as Hnd'
      by (by rewrite demoted_ids).
    pose proof (defaultTemplates_demoted (fun _ => true) l
                  (fun _ _ => eq_refl)) as Hzero.
    destruct (List.find (hasId (tpl_id t)) (map (demote (fun _ => true)) l))
      as [x|] eqn:Hfind.
    + destruct (upsert_found t x _ Hnd' Hfind) as [Hne Hcount].
      pose proof (found_flag _ _ _ Hfind) as Hx.
      split; [done|]. rewrite Hzero, Hd in Hcount. rewrite Hzero in Hx. lia.
    + rewrite (upsert_fresh t _ Hfind).
      split; [by destruct (map _ l)|].
      rewrite defaultTemplates_app, defaultTemplates_cons, Hzero, Hd.
      by rewrite defaultTemplates_nil.
  - destruct (List.find (hasId (tpl_id t)) l) as [x|] eqn:Hfind.
    + destruct (upsert_found t x _ Hnd Hfind) as [Hne Hcount].
      split; [done|]. rewrite Hd in Hcount. lia.
    + rewrite (upsert_fresh t _ Hfind).
      split; [by destruct l|].
      rewrite defaultTemplates_app, defaultTemplates_cons, Hd.
      rewrite defaultTemplates_nil. lia.
Qed.

Lemma updatedTemplates_count p t l :
  NoDup (tpl_id <$> l) -> List.find (hasId (ut_id p)) l = Some t ->
  updatedTemplates p t l <> [] /\
  defaultTemplates (updatedTemplates p t l) =
  match flagChange p t with
  | Some true => 1
  | Some false => defaultTemplates l - 1
  | None => defaultTemplates l
  end.
Proof.
  intros Hnd Hfind.
  destruct (found_split _ _ _ Hnd Hfind) as (l1 & l2 & -> & Hid & H1 & H2).
  split.
  - unfold updatedTemplates, upsert.
    destruct (existsb _ _).
    + destruct (match flagChange p t with Some true => _ | _ => _ end)
        eqn:E; [|done].
      destruct (flagChange p t) as [[]|]; by destruct l1.
    + by destruct (match flagChange p t with Some true => _ | _ => _ end).
  - rewrite (updatedTemplates_split p l1 t l2 Hnd Hid H1 H2).
    destruct (flagChange p t) as [[]|] eqn:Hfc; [done| |done].
    assert (tpl_isDefault t = true) as Ht.
    { unfold flagChange in Hfc. destruct (ut_isDefault p) as [b|]; [|done].
      destruct b, (tpl_isDefault t); by simpl in Hfc. }
    rewrite defaultTemplates_app, defaultTemplates_cons, Ht. lia.
Qed.

Lemma deletedTemplates_count id t l :
  NoDup (tpl_id <$> l) -> List.find (hasId id) l = Some t ->
  oneDefaultTemplate l -> oneDefaultTemplate (deletedTemplates id t l).
Proof.
  intros Hnd Hfind Hone.
  destruct (found_split _ _ _ Hnd Hfind) as (l1 & l2 & Hl & Hid & H1 & H2).
  assert (defaultTemplates l = 1) as Hcount.
  { apply Hone. subst l. by destruct l1. }
  destruct (tpl_isDefault t && (1 <? length l)) eqn:Hcond.
  - apply andb_true_iff in Hcond as [Hd Hlen%Nat.ltb_lt].
    destruct (deletedTemplates_promotes id t l Hnd Hd Hlen)
      as (first & others & Hrest & ->).
    intros _. subst l. rewrite (without_found id l1 t l2 Hid H1 H2) in Hrest.
    rewrite defaultTemplates_app, defaultTemplates_cons, Hd in Hcount.
    pose proof (defaultTemplates_app l1 l2) as Hsum.
    rewrite Hrest, defaultTemplates_cons in Hsum.
    rewrite defaultTemplates_cons. simpl. lia.
  - unfold deletedTemplates. rewrite Hcond. subst l.
    rewrite (without_found id l1 t l2 Hid H1 H2).
    rewrite defaultTemplates_app, defaultTemplates_cons in Hcount.
    intros Hne. rewrite defaultTemplates_app.
    apply andb_false_iff in Hcond as [Hd|Hlen].
    + rewrite Hd in Hcount. lia.
    + apply Nat.ltb_ge in Hlen. rewrite length_app in Hlen.
      simpl in Hlen. destruct l1, l2; simpl in *; done || lia.
Qed.

Lemma nextTemplates_keeps c l :
  NoDup (tpl_id <$> l) ->
  oneDefaultTemplate l -> keepsDefaultTemplate l c = true ->
  oneDefaultTemplate (nextTemplates c l).
Proof.
  intros Hnd Hone Hk. destruct c as [uuid p|p|id]; simpl in *.
  - intros _.
    destruct (addedTemplates_count (newTemplate uuid p) l Hnd) as [_ ->].
    change (tpl_isDefault (newTemplate uuid p))
      with (default false (at_isDefault p)).
    change (tpl_id (newTemplate uuid p)) with uuid.
    destruct (default false (at_isDefault p)); [done|]. simpl in Hk.
    apply andb_true_iff in Hk as [Hlen%negb_true_iff%Nat.eqb_neq Hflag].
    rewrite Hone by (by intros ->).
    destruct (List.find (hasId uuid) l) as [x|]; [|done].
    apply negb_true_iff in Hflag. by rewrite Hflag.
  - destruct (List.find (hasId (ut_id p)) l) as [t|] eqn:Hfind; [|done].
    intros _.
    destruct (updatedTemplates_count p t l Hnd Hfind) as [_ ->].
    assert (defaultTemplates l = 1) as Hcount.
    { apply Hone. intros ->. done. }
    unfold flagChange.
    destruct (ut_isDefault p) as [[]|]; [|by apply negb_true_iff in Hk as ->|done].
    by destruct (negb (Bool.eqb true (tpl_isDefault t))).
  - destruct (List.find (hasId id) l) as [t|] eqn:Hfind; [|done].
    by apply deletedTemplates_count.
Qed.

Lemma nextTemplates_breaks c l :
  NoDup (tpl_id <$> l) ->
  oneDefaultTemplate l -> keepsDefaultTemplate l c = false ->
  nextTemplates c l <> [] /\ defaultTemplates (nextTemplates c l) = 0.
Proof.
  intros Hnd Hone Hk. destruct c as [uuid p|p|id]; simpl in *; [| |done].
  - destruct (addedTemplates_count (newTemplate uuid p) l Hnd) as [Hne ->].
    split; [done|].
    change (tpl_isDefault (newTemplate uuid p))
      with (default false (at_isDefault p)).
    change (tpl_id (newTemplate uuid p)) with uuid.
    apply orb_false_iff in Hk as [-> Hk].
    destruct (Nat.eqb_spec (length l) 0) as [Hz|Hnz].
    + by rewrite (nil_length_inv _ Hz).
    + simpl in Hk. rewrite Hone by (by intros ->).
      destruct (List.find (hasId uuid) l) as [x|]; [|done].
      apply negb_false_iff in Hk. by rewrite Hk.
  - destruct (ut_isDefault p) as [[]|] eqn:Hp; [done| |done].
    destruct (List.find (hasId (ut_id p)) l) as [t|] eqn:Hfind; [|done].
    apply negb_false_iff in Hk.
    destruct (updatedTemplates_count p t l Hnd Hfind) as [Hne ->].
    split; [done|]. unfold flagChange. rewrite Hp, Hk. simpl.
    rewrite Hone; [done|]. by intros ->.
Qed.

Lemma templateCalls_keep calls : forall w l,
  Stored w l -> oneDefaultTemplate l -> templateCallsKeep calls w = true ->
  oneDefaultTemplate (templatesOf (afterTemplateCalls calls w)).
Proof.
  induction calls as [|c calls IH]; intros w l Hst Hone Hk.
  - simpl. by rewrite (stored_templatesOf w l Hst).
  - simpl in *. apply andb_true_iff in Hk as [Hc Hk].
    rewrite (stored_templatesOf w l Hst) in Hc.
    apply (IH _ _ (templateCall_stored c w l Hst)); [|done].
    apply nextTemplates_keeps; [by eapply stored_NoDup|done..].
Qed.

(** ** Templates: when a run ends in order *)

Lemma inOrderTemplates_spec l :
  inOrderTemplates l = true <-> oneDefaultTemplate l.
Proof.
  unfold oneDefaultTemplate. destruct l as [|t l]; simpl; [done|].
  rewrite Nat.eqb_eq. split; [by intros ? _ | intros H; by apply H].
Qed.

Lemma nextTemplates_sets c l :
  NoDup (tpl_id <$> l) -> defaultTemplates l <= 1 ->
  setsDefaultTemplate l c = true ->
  oneDefaultTemplate (nextTemplates c l).
Proof.
  intros Hnd Hle Hs. destruct c as [uuid p|p|id]; simpl in *.
  - intros _.
    destruct (addedTemplates_count (newTemplate uuid p) l Hnd) as [_ ->].
    change (tpl_isDefault (newTemplate uuid p))
      with (default false (at_isDefault p)). by rewrite Hs.
  - destruct (ut_isDefault p) as [[]|] eqn:Hp; [|done..].
    destruct (List.find (hasId (ut_id p)) l) as [t|] eqn:Hfind; [|done].
    intros _.
    destruct (updatedTemplates_count p t l Hnd Hfind) as [_ ->].
    pose proof (found_flag _ _ _ Hfind) as Hflag.
    unfold flagChange. rewrite Hp.
    destruct (tpl_isDefault t); simpl; [lia|done].
  - destruct l as [|t [|? ?]]; [done| |done].
    simpl. rewrite Hs. unfold deletedTemplates.
    change (1 <? length [t]) with false. rewrite andb_false_r.
    unfold without. simpl. rewrite Hs. simpl. by intros [].
Qed.

Lemma nextTemplates_stays c l :
  NoDup (tpl_id <$> l) ->
  l <> [] -> defaultTemplates l = 0 ->
  setsDefaultTemplate l c = false ->
  nextTemplates c l <> [] /\ defaultTemplates (nextTemplates c l) = 0.
Proof.
  intros Hnd Hne Hz Hs. destruct c as [uuid p|p|id]; simpl in *.
  - destruct (addedTemplates_count (newTemplate uuid p) l Hnd) as [Hne' ->].
    split; [done|].
    change (tpl_isDefault (newTemplate uuid p))
      with (default false (at_isDefault p)). rewrite Hs, Hz. done.
  - destruct (List.find (hasId (ut_id p)) l) as [t|] eqn:Hfind; [|done].
    destruct (updatedTemplates_count p t l Hnd Hfind) as [Hne' ->].
    split; [done|].
    pose proof (found_flag _ _ _ Hfind) as Hflag. rewrite Hz in Hflag.
    unfold flagChange.
    destruct (ut_isDefault p) as [[]|]; [done| |done].
    destruct (tpl_isDefault t); simpl in *; [lia|done].
  - destruct (List.find (hasId id) l) as [t|] eqn:Hfind; [|done].
    pose proof (found_flag _ _ _ Hfind) as Hflag. rewrite Hz in Hflag.
    assert (tpl_isDefault t = false) as Ht
      by (destruct (tpl_isDefault t); [lia|done]).
    unfold deletedTemplates. rewrite Ht. simpl.
    destruct (found_split _ _ _ Hnd Hfind) as (l1 & l2 & Hl & Hid & H1 & H2).
    subst l. rewrite (without_found id l1 t l2 Hid H1 H2).
    split.
    + intros Hnil. apply app_eq_nil in Hnil as [-> ->].
      simpl in Hs. by rewrite (proj2 (hasId_true id t) Hid) in Hs.
    + rewrite defaultTemplates_app, defaultTemplates_cons in Hz.
      rewrite defaultTemplates_app. lia.
Qed.

Lemma nextTemplates_order c l :
  NoDup (tpl_id <$> l) -> defaultTemplates l <= 1 ->
  inOrderTemplates (nextTemplates c l) =
  setsDefaultTemplate l c ||
  inOrderTemplates l && keepsDefaultTemplate l c.
Proof.
  intros Hnd Hle.
  destruct (setsDefaultTemplate l c) eqn:Hs.
  { by apply inOrderTemplates_spec, nextTemplates_sets. }
  simpl. destruct (inOrderTemplates l) eqn:Hin.
  - apply inOrderTemplates_spec in Hin. simpl.
    destruct (keepsDefaultTemplate l c) eqn:Hk.
    + by apply inOrderTemplates_spec, nextTemplates_keeps.
    + destruct (nextTemplates_breaks c l Hnd Hin Hk) as [Hne Hzero].
      destruct (nextTemplates c l); [done|]. simpl. by rewrite Hzero.
  - simpl. destruct l as [|t0 l0] eqn:Hl; [done|].
    simpl in Hin. apply Nat.eqb_neq in Hin.
    destruct (nextTemplates_stays c (t0 :: l0)) as [Hne Hzero];
      [done | done | lia | done |].
    destruct (nextTemplates c (t0 :: l0)); [done|]. simpl. by rewrite Hzero.
Qed.

Lemma templateCalls_order calls : forall w l,
  Stored w l -> defaultTemplates l <= 1 ->
  inOrderTemplates (templatesOf (afterTemplateCalls calls w)) =
  templateOrderAfter calls w (inOrderTemplates l).
Proof.
  induction calls as [|c calls IH]; intros w l Hst Hle.
  - simpl. by rewrite (stored_templatesOf w l Hst).
  - simpl. rewrite (stored_templatesOf w l Hst).
    pose proof (stored_NoDup w l Hst) as Hnd.
    rewrite <- (nextTemplates_order c l Hnd Hle).
    apply (IH _ _ (templateCall_stored c w l Hst)).
    by apply nextTemplates_at_most_one.
Qed.

(** C1, counterexample.  From the initial collection (two entries, one
    of them default) a single [update-smtp-config] that passes
    [isDefault: false] for the default entry leaves two entries, none of
    them default. *)
Lemma default_flag_counterexample :
  defaultConfigs (configsOf World.initial) = 1 /\
  length (configsOf
            (afterSmtpCalls [UpdateSmtp clearAwsDefault] World.initial)) = 2 /\
  defaultConfigs
    (configsOf
       (afterSmtpCalls [UpdateSmtp clearAwsDefault] World.initial)) = 0.
Proof. vm_compute. repeat split. Qed.

(** C1, as amended.  A collection is in order when it is empty or has
    exactly one entry with [isDefault = true]: the SMTP configurations
    of a world [ws], the templates of a world [wt] with a healthy
    template store.  A run of add, update and delete calls that starts
    in order ends in order, so that a collection it leaves non-empty
    has exactly one default entry, provided no call of the run, on the
    collection it finds, is an update that passes [isDefault: false]
    for the entry that has the flag, an add without the flag to an
    empty collection or, for templates, an add without the flag under
    the id of the template that has it.  No more than that has to be
    excluded: a run that starts with at most one default entry (and
    whose changes take effect, for SMTP configurations) ends in order
    exactly when [smtpOrderAfter], respectively [templateOrderAfter],
    says so, that is when the run starts in order or has a call that
    sets the default (an add or an update of an entry that is found,
    with [isDefault: true]; for templates also the deletion of the
    only template), and no call after the last such call is one of
    those excluded above.  Whatever the calls, a run that starts with
    at most one default entry ends with at most one. *)
Theorem default_flag_invariant (ws wt : World.t)
    (smtpCalls : list SmtpCall) (templateCalls : list TemplateCall) :
  healthy wt ->
  (defaultConfigs (configsOf ws) <= 1 ->
   defaultConfigs (configsOf (afterSmtpCalls smtpCalls ws)) <= 1) /\
  (defaultTemplates (templatesOf wt) <= 1 ->
   defaultTemplates (templatesOf (afterTemplateCalls templateCalls wt)) <= 1) /\
  (oneDefaultSmtp (configsOf ws) ->
   smtpCallsKeep smtpCalls ws = true ->
   oneDefaultSmtp (configsOf (afterSmtpCalls smtpCalls ws))) /\
  (oneDefaultTemplate (templatesOf wt) ->
   templateCallsKeep templateCalls wt = true ->
   oneDefaultTemplate (templatesOf (afterTemplateCalls templateCalls wt))) /\
  (takesEffect ws = true -> defaultConfigs (configsOf ws) <= 1 ->
   (oneDefaultSmtp (configsOf (afterSmtpCalls smtpCalls ws)) <->
    smtpOrderAfter smtpCalls ws (inOrderSmtp (configsOf ws)) = true)) /\
  (defaultTemplates (templatesOf wt) <= 1 ->
   (oneDefaultTemplate (templatesOf (afterTemplateCalls templateCalls wt)) <->
    templateOrderAfter templateCalls wt (inOrderTemplates (templatesOf wt))
    = true)).
Proof.
  intros Hh.
  destruct (healthy_stored wt Hh) as (l & Hst).
  rewrite (stored_templatesOf wt l Hst) in *.
  split; [by apply smtpCalls_at_most_one|].
  split; [by apply (templateCalls_at_most_one templateCalls wt l)|].
  split; [by apply smtpCalls_keep|].
  split; [by apply (templateCalls_keep templateCalls wt l)|].
  split.
  - intros Heff Hle.
    rewrite <- (smtpCalls_order smtpCalls ws Heff Hle).
    symmetry. apply inOrderSmtp_spec.
  - intros Hle.
    rewrite <- (templateCalls_order templateCalls wt l Hst Hle).
    symmetry. apply inOrderTemplates_spec.
Qed.

Lemma default_flag_invariant_witness :
  defaultConfigs
    (configsOf
       (afterSmtpCalls
          [UpdateSmtp clearGmailDefault; AddSmtp "relay-1" addDefaultSmtp;
           DeleteSmtp "relay-1"]
          World.initial)) = 1 /\
  defaultTemplates
    (templatesOf
       (afterTemplateCalls
          [UpdateTemplate makeIeDefault; DeleteTemplate "ie-outreach"]
          World.initial)) = 1 /\
  ~ oneDefaultSmtp
      (configsOf (afterSmtpCalls [UpdateSmtp clearAwsDefault] World.initial)).
Proof.
  assert (healthy World.initial) as Hh.
  { eexists. split; [reflexivity|]. split; [vm_compute; reflexivity|].
    intros file. reflexivity. }
  split; [|split].
  - destruct (default_flag_invariant World.initial World.initial
                [UpdateSmtp clearGmailDefault; AddSmtp "relay-1" addDefaultSmtp;
                 DeleteSmtp "relay-1"] [] Hh)
      as (_ & _ & Hsmtp & _).
    apply Hsmtp; [by intros _ | reflexivity | vm_compute; discriminate].
  - destruct (default_flag_invariant World.initial World.initial []
                [UpdateTemplate makeIeDefault; DeleteTemplate "ie-outreach"]
                Hh)
      as (_ & _ & _ & Htpl & _).
    apply Htpl; [by intros _ | reflexivity | vm_compute; discriminate].
  - destruct (default_flag_invariant World.initial World.initial
                [UpdateSmtp clearAwsDefault] [] Hh)
      as (_ & _ & _ & _ & Hexact & _).
    intros Hin.
    apply (Hexact eq_refl ltac:(vm_compute; lia)) in Hin. discriminate Hin.
Defined.

End DefaultClaims.

(* ===================================================================== *)
(** * More on the send pipeline                                           *)
(* ===================================================================== *)

Module SendMore.
Import Js Config Mail World Run Run.Notations Store EmailService Template.
Import RequestHandler SendModel StoreViews SendViews.
Import StoreFacts SmtpFacts SendFacts SmtpMore.

(** ** What the reads return *)

Lemma getEmailTemplates_value w :
  getEmailTemplates w = (Ok (templatesOf w), w).
Proof.
  unfold templatesOf. by destruct (getEmailTemplates_reads w) as [l ->].
Qed.

Lemma getDefaultEmailTemplate_value w :
  getDefaultEmailTemplate w = (Ok (defaultTemplateOf w), w).
Proof.
  unfold getDefaultEmailTemplate, bind. by rewrite getEmailTemplates_value.
Qed.

Lemma truthy_nonempty s : s <> "" -> truthy s = true.
Proof. by destruct s. Qed.

Section Collaborators.
Variable inherited : string -> Val.
Variable deliver : list Event -> Transport -> MailOptions -> Thrown + string.
Variable isoString : Z -> string.

Lemma generateEmailContent_value tid td subj bod w :
  generateEmailContent inherited tid td subj bod w =
  (Ok (contentOf inherited (templatesOf w) (defaultTemplateOf w)
         tid td subj bod), w).
Proof.
  unfold generateEmailContent, contentOf.
  destruct (negb (truthyOpt tid)); [done|].
  unfold bind at 1. rewrite getEmailTemplates_value.
  destruct (String.eqb (default "" tid) "default").
  - unfold bind. by rewrite getDefaultEmailTemplate_value.
  - unfold bind, ret. by destruct (findTemplate _ _).
Qed.

(** X18.  How [generateEmailContent] resolves a template id, in every
    world and without changing it.  Without an id, or with the empty
    string, the subject and the body of the caller are used as they
    are.  The id ["default"] stands for the first template flagged as
    default, whatever its own id, else for the first template, else for
    the built-in default template.  Any other id is looked up in the
    collection: when found, subject and body are those of the template,
    rendered, and those of the caller are not used; when not found,
    those of the caller are used as they are and no error is raised. *)
Theorem template_resolution
    (templateData : option (gmap string Val)) (subject body : string)
    (w : World.t) :
  (forall templateId,
     truthyOpt templateId = false ->
     generateEmailContent inherited templateId templateData subject body w
       = (Ok (subject, body), w)) /\
  generateEmailContent inherited (Some "default") templateData subject body w
    = (Ok (rendered inherited templateData (defaultTemplateOf w)), w) /\
  (forall t,
     List.find tpl_isDefault (templatesOf w) = Some t ->
     defaultTemplateOf w = t) /\
  (List.find tpl_isDefault (templatesOf w) = None ->
   defaultTemplateOf w =
     default (builtinTemplates w).1.1 (head (templatesOf w))) /\
  (forall id,
     id <> "" -> id <> "default" ->
     generateEmailContent inherited (Some id) templateData subject body w =
     (Ok match findTemplate id (templatesOf w) with
         | Some t => rendered inherited templateData t
         | None => (subject, body)
         end, w)).
Proof.
  split; [|split; [|split; [|split]]].
  - intros templateId Hno. unfold generateEmailContent. by rewrite Hno.
  - unfold generateEmailContent. simpl. unfold bind at 1.
    rewrite getEmailTemplates_value. unfold bind.
    by rewrite getDefaultEmailTemplate_value.
  - intros t Ht. unfold defaultTemplateOf. by rewrite Ht.
  - intros Hnone. unfold defaultTemplateOf. by rewrite Hnone.
  - intros id Hne Hnd. unfold generateEmailContent.
    cbn [truthyOpt]. rewrite (truthy_nonempty id Hne). cbn [negb].
    change (default "" (Some id)) with id.
    unfold bind at 1. rewrite getEmailTemplates_value.
    rewrite (proj2 (String.eqb_neq id "default") Hnd).
    unfold bind, ret. by destruct (findTemplate id (templatesOf w)).
Qed.

(** ** What a send changes *)

Lemma sendEmail_world data smtpConfigId w :
  exists result w',
    sendEmail inherited deliver isoString data smtpConfigId w
      = (Ok result, w') /\
    sameButLog (if chosenConfig smtpConfigId w is Some c
                then delivering inherited data c w else w) w' /\
    (chosenConfig smtpConfigId w = None ->
     result = failure (resolveError smtpConfigId)) /\
    (success result = true -> is_Some (chosenConfig smtpConfigId w)).
Proof.
  rewrite (sendEmail_eq inherited deliver isoString).
  destruct (chosenConfig smtpConfigId w) as [c|].
  - destruct (deliver _ _ _) as [e|messageId];
      eexists _, _; (split; [reflexivity|]);
      (split; [apply logAll_same|]); by split.
  - eexists _, _. split; [reflexivity|].
    split; [apply logAll_same|]. by split.
Qed.

(** X15.  A call of [sendEmail], on data of its declared type, returns
    a result and leaves the configuration document, the default
    servers, the templates directory, the built-in templates and the
    clock as they are.  It makes one delivery at most, addressed to all
    the recipients at once; none when no SMTP configuration resolves,
    the result then reporting a failure; and one when the result
    reports success. *)
Theorem send_email_frame (data : EmailData) (smtpConfigId : option string)
    (w : World.t) :
  exists result w',
    sendEmail inherited deliver isoString data smtpConfigId w
      = (Ok result, w') /\
    configFile w' = configFile w /\ defaultServers w' = defaultServers w /\
    templatesDir w' = templatesDir w /\
    builtinTemplates w' = builtinTemplates w /\
    writeFails w' = writeFails w /\ clock w' = clock w /\
    (trace w' = trace w \/
     exists t m,
       trace w' = trace w ++ [SendMail t m] /\
       mo_to m = formatRecipients (to data)) /\
    (chosenConfig smtpConfigId w = None ->
     trace w' = trace w /\ success result = false) /\
    (success result = true ->
     exists t m, trace w' = trace w ++ [SendMail t m]).
Proof.
  destruct (sendEmail_world data smtpConfigId w)
    as (result & w' & Hrun & Hsame & Hnone & Hsome).
  exists result, w'. split; [done|].
  destruct Hsame as (-> & -> & -> & -> & -> & -> & ->).
  destruct (chosenConfig smtpConfigId w) as [c|].
  - unfold delivering. simpl. rewrite Z.add_0_r.
    repeat split; [right; by eexists _, _ | done | done | by eexists _, _].
  - repeat split; [by left | by rewrite Hnone | ].
    intros Hs. by destruct (Hsome Hs).
Qed.

(** ** An SMTP configuration that does not resolve *)

Lemma findConfig_absent id l :
  id ∉ smtp_id <$> l -> findConfig id l = None.
Proof.
  intros Habs. unfold findConfig.
  induction l as [|c l IH]; [done|]. simpl.
  rewrite fmap_cons in Habs. apply not_elem_of_cons in Habs as [Hne Habs].
  destruct (String.eqb_spec (smtp_id c) id) as [Heq|_]; [congruence|].
  by apply IH.
Qed.

(** X16.  A send that names an SMTP configuration which is not in the
    collection fails with a message that names the id, attempts no
    delivery, and logs one failed entry per recipient under that id,
    with the subject of the caller.  The empty string as id is the
    same as no id at all. *)
Theorem unknown_smtp_config_attempts_nothing
    (data : EmailData) (w : World.t) :
  (forall id,
     id <> "" -> id ∉ smtp_id <$> configsOf w ->
     exists w',
       sendEmail inherited deliver isoString data (Some id) w =
         (Ok {| success := false;
                message :=
                  Some ("SMTP configuration with ID " +:+ id +:+
                        " not found") |}, w') /\
       trace w' = trace w /\
       forall l,
         logWorks w l ->
         logFile w' =
         LogEntries
           (l ++
            map (fun r =>
                   {| timestamp := isoString (clock w);
                      log_smtpConfig := id;
                      log_templateId := templateId data;
                      recipient := email r;
                      log_subject := subject data;
                      log_success := false;
                      log_message :=
                        Some ("SMTP configuration with ID " +:+ id +:+
                              " not found") |})
              (toArray (to data)))) /\
  sendEmail inherited deliver isoString data (Some "") w =
  sendEmail inherited deliver isoString data None w.
Proof.
  split.
  - intros id Hne Habs.
    assert (chosenConfig (Some id) w = None) as Hc.
    { unfold chosenConfig. cbn [truthyOpt].
      rewrite (truthy_nonempty id Hne). by apply findConfig_absent. }
    assert (resolveError (Some id) = ErrorObj (notFoundMessage id)) as He.
    { unfold resolveError. cbn [truthyOpt]. by rewrite (truthy_nonempty id Hne). }
    rewrite (sendEmail_eq inherited deliver isoString), Hc, He.
    eexists. split; [reflexivity|]. split; [apply logAll_trace|].
    intros l Hl.
    destruct (logAll_works isoString
                (failedEntry data (Some id) (ErrorObj (notFoundMessage id)))
                (toArray (to data)) w l Hl) as [-> _].
    do 2 f_equal. apply map_ext. intros r.
    unfold failedEntry. cbn [orElse]. by rewrite (truthy_nonempty id Hne).
  - by rewrite !(sendEmail_eq inherited deliver isoString).
Qed.

End Collaborators.

Lemma unknown_smtp_config_attempts_nothing_witness :
  exists w',
    sendEmail Examples.noPrototype Examples.refusing Examples.epoch
      Examples.greeting (Some "sendgrid") World.initial =
      (Ok {| success := false;
             message :=
               Some "SMTP configuration with ID sendgrid not found" |}, w') /\
    trace w' = [].
Proof.
  destruct (proj1 (unknown_smtp_config_attempts_nothing
                     Examples.noPrototype Examples.refusing Examples.epoch
                     Examples.greeting World.initial)
              "sendgrid" ltac:(discriminate))
    as (w' & Hrun & Htrace & _).
  - apply (bool_decide_unpack
             ("sendgrid" ∉ smtp_id <$> configsOf World.initial)).
    vm_compute. exact I.
  - exists w'. split; [exact Hrun | exact Htrace].
Defined.

Lemma template_resolution_witness :
  generateEmailContent Examples.noPrototype (Some "newsletter") None
    "Subject" "Body" World.initial
  = (Ok ("Subject", "Body"), World.initial) /\
  defaultTemplateOf World.initial = DEFAULT_TEMPLATE.
Proof.
  destruct (template_resolution Examples.noPrototype None "Subject" "Body"
              World.initial) as (_ & _ & Hflagged & _ & Hid).
  split.
  - exact (Hid "newsletter" ltac:(discriminate) ltac:(discriminate)).
  - exact (Hflagged DEFAULT_TEMPLATE eq_refl).
Defined.

Lemma send_email_frame_witness :
  exists result w',
    sendEmail Examples.noPrototype Examples.refusing Examples.epoch
      Examples.greeting None World.initial = (Ok result, w') /\
    configFile w' = configFile World.initial /\
    success result = false.
Proof.
  destruct (send_email_frame Examples.noPrototype Examples.refusing
              Examples.epoch Examples.greeting None World.initial)
    as (result & w' & Hrun & Hfile & _).
  exists result, w'. split; [exact Hrun|]. split; [exact Hfile|].
  pose proof Hrun as Hc. vm_compute in Hc. by injection Hc as <- _.
Defined.

End SendMore.
(* ===================================================================== *)
(** * More on sends: the log, and bulk sends                              *)
(* ===================================================================== *)

Module BulkMore.
Import Js Config Mail World Run Run.Notations Store EmailService Template.
Import RequestHandler Spec SendModel StoreViews SendViews.
Import StoreFacts SmtpFacts SendFacts ChunkFacts BulkFacts SmtpMore SendMore.

(** ** What a send depends on *)

Lemma readTemplates_ext files : forall acc w1 w2,
  templatesDir w1 = templatesDir w2 ->
  (readTemplates files acc w1).1 = (readTemplates files acc w2).1.
Proof.
  induction files as [|file files IH]; intros acc w1 w2 Hdir; [done|].
  cbn [readTemplates]. destruct (endsWith file ".json"); [|by apply IH].
  unfold bind, readJsonTemplate. rewrite Hdir.
  destruct (templatesDir w2) as [dir|] eqn:E; [|done].
  destruct (dirLookup file dir); [apply IH; congruence | done].
Qed.

Lemma templatesOf_eq w :
  templatesOf w =
  match templatesDir w with
  | Some dir =>
      match (readTemplates dir.*1 [] w).1 with
      | Ok l => l
      | _ => builtinList w
      end
  | None => builtinList w
  end.
Proof.
  unfold templatesOf, getEmailTemplates, getEmailTemplatesRef, tryCatch,
    bind, readdirTemplates, builtinList.
  destruct (templatesDir w) as [dir|].
  - destruct (readTemplates_reads dir.*1 [] w) as [[l ->]|[e ->]]; [done|].
    unfold get, ret. by destruct (builtinTemplates w) as [[d ie] esade].
  - unfold get, ret. by destruct (builtinTemplates w) as [[d ie] esade].
Qed.

Lemma templatesOf_ext w1 w2 :
  templatesDir w1 = templatesDir w2 ->
  builtinTemplates w1 = builtinTemplates w2 ->
  templatesOf w1 = templatesOf w2.
Proof.
  intros Hdir Hb. rewrite !templatesOf_eq. unfold builtinList.
  rewrite Hb, Hdir. destruct (templatesDir w2) as [dir|] eqn:E; [|done].
  by rewrite (readTemplates_ext dir.*1 [] w1 w2 ltac:(congruence)).
Qed.

Lemma configsOf_ext w1 w2 :
  configFile w1 = configFile w2 -> defaultServers w1 = defaultServers w2 ->
  configsOf w1 = configsOf w2.
Proof. intros Hc Hd. by rewrite !configsOf_eq, Hc, Hd. Qed.

Lemma chosenConfig_ext smtpConfigId w1 w2 :
  configFile w1 = configFile w2 -> defaultServers w1 = defaultServers w2 ->
  chosenConfig smtpConfigId w1 = chosenConfig smtpConfigId w2.
Proof.
  intros Hc Hd. unfold chosenConfig.
  by rewrite (configsOf_ext w1 w2 Hc Hd), Hd.
Qed.

Section Collaborators.
Variable inherited : string -> Val.
Variable deliver : list Event -> Transport -> MailOptions -> Thrown + string.
Variable isoString : Z -> string.

Lemma generateEmailContent_ext tid td subj bod w1 w2 :
  templatesDir w1 = templatesDir w2 ->
  builtinTemplates w1 = builtinTemplates w2 ->
  (generateEmailContent inherited tid td subj bod w1).1 =
  (generateEmailContent inherited tid td subj bod w2).1.
Proof.
  intros Hdir Hb. rewrite !generateEmailContent_value.
  unfold defaultTemplateOf.
  by rewrite (templatesOf_ext w1 w2 Hdir Hb), Hb.
Qed.

Lemma finalContent_ext data w1 w2 :
  templatesDir w1 = templatesDir w2 ->
  builtinTemplates w1 = builtinTemplates w2 ->
  finalContent inherited data w1 = finalContent inherited data w2.
Proof.
  intros Hdir Hb.
  pose proof (generateEmailContent_ext (templateId data) (templateData data)
                (subject data) (body data) w1 w2 Hdir Hb) as Hext.
  rewrite !generateEmailContent_final in Hext. by injection Hext.
Qed.

(** X17.  The result of a send, and the deliveries made, depend on the
    configuration document, the default servers, the templates, the
    built-in templates and the deliveries made so far, and on nothing
    else.  In particular a log document that is missing, does not
    parse or cannot be written never makes a send fail, nor changes
    the mail that is sent. *)
Theorem send_result_ignores_log (data : EmailData)
    (smtpConfigId : option string) (w1 w2 : World.t) :
  configFile w1 = configFile w2 ->
  defaultServers w1 = defaultServers w2 ->
  templatesDir w1 = templatesDir w2 ->
  builtinTemplates w1 = builtinTemplates w2 ->
  trace w1 = trace w2 ->
  exists result w1' w2',
    sendEmail inherited deliver isoString data smtpConfigId w1
      = (Ok result, w1') /\
    sendEmail inherited deliver isoString data smtpConfigId w2
      = (Ok result, w2') /\
    trace w1' = trace w2'.
Proof.
  intros Hc Hd Hdir Hb Htr.
  rewrite !(sendEmail_eq inherited deliver isoString).
  rewrite (chosenConfig_ext smtpConfigId w1 w2 Hc Hd).
  rewrite (finalContent_ext data w1 w2 Hdir Hb), Htr.
  destruct (chosenConfig smtpConfigId w2) as [c|].
  - destruct (deliver _ _ _) as [e|messageId];
      eexists _, _, _; (split; [reflexivity|]); (split; [reflexivity|]);
      rewrite !logAll_trace; unfold delivering; simpl;
      by rewrite (finalContent_ext data w1 w2 Hdir Hb), Htr.
  - eexists _, _, _. split; [reflexivity|]. split; [reflexivity|].
    by rewrite !logAll_trace.
Qed.

End Collaborators.

Lemma send_result_ignores_log_witness :
  exists result w1' w2',
    sendEmail Examples.noPrototype Examples.refusingBob Examples.epoch
      Examples.greeting None World.initial = (Ok result, w1') /\
    sendEmail Examples.noPrototype Examples.refusingBob Examples.epoch
      Examples.greeting None (setLogFile World.initial LogCorrupt)
      = (Ok result, w2') /\
    trace w1' = trace w2'.
Proof.
  apply (send_result_ignores_log Examples.noPrototype Examples.refusingBob
           Examples.epoch Examples.greeting None World.initial
           (setLogFile World.initial LogCorrupt));
    reflexivity.
Defined.

(** ** Bulk sends, mail by mail *)

Lemma sendMails_app tr1 tr2 :
  sendMails (tr1 ++ tr2) = sendMails tr1 ++ sendMails tr2.
Proof. apply omap_app. Qed.

Section Bulk.
Variable inherited : string -> Val.
Variable deliver : list Event -> Transport -> MailOptions -> Thrown + string.
Variable isoString : Z -> string.
Variable data : BulkEmailData.
Variable smtpConfigId : option string.

(** What is kept along a bulk send: how the SMTP configuration
    resolves. *)
Lemma sendEmail_step d w :
  exists result w',
    sendEmail inherited deliver isoString d smtpConfigId w
      = (Ok result, w') /\
    chosenConfig smtpConfigId w' = chosenConfig smtpConfigId w /\
    match chosenConfig smtpConfigId w with
    | Some c =>
        trace w' =
        trace w ++ [SendMail (transportFor c)
                      (mailOptionsFor d c (finalContent inherited d w).1
                         (finalContent inherited d w).2)]
    | None =>
        trace w' = trace w /\ result = failure (resolveError smtpConfigId)
    end.
Proof.
  destruct (sendEmail_world inherited deliver isoString d smtpConfigId w)
    as (result & w' & Hrun & Hsame & Hnone & _).
  exists result, w'. split; [done|].
  destruct Hsame as (Hc & Hd & _ & _ & _ & _ & Htr).
  destruct (chosenConfig smtpConfigId w) as [c|] eqn:E.
  - split; [|by rewrite Htr].
    rewrite <- E. by apply chosenConfig_ext.
  - split; [|by split; [|apply Hnone]].
    rewrite <- E. by apply chosenConfig_ext.
Qed.

Lemma attemptBatch_trace batch : forall w,
  exists results w',
    attemptBatch inherited deliver isoString data smtpConfigId batch w
      = (Ok results, w') /\
    chosenConfig smtpConfigId w' = chosenConfig smtpConfigId w /\
    results.*1 = batch /\
    match chosenConfig smtpConfigId w with
    | Some c =>
        exists mails,
          sendMails (trace w') = sendMails (trace w) ++ mails /\
          (fun mail => mo_to mail.2) <$> mails =
            (fun r => Address (formatRecipient r)) <$> batch /\
          Forall (envelopeOk data c) mails
    | None =>
        sendMails (trace w') = sendMails (trace w) /\
        Forall (fun x => x.2 = failure (resolveError smtpConfigId)) results
    end.
Proof.
  induction batch as [|r batch IH]; intros w.
  - exists [], w. repeat split.
    destruct (chosenConfig smtpConfigId w); [|done].
    exists []. by rewrite app_nil_r.
  - cbn [attemptBatch]. unfold bind at 1.
    destruct (sendEmail_step (bulkEmailData data r) w)
      as (result & w1 & -> & Hc1 & Htr1).
    destruct (IH w1) as (results & w' & Hrun & Hc & Hfst & Htr).
    unfold bind. rewrite Hrun. exists ((r, result) :: results), w'.
    split; [done|]. split; [congruence|].
    split; [by rewrite fmap_cons, Hfst|].
    rewrite Hc1 in Htr.
    destruct (chosenConfig smtpConfigId w) as [c|].
    + destruct Htr as (mails & Hmails & Hto & Hok).
      eexists (_ :: mails). rewrite Hmails, Htr1, sendMails_app.
      split; [by rewrite <- app_assoc|].
      split; [by rewrite !fmap_cons, Hto|].
      by constructor.
    + destruct Htr1 as [Htr1 ->], Htr as [Htr Hall].
      split; [congruence | by constructor].
Qed.

Lemma sleep_step delay w :
  exists w',
    sleep delay w = (Ok tt, w') /\
    chosenConfig smtpConfigId w' = chosenConfig smtpConfigId w /\
    sendMails (trace w') = sendMails (trace w).
Proof.
  eexists. split; [reflexivity|]. split; [by apply chosenConfig_ext|].
  simpl. rewrite sendMails_app. apply app_nil_r.
Qed.

Lemma attemptBatches_trace delay batches : forall w,
  exists results w',
    attemptBatches inherited deliver isoString data smtpConfigId
      delay batches w = (Ok results, w') /\
    chosenConfig smtpConfigId w' = chosenConfig smtpConfigId w /\
    results.*1 = concat batches /\
    match chosenConfig smtpConfigId w with
    | Some c =>
        exists mails,
          sendMails (trace w') = sendMails (trace w) ++ mails /\
          (fun mail => mo_to mail.2) <$> mails =
            (fun r => Address (formatRecipient r)) <$> concat batches /\
          Forall (envelopeOk data c) mails
    | None =>
        sendMails (trace w') = sendMails (trace w) /\
        Forall (fun x => x.2 = failure (resolveError smtpConfigId)) results
    end.
Proof.
  induction batches as [|batch batches IH]; intros w.
  - exists [], w. repeat split.
    destruct (chosenConfig smtpConfigId w); [|done].
    exists []. by rewrite app_nil_r.
  - cbn [attemptBatches]. unfold bind at 1.
    destruct (attemptBatch_trace batch w)
      as (results1 & w1 & -> & Hc1 & Hfst1 & Htr1).
    assert (exists w2,
              (match batches with [] => ret tt | _ :: _ => sleep delay end) w1
                = (Ok tt, w2) /\
              chosenConfig smtpConfigId w2 = chosenConfig smtpConfigId w1 /\
              sendMails (trace w2) = sendMails (trace w1))
      as (w2 & Hsleep & Hc2 & Htr2).
    { destruct batches; [by exists w1 | apply sleep_step]. }
    unfold bind at 1. rewrite Hsleep.
    destruct (IH w2) as (results2 & w' & Hrun & Hc & Hfst2 & Htr).
    unfold bind. rewrite Hrun. exists (results1 ++ results2), w'.
    split; [done|]. split; [congruence|].
    split; [by rewrite fmap_app, Hfst1, Hfst2|].
    rewrite Hc2, Hc1 in Htr.
    destruct (chosenConfig smtpConfigId w) as [c|].
    + destruct Htr1 as (mails1 & Hm1 & Hto1 & Hok1).
      destruct Htr as (mails2 & Hm2 & Hto2 & Hok2).
      exists (mails1 ++ mails2). rewrite Hm2, Htr2, Hm1.
      split; [by rewrite <- app_assoc|].
      split; [by rewrite concat_cons, !fmap_app, Hto1, Hto2|].
      by apply Forall_app.
    + destruct Htr1 as [Htr1 Hall1], Htr as [Htr Hall2].
      split; [congruence | by apply Forall_app].
Qed.

(** The mail that a bulk send through the configuration [c] hands to
    the delivery collaborator for the recipient [r], the templates
    being those of the world [w0]. *)
Lemma sendEmail_mail d c w :
  chosenConfig smtpConfigId w = Some c ->
  exists result w',
    sendEmail inherited deliver isoString d smtpConfigId w
      = (Ok result, w') /\
    chosenConfig smtpConfigId w' = Some c /\
    templatesDir w' = templatesDir w /\
    builtinTemplates w' = builtinTemplates w /\
    sendMails (trace w') =
      sendMails (trace w) ++
      [(transportFor c,
        mailOptionsFor d c (finalContent inherited d w).1
          (finalContent inherited d w).2)].
Proof.
  intros Hc.
  destruct (sendEmail_world inherited deliver isoString d smtpConfigId w)
    as (result & w' & Hrun & Hsame & _).
  rewrite Hc in Hsame.
  destruct Hsame as (Hcf & Hds & Hdir & Hb & _ & _ & Htr).
  exists result, w'. split; [done|].
  split; [by rewrite <- Hc; apply chosenConfig_ext|].
  split; [done|]. split; [done|].
  rewrite Htr. unfold delivering. simpl. by rewrite sendMails_app.
Qed.

Lemma attemptBatch_mails c w0 batch : forall w,
  chosenConfig smtpConfigId w = Some c ->
  templatesDir w = templatesDir w0 ->
  builtinTemplates w = builtinTemplates w0 ->
  exists results w',
    attemptBatch inherited deliver isoString data smtpConfigId batch w
      = (Ok results, w') /\
    chosenConfig smtpConfigId w' = Some c /\
    templatesDir w' = templatesDir w0 /\
    builtinTemplates w' = builtinTemplates w0 /\
    sendMails (trace w') =
      sendMails (trace w) ++
      map (fun r =>
             (transportFor c,
              mailOptionsFor (bulkEmailData data r) c
                (finalContent inherited (bulkEmailData data r) w0).1
                (finalContent inherited (bulkEmailData data r) w0).2))
        batch.
Proof.
  induction batch as [|r batch IH]; intros w Hc Hdir Hb.
  - exists [], w. by rewrite app_nil_r.
  - cbn [attemptBatch]. unfold bind at 1.
    destruct (sendEmail_mail (bulkEmailData data r) c w Hc)
      as (result & w1 & -> & Hc1 & Hdir1 & Hb1 & Htr1).
    destruct (IH w1 Hc1 ltac:(congruence) ltac:(congruence))
      as (results & w' & Hrun & Hc' & Hdir' & Hb' & Htr).
    unfold bind. rewrite Hrun. exists ((r, result) :: results), w'.
    split; [done|]. split; [done|]. split; [done|]. split; [done|].
    rewrite Htr, Htr1, <- app_assoc. simpl.
    by rewrite (finalContent_ext inherited (bulkEmailData data r) w w0).
Qed.

Lemma attemptBatches_mails c w0 delay batches : forall w,
  chosenConfig smtpConfigId w = Some c ->
  templatesDir w = templatesDir w0 ->
  builtinTemplates w = builtinTemplates w0 ->
  exists results w',
    attemptBatches inherited deliver isoString data smtpConfigId
      delay batches w = (Ok results, w') /\
    sendMails (trace w') =
      sendMails (trace w) ++
      concat
        (map (map (fun r =>
                     (transportFor c,
                      mailOptionsFor (bulkEmailData data r) c
                        (finalContent inherited (bulkEmailData data r) w0).1
                        (finalContent inherited (bulkEmailData data r) w0).2)))
           batches).
Proof.
  induction batches as [|batch batches IH]; intros w Hc Hdir Hb.
  - exists [], w. by rewrite app_nil_r.
  - cbn [attemptBatches]. unfold bind at 1.
    destruct (attemptBatch_mails c w0 batch w Hc Hdir Hb)
      as (results1 & w1 & -> & Hc1 & Hdir1 & Hb1 & Htr1).
    assert (exists w2,
              (match batches with [] => ret tt | _ :: _ => sleep delay end) w1
                = (Ok tt, w2) /\
              chosenConfig smtpConfigId w2 = Some c /\
              templatesDir w2 = templatesDir w0 /\
              builtinTemplates w2 = builtinTemplates w0 /\
              sendMails (trace w2) = sendMails (trace w1))
      as (w2 & Hsleep & Hc2 & Hdir2 & Hb2 & Htr2).
    { destruct batches; [by exists w1|].
      destruct (sleep_step delay w1) as (w2 & Hs & Hc2 & Htr2).
      exists w2. split; [done|]. split; [congruence|].
      by injection Hs as <-. }
    unfold bind at 1. rewrite Hsleep.
    destruct (IH w2 Hc2 Hdir2 Hb2) as (results2 & w' & Hrun & Htr).
    unfold bind. rewrite Hrun. exists (results1 ++ results2), w'.
    split; [done|].
    by rewrite Htr, Htr2, Htr1, map_cons, concat_cons, <- app_assoc.
Qed.

(** X20.  A bulk send through an SMTP configuration that resolves makes
    exactly one delivery per recipient, each addressed to that
    recipient alone: batch after batch, the deliveries of one batch
    in some order.  Every one of these mails goes through the same
    transport and carries the sender, the whole [cc] list and the
    whole [bcc] list of the request. *)
Theorem bulk_sends_one_mail_each (fuel : nat) (c : SmtpServerConfig)
    (w : World.t) :
  chosenConfig smtpConfigId w = Some c ->
  1 <= default 10 (batchSize data) ->
  length (recipients data) < fuel ->
  exists result w' mailss,
    sendBulkEmails inherited deliver isoString fuel data smtpConfigId w
      = (Ok result, w') /\
    sendMails (trace w') = sendMails (trace w) ++ concat mailss /\
    Forall2 (fun mails batch =>
               (fun mail => mo_to mail.2) <$> mails ≡ₚ
               (fun r => Address (formatRecipient r)) <$> batch)
      mailss (chunks (default 10 (batchSize data)) (recipients data)) /\
    Forall (envelopeOk data c) (concat mailss).
Proof.
  intros Hc Hb Hfuel.
  destruct (Nat.eq_dec (length (recipients data)) 0) as [Hz|Hnz].
  - eexists _, w, []. unfold sendBulkEmails, tryCatch.
    rewrite (proj2 (Nat.eqb_eq _ _) Hz).
    split; [reflexivity|]. split; [by rewrite app_nil_r|].
    rewrite (nil_length_inv _ Hz), chunks_nil. by split.
  - destruct (attemptBatches_mails c w
                (default 1000%Z (delayBetweenBatches data))
                (chunks (default 10 (batchSize data)) (recipients data)) w
                Hc eq_refl eq_refl)
      as (results & w' & Hrun & Htr).
    eexists (bulkResult data results), w', _.
    split.
    { apply (sendBulkEmails_eq inherited deliver isoString data
               smtpConfigId); (done || lia). }
    split; [exact Htr|]. split.
    + apply Forall2_fmap_l, Forall_Forall2_diag, Forall_true.
      intros batch. simpl. change map with (@fmap list _) at 1.
      by rewrite <- list_fmap_compose.
    + apply Forall_concat, Forall_fmap, Forall_true. intros batch.
      apply Forall_fmap, Forall_true. intros r. by repeat split.
Qed.

Lemma failed_results (results : list (EmailRecipient * SendResult)) e :
  Forall (fun x => x.2 = failure e) results ->
  truthy (messageOr "Unknown error sending email" e) = true ->
  successes results = 0 /\
  failuresOf results =
    map (fun r => {| f_email := email r;
                     f_error := messageOr "Unknown error sending email" e |})
      results.*1.
Proof.
  intros Hall Hmsg. induction Hall as [|[r res] results Hres Hall IH].
  - done.
  - simpl in Hres. subst res. destruct IH as [IHs IHf].
    assert (successes ((r, failure e) :: results) = successes results)
      as -> by reflexivity.
    assert (failuresOf ((r, failure e) :: results) =
            {| f_email := email r;
               f_error := orElse (message (failure e)) "Unknown error" |}
            :: failuresOf results) as -> by reflexivity.
    split; [done|]. rewrite IHf, fmap_cons. cbn [map fst]. f_equal. f_equal.
    unfold orElse. cbn [message failure]. by rewrite Hmsg.
Qed.

(** X21.  A bulk send that names an SMTP configuration which is not in
    the collection makes no delivery at all and reports every recipient
    as failed, each with the message that names the id: [success] is
    [false], [totalSent] is 0, [totalFailed] is the number of
    recipients, and [failures] holds one entry per recipient (in the
    order in which the sends end). *)
Theorem bulk_with_unknown_config (fuel : nat) (id : string) (w : World.t) :
  smtpConfigId = Some id ->
  id <> "" -> id ∉ smtp_id <$> configsOf w ->
  1 <= length (recipients data) ->
  1 <= default 10 (batchSize data) ->
  length (recipients data) < fuel ->
  exists result w' fs,
    sendBulkEmails inherited deliver isoString fuel data smtpConfigId w
      = (Ok result, w') /\
    bulk_success result = false /\
    totalSent result = 0 /\
    totalFailed result = length (recipients data) /\
    failures result = Some fs /\
    fs ≡ₚ map (fun r =>
                 {| f_email := email r;
                    f_error :=
                      "SMTP configuration with ID " +:+ id +:+
                      " not found" |})
            (recipients data) /\
    bulk_message result =
      Some (sentMessage 0 (length (recipients data))) /\
    sendMails (trace w') = sendMails (trace w).
Proof.
  intros Hid Hne Habs Hn Hb Hfuel.
  assert (chosenConfig smtpConfigId w = None) as Hc.
  { rewrite Hid. unfold chosenConfig. cbn [truthyOpt].
    rewrite (truthy_nonempty id Hne). by apply findConfig_absent. }
  assert (resolveError smtpConfigId = ErrorObj (notFoundMessage id)) as He.
  { rewrite Hid. unfold resolveError. cbn [truthyOpt].
    by rewrite (truthy_nonempty id Hne). }
  destruct (attemptBatches_trace
              (default 1000%Z (delayBetweenBatches data))
              (chunks (default 10 (batchSize data)) (recipients data)) w)
    as (results & w' & Hrun & _ & Hfst & Htr).
  rewrite Hc, He in Htr. rewrite concat_chunks in Hfst by done.
  destruct Htr as [Htr Hall].
  destruct (failed_results results _ Hall eq_refl) as [Hs Hf].
  eexists (bulkResult data results), w', _.
  split; [by apply (sendBulkEmails_eq inherited deliver isoString data
                      smtpConfigId)|].
  unfold bulkResult. cbn [bulk_success totalSent totalFailed failures
                            bulk_message].
  rewrite Hs, Hf, Hfst, length_map.
  split; [done|]. split; [done|]. split; [done|].
  split.
  { by destruct (Nat.ltb_spec 0 (length (recipients data))); [|lia]. }
  split; [done|]. split; [done|]. done.
Qed.

(** ** A batch size of zero *)

Lemma bulkLoop_zero delay : forall fuel i acc w,
  i < length (recipients data) ->
  exists w',
    bulkLoop inherited deliver isoString fuel data smtpConfigId 0 delay
      i acc w = (Diverge, w') /\
    trace w' = trace w ++ replicate fuel (Timeout delay) /\
    logFile w' = logFile w.
Proof.
  induction fuel as [|fuel IH]; intros i acc w Hi.
  - exists w. simpl. by rewrite app_nil_r.
  - cbn [bulkLoop]. rewrite Nat.add_0_r.
    rewrite (proj2 (Nat.ltb_lt _ _) Hi). rewrite take_0.
    cbn [sendBatch]. unfold bind at 1. unfold ret at 1.
    unfold bind at 1. unfold sleep at 1. unfold bind.
    destruct (IH i acc (addEvent w (Timeout delay) (Z.max 0 delay)) Hi)
      as (w' & -> & Htr & Hlog).
    exists w'. split; [done|]. split; [|done].
    rewrite Htr. simpl. by rewrite <- app_assoc.
Qed.

(** X19.  With a batch size of 0 and at least one recipient the loop
    of [sendBulkEmails] never ends: however many times the loop test
    is evaluated, no result has been returned, no mail has been sent,
    nothing has been logged, and there has been one delay per turn of
    the loop. *)
Theorem zero_batch_size_never_returns (fuel : nat) (w : World.t) :
  recipients data <> [] -> batchSize data = Some 0 ->
  exists w',
    sendBulkEmails inherited deliver isoString fuel data smtpConfigId w
      = (Diverge, w') /\
    trace w' =
      trace w ++
      replicate fuel (Timeout (default 1000%Z (delayBetweenBatches data))) /\
    logFile w' = logFile w.
Proof.
  intros Hne Hzero.
  destruct (bulkLoop_zero (default 1000%Z (delayBetweenBatches data))
              fuel 0 (0, []) w) as (w' & Hrun & Htr & Hlog).
  { destruct (recipients data); [done | simpl; lia]. }
  exists w'. split; [|done].
  unfold sendBulkEmails, tryCatch. rewrite Hzero.
  change (default 10 (Some 0)) with 0.
  destruct (Nat.eqb_spec (length (recipients data)) 0) as [Hz|_].
  - by destruct (recipients data).
  - unfold bind. by rewrite Hrun.
Qed.

End Bulk.

Lemma zero_batch_size_never_returns_witness :
  exists w',
    sendBulkEmails Examples.noPrototype Examples.refusing Examples.epoch
      3 Cases.stalled None World.initial = (Diverge, w') /\
    trace w' = [Timeout 1000; Timeout 1000; Timeout 1000].
Proof.
  destruct (zero_batch_size_never_returns Examples.noPrototype
              Examples.refusing Examples.epoch Cases.stalled None 3
              World.initial ltac:(discriminate) eq_refl)
    as (w' & Hrun & Htrace & _).
  exists w'. split; [exact Hrun | exact Htrace].
Defined.

Lemma bulk_sends_one_mail_each_witness :
  exists result w' mails,
    sendBulkEmails Examples.noPrototype Examples.refusingBob Examples.epoch
      3 Examples.announcement None World.initial = (Ok result, w') /\
    sendMails (trace w') = mails /\
    (fun mail => mo_to mail.2) <$> mails =
      [Address (formatRecipient Examples.ana);
       Address (formatRecipient Examples.bob)].
Proof.
  destruct (bulk_sends_one_mail_each Examples.noPrototype
              Examples.refusingBob Examples.epoch Examples.announcement
              None 3 AWS_SES World.initial eq_refl)
    as (result & w' & mailss & Hrun & Hmails & _).
  - vm_compute. lia.
  - vm_compute. lia.
  - exists result, w', (sendMails (trace w')).
    split; [exact Hrun|]. split; [reflexivity|].
    pose proof Hrun as Hc. vm_compute in Hc. by injection Hc as _ <-.
Defined.

Lemma bulk_with_unknown_config_witness :
  exists result w',
    sendBulkEmails Examples.noPrototype Examples.refusingBob Examples.epoch
      3 Examples.announcement (Some "sendgrid") World.initial
      = (Ok result, w') /\
    totalSent result = 0 /\ totalFailed result = 2 /\
    sendMails (trace w') = [].
Proof.
  destruct (bulk_with_unknown_config Examples.noPrototype
              Examples.refusingBob Examples.epoch Examples.announcement
              (Some "sendgrid") 3 "sendgrid" World.initial eq_refl
              ltac:(discriminate))
    as (result & w' & fs & Hrun & _ & Hsent & Hfailed & _ & _ & _ & Hmails).
  - apply (bool_decide_unpack
             ("sendgrid" ∉ smtp_id <$> configsOf World.initial)).
    vm_compute. exact I.
  - vm_compute. lia.
  - vm_compute. lia.
  - vm_compute. lia.
  - exists result, w'. split; [exact Hrun|].
    split; [exact Hsent|]. split; [exact Hfailed | exact Hmails].
Defined.

End BulkMore.

(* ===================================================================== *)
(** * Claims about the log and about bulk sends                           *)
(* ===================================================================== *)

Module BulkClaims.
Import Js Config Mail World Run Run.Notations Store EmailService Template.
Import RequestHandler Spec SendModel StoreViews SendViews.
Import StoreFacts SmtpFacts SendFacts ChunkFacts BulkFacts RenderFacts.
Import SmtpMore SendMore BulkMore Examples.

Section Sends.
Variable inherited : string -> Val.
Variable deliver : list Event -> Transport -> MailOptions -> Thrown + string.
Variable isoString : Z -> string.

(** ** The log after a send *)

Lemma logAll_logged entry rs w l :
  logWorks w l ->
  logWorks (logAll isoString entry rs w)
    (l ++ map (entry (isoString (clock w))) rs) /\
  templatesDir (logAll isoString entry rs w) = templatesDir w /\
  builtinTemplates (logAll isoString entry rs w) = builtinTemplates w /\
  trace (logAll isoString entry rs w) = trace w.
Proof.
  intros Hl. split; [by apply logAll_works|].
  by destruct (logAll_same isoString entry rs w) as (_&_&?&?&_&_&?).
Qed.

Lemma sendEmail_logged d smtpConfigId w l :
  logWorks w l ->
  exists result w' entries,
    sendEmail inherited deliver isoString d smtpConfigId w
      = (Ok result, w') /\
    logWorks w' (l ++ entries) /\
    templatesDir w' = templatesDir w /\
    builtinTemplates w' = builtinTemplates w /\
    recipient <$> entries = email <$> toArray (to d) /\
    Forall (fun e =>
              log_success e = success result /\
              log_subject e =
                if success result
                then (finalContent inherited d w).1
                else subject d) entries /\
    (success result = true ->
     exists t m,
       trace w' = trace w ++ [SendMail t m] /\
       mo_subject m = (finalContent inherited d w).1).
Proof.
  intros Hlog. rewrite (sendEmail_eq inherited deliver isoString).
  assert (forall c, logWorks (delivering inherited d c w) l) as Hlog'
    by (intros c; destruct Hlog; by split).
  destruct (chosenConfig smtpConfigId w) as [c|].
  - destruct (deliver (trace w) (transportFor c) _) as [e|messageId].
    + destruct (logAll_logged (failedEntry d smtpConfigId e)
                  (toArray (to d)) _ l (Hlog' c)) as (Hw & Hdir & Hb & _).
      eexists _, _, _. split; [reflexivity|]. split; [exact Hw|].
      split; [exact Hdir|]. split; [exact Hb|].
      split; [|split; [|done]].
      * rewrite <- list_fmap_compose. by apply list_fmap_ext.
      * apply Forall_fmap, Forall_true. by intros r.
    + destruct (logAll_logged
                  (sentEntry d c (finalContent inherited d w).1 messageId)
                  (toArray (to d)) _ l (Hlog' c)) as (Hw & Hdir & Hb & Htr).
      eexists _, _, _. split; [reflexivity|]. split; [exact Hw|].
      split; [exact Hdir|]. split; [exact Hb|].
      split; [|split].
      * rewrite <- list_fmap_compose. by apply list_fmap_ext.
      * apply Forall_fmap, Forall_true. by intros r.
      * intros _. rewrite Htr. by eexists _, _.
  - destruct (logAll_logged
                (failedEntry d smtpConfigId (resolveError smtpConfigId))
                (toArray (to d)) _ l Hlog) as (Hw & Hdir & Hb & _).
    eexists _, _, _. split; [reflexivity|]. split; [exact Hw|].
    split; [exact Hdir|]. split; [exact Hb|].
    split; [|split; [|done]].
    + rewrite <- list_fmap_compose. by apply list_fmap_ext.
    + apply Forall_fmap, Forall_true. by intros r.
Qed.

Variable data : BulkEmailData.
Variable smtpConfigId : option string.

Lemma successes_cons r res results :
  successes ((r, res) :: results) =
  (if success res then 1 else 0) + successes results.
Proof. unfold successes. simpl. by destruct (success res). Qed.

Lemma successes_app results1 results2 :
  successes (results1 ++ results2) = successes results1 + successes results2.
Proof. unfold successes. by rewrite List.filter_app, length_app. Qed.

Lemma attemptBatch_logged w0 batch : forall w l,
  logWorks w l ->
  templatesDir w = templatesDir w0 ->
  builtinTemplates w = builtinTemplates w0 ->
  exists results w' entries,
    attemptBatch inherited deliver isoString data smtpConfigId batch w
      = (Ok results, w') /\
    logWorks w' (l ++ entries) /\
    templatesDir w' = templatesDir w0 /\
    builtinTemplates w' = builtinTemplates w0 /\
    Forall2 (fun e r =>
               recipient e = email r /\
               log_subject e =
                 if log_success e
                 then (finalContent inherited (bulkEmailData data r) w0).1
                 else bulk_subject data) entries batch /\
    successes results = length (List.filter log_success entries).
Proof.
  induction batch as [|r batch IH]; intros w l Hl Hdir Hb.
  - exists [], w, []. rewrite app_nil_r. by split_and!.
  - cbn [attemptBatch]. unfold bind at 1.
    destruct (sendEmail_logged (bulkEmailData data r) smtpConfigId w l Hl)
      as (res & w1 & entries1 & -> & Hl1 & Hdir1 & Hb1 & Hrcp & Hall & _).
    destruct entries1 as [|e [|? ?]]; try done.
    apply Forall_singleton in Hall as [Hs Hsubj].
    injection Hrcp as Hrcp.
    destruct (IH w1 _ Hl1 ltac:(congruence) ltac:(congruence))
      as (results & w' & entries & Hrun & Hl' & Hdir' & Hb' & Hall' & Hcount).
    unfold bind. rewrite Hrun.
    exists ((r, res) :: results), w', (e :: entries).
    split; [done|]. split; [by rewrite <- app_assoc in Hl'|].
    split; [done|]. split; [done|]. split.
    + constructor; [|done]. split; [done|].
      rewrite Hs, Hsubj.
      by rewrite (finalContent_ext inherited (bulkEmailData data r) w w0).
    + rewrite successes_cons, Hcount. simpl. rewrite Hs.
      by destruct (success res).
Qed.

Lemma attemptBatches_logged w0 delay batches : forall w l,
  logWorks w l ->
  templatesDir w = templatesDir w0 ->
  builtinTemplates w = builtinTemplates w0 ->
  exists results w' entries,
    attemptBatches inherited deliver isoString data smtpConfigId
      delay batches w = (Ok results, w') /\
    logWorks w' (l ++ entries) /\
    Forall2 (fun e r =>
               recipient e = email r /\
               log_subject e =
                 if log_success e
                 then (finalContent inherited (bulkEmailData data r) w0).1
                 else bulk_subject data) entries (concat batches) /\
    successes results = length (List.filter log_success entries).
Proof.
  induction batches as [|batch batches IH]; intros w l Hl Hdir Hb.
  - exists [], w, []. rewrite app_nil_r. by split_and!.
  - cbn [attemptBatches]. unfold bind at 1.
    destruct (attemptBatch_logged w0 batch w l Hl Hdir Hb)
      as (results1 & w1 & entries1 & -> & Hl1 & Hdir1 & Hb1 & Hall1 & Hcount1).
    assert (exists w2,
              (match batches with [] => ret tt | _ :: _ => sleep delay end) w1
                = (Ok tt, w2) /\
              logWorks w2 (l ++ entries1) /\
              templatesDir w2 = templatesDir w0 /\
              builtinTemplates w2 = builtinTemplates w0)
      as (w2 & Hsleep & Hl2 & Hdir2 & Hb2).
    { destruct batches; [by exists w1|]. by eexists. }
    unfold bind at 1. rewrite Hsleep.
    destruct (IH w2 _ Hl2 Hdir2 Hb2)
      as (results2 & w' & entries2 & Hrun & Hl' & Hall2 & Hcount2).
    unfold bind. rewrite Hrun.
    exists (results1 ++ results2), w', (entries1 ++ entries2).
    split; [done|]. split; [by rewrite <- app_assoc in Hl'|].
    split; [by apply Forall2_app|].
    by rewrite successes_app, List.filter_app, length_app, Hcount1, Hcount2.
Qed.

(** Two [logEmailActivity] calls in flight together, each of which has
    tested and read the document before the other writes: the second
    write replaces the first, and of the two entries one is left. *)
Lemma overlapping_logs_keep_one e1 e2 w l :
  logWorks w l ->
  exists w',
    (let* present1 := pathExistsLog in
     let* present2 := pathExistsLog in
     let* logs1 := (if present1 then readJsonLog else ret []) in
     let* logs2 := (if present2 then readJsonLog else ret []) in
     writeJsonLog (logs1 ++ [e1]) ;;
     writeJsonLog (logs2 ++ [e2])) w = (Ok tt, w') /\
    logFile w' = LogEntries (l ++ [e2]).
Proof.
  intros [Hl Hw]. destruct w as [? ? ? ? lf wf ? ?]. simpl in Hl, Hw.
  subst lf. eexists.
  unfold bind, pathExistsLog, readJsonLog, writeJsonLog. cbn.
  rewrite Hw. cbn. by rewrite Hw.
Qed.

(** C2, as amended.  With a log document that can be read and written,
    a send attempt that runs while no other send is in flight appends
    exactly one entry per [to] recipient, in order, each naming its
    recipient: a call of [sendEmail], and each per-recipient call that
    [sendBulkEmails] issues when its batches hold a single recipient
    (a batch size of 1), so that N recipients leave N entries and never
    one aggregate entry.  An entry of a send that succeeded carries
    [success = true] and the final subject, the one handed to the
    delivery collaborator; an entry of a send that failed carries
    [success = false] and the subject the caller passed, which is the
    final subject when no template id is given.  What the log holds
    after the sends of a batch of several recipients, which are in
    flight together, is not stated. *)
Theorem sends_log_each_recipient (w : World.t) (l : list EmailLogEntry) :
  logWorks w l ->
  (forall d id,
     exists result w' entries,
       sendEmail inherited deliver isoString d id w = (Ok result, w') /\
       logFile w' = LogEntries (l ++ entries) /\
       recipient <$> entries = email <$> toArray (to d) /\
       Forall (fun e =>
                 log_success e = success result /\
                 log_subject e =
                   if success result
                   then (finalContent inherited d w).1
                   else subject d) entries /\
       (success result = true ->
        exists t m,
          trace w' = trace w ++ [SendMail t m] /\
          mo_subject m = (finalContent inherited d w).1) /\
       (truthyOpt (templateId d) = false ->
        (finalContent inherited d w).1 = subject d)) /\
  (forall fuel,
     batchSize data = Some 1 -> length (recipients data) < fuel ->
     exists result w' entries,
       sendBulkEmails inherited deliver isoString fuel data smtpConfigId w
         = (Ok result, w') /\
       logFile w' = LogEntries (l ++ entries) /\
       Forall2 (fun e r =>
                  recipient e = email r /\
                  log_subject e =
                    if log_success e
                    then (finalContent inherited (bulkEmailData data r) w).1
                    else bulk_subject data) entries (recipients data) /\
       totalSent result = length (List.filter log_success entries)).
Proof.
  intros Hlog. split.
  - intros d id.
    destruct (sendEmail_logged d id w l Hlog)
      as (result & w' & entries & Hrun & [Hfile _] & _ & _ & Hrcp & Hall
          & Hsent).
    exists result, w', entries. repeat (split; [done|]).
    intros Hno. unfold finalContent, generateEmailContent. by rewrite Hno.
  - intros fuel Hone Hfuel.
    destruct (Nat.eq_dec (length (recipients data)) 0) as [Hz|Hnz].
    + eexists _, w, []. unfold sendBulkEmails, tryCatch.
      rewrite (proj2 (Nat.eqb_eq _ _) Hz).
      split; [reflexivity|]. rewrite app_nil_r.
      split; [by destruct Hlog|].
      rewrite (nil_length_inv _ Hz). by split.
    + assert (1 <= default 10 (batchSize data)) as Hb by (by rewrite Hone).
      destruct (attemptBatches_logged w
                  (default 1000%Z (delayBetweenBatches data))
                  (chunks (default 10 (batchSize data)) (recipients data))
                  w l Hlog eq_refl eq_refl)
        as (results & w' & entries & Hrun & [Hfile _] & Hall & Hcount).
      rewrite (concat_chunks _ Hb) in Hall.
      exists (bulkResult data results), w', entries.
      split.
      { apply (sendBulkEmails_eq inherited deliver isoString data
                 smtpConfigId); (done || lia). }
      by repeat split.
Qed.

(** ** The name handed to the renderer *)



End Sends.

Lemma sends_log_each_recipient_witness :
  (exists result w' entries,
     sendEmail noPrototype refusingBob epoch greeting None World.initial
       = (Ok result, w') /\
     success result = true /\
     logFile w' = LogEntries entries /\
     recipient <$> entries = ["ana@example.org"; "bob@example.org"] /\
     Forall (fun e => log_success e = true /\
                      log_subject e = "Default Subject") entries) /\
  (exists result w' e1 e2,
     sendBulkEmails noPrototype refusingBob epoch 3 announcement None
       World.initial = (Ok result, w') /\
     logFile w' = LogEntries [e1; e2] /\
     recipient e1 = "ana@example.org" /\ log_success e1 = true /\
     log_subject e1 = "Default Subject" /\
     recipient e2 = "bob@example.org" /\ log_success e2 = false /\
     log_subject e2 = "News").
Proof.
  destruct (sends_log_each_recipient noPrototype refusingBob epoch
              announcement None World.initial [] (conj eq_refl eq_refl))
    as [Hone Hbulk].
  split.
  - destruct (Hone greeting None)
      as (result & w' & entries & Hrun & Hfile & Hrcp & Hall & _).
    assert (success result = true) as Hs.
    { pose proof Hrun as Hc. vm_compute in Hc. by injection Hc as <- _. }
    exists result, w', entries. rewrite Hs in Hall.
    split; [exact Hrun|]. split; [exact Hs|]. split; [exact Hfile|].
    split; [exact Hrcp|]. exact Hall.
  - destruct (Hbulk 3 eq_refl ltac:(simpl; lia))
      as (result & w' & entries & Hrun & Hfile & Hall & _).
    pose proof Hrun as Hc. vm_compute in Hc. injection Hc as _ Hw.
    assert (log_success <$> entries = [true; false]) as Hflags.
    { rewrite <- Hw in Hfile. simpl in Hfile. by injection Hfile as <-. }
    destruct entries as [|e1 [|e2 [|? ?]]]; try done.
    injection Hflags as Hs1 Hs2.
    apply Forall2_cons in Hall as [[Hr1 Hsub1] Hall].
    apply Forall2_cons in Hall as [[Hr2 Hsub2] _].
    rewrite Hs1 in Hsub1. rewrite Hs2 in Hsub2.
    exists result, w', e1, e2. split; [exact Hrun|]. split; [exact Hfile|].
    repeat split; assumption.
Defined.


End BulkClaims.

(* ===================================================================== *)
(** * The log tool                                                        *)
(* ===================================================================== *)

Module LogsMore.
Import Js Config World Run Run.Notations Store Logs StoreViews LogViews.
Import StoreMore.

(** ** The sort *)

Section Sort.
Context {A : Type}.
Variable compareFn : A -> A -> option Z.

Lemma insertSorted_perm x l : insertSorted compareFn x l ≡ₚ x :: l.
Proof.
  induction l as [|y l IH]; [done|]. simpl.
  destruct (sortsAfter compareFn x y); [|done].
  rewrite IH. apply Permutation_swap.
Qed.

Lemma sort_perm l : sort compareFn l ≡ₚ l.
Proof.
  induction l as [|x l IH]; [done|]. simpl.
  by rewrite insertSorted_perm, IH.
Qed.

End Sort.

Section Dates.
Variable getTime : string -> option Z.

Lemma handleGetEmailLogs_eq p w :
  handleGetEmailLogs getTime p w =
  (Ok (limited p (sort (newestFirst getTime) (selected p (logsOf w)))), w).
Proof.
  unfold handleGetEmailLogs, tryCatch, bind. by rewrite getEmailLogs_eq.
Qed.

Lemma selected_spec p l e :
  e ∈ selected p l <->
  e ∈ l /\ forall wanted, filterBySuccess p = Some wanted ->
                          log_success e = wanted.
Proof.
  unfold selected. destruct (filterBySuccess p) as [wanted|].
  - rewrite list_elem_of_In, filter_In, <- list_elem_of_In.
    split.
    + intros [Hin Heq]. split; [done|]. intros b [= <-].
      by apply Bool.eqb_prop.
    + intros [Hin Heq]. split; [done|].
      rewrite (Heq wanted eq_refl). apply Bool.eqb_reflx.
  - split; [by intros ?; split | by intros [? _]].
Qed.

Lemma limited_sub p l e : e ∈ limited p l -> e ∈ l.
Proof.
  unfold limited. destruct (limit p) as [n|]; [|done].
  destruct (0 <? n)%Z; [|done].
  intros (i & Hi & _)%elem_of_take. by eapply list_elem_of_lookup_2.
Qed.

(** X22.  The tool [get-email-logs] never throws and changes nothing.
    Every entry it returns is an entry of the log document and, when a
    filter is given, has the success flag asked for.  Without a limit,
    or with a limit of zero or less, it returns every such entry, each
    as many times as the log has it; with a limit [n > 0] it returns
    [n] of them, or all when there are fewer. *)
Theorem logs_filter_and_limit (p : LogsParams) (w : World.t) :
  exists result,
    handleGetEmailLogs getTime p w = (Ok result, w) /\
    (forall e,
       e ∈ result ->
       e ∈ logsOf w /\
       forall wanted, filterBySuccess p = Some wanted ->
                      log_success e = wanted) /\
    (forall n,
       limit p = Some n -> (0 < n)%Z ->
       length result = Z.to_nat n `min` length (selected p (logsOf w))) /\
    ((limit p = None \/ exists n, limit p = Some n /\ (n <= 0)%Z) ->
     result ≡ₚ selected p (logsOf w)).
Proof.
  eexists. split; [apply handleGetEmailLogs_eq|].
  split; [|split].
  - intros e He%limited_sub. rewrite sort_perm in He.
    by apply selected_spec.
  - intros n Hn Hpos. unfold limited. rewrite Hn.
    rewrite (proj2 (Z.ltb_lt 0 n) Hpos).
    by rewrite length_take, sort_perm.
  - intros Hlim. unfold limited.
    destruct Hlim as [->|(n & -> & Hn)]; [apply sort_perm|].
    rewrite (proj2 (Z.ltb_ge 0 n) Hn). apply sort_perm.
Qed.

(** ** Newest first *)

Lemma sortsAfter_time x y :
  is_Some (getTime (timestamp x)) -> is_Some (getTime (timestamp y)) ->
  sortsAfter (newestFirst getTime) x y =
  (timeOf getTime x <? timeOf getTime y)%Z.
Proof.
  intros [tx Hx] [ty Hy]. unfold sortsAfter, newestFirst, timeOf.
  rewrite Hx, Hy. simpl.
  destruct (Z.ltb_spec 0 (ty - tx)), (Z.ltb_spec tx ty); done || lia.
Qed.

Lemma insertSorted_sorted x l :
  is_Some (getTime (timestamp x)) ->
  Forall (fun e => is_Some (getTime (timestamp e))) l ->
  StronglySorted (fun a b => (timeOf getTime b <= timeOf getTime a)%Z) l ->
  StronglySorted (fun a b => (timeOf getTime b <= timeOf getTime a)%Z)
    (insertSorted (newestFirst getTime) x l).
Proof.
  intros Hx Hall Hs. induction Hs as [|y l Hs IH Hy].
  - repeat constructor.
  - apply Forall_cons in Hall as [Hty Hall]. simpl.
    rewrite (sortsAfter_time x y Hx Hty).
    destruct (Z.ltb_spec (timeOf getTime x) (timeOf getTime y)) as [Hlt|Hge].
    + constructor; [by apply IH|].
      rewrite insertSorted_perm. constructor; [lia | done].
    + constructor; [by constructor|].
      constructor; [done|].
      eapply Forall_impl; [exact Hy|]. simpl. intros. lia.
Qed.

Lemma sort_sorted l :
  Forall (fun e => is_Some (getTime (timestamp e))) l ->
  StronglySorted (fun a b => (timeOf getTime b <= timeOf getTime a)%Z)
    (sort (newestFirst getTime) l).
Proof.
  induction 1 as [|x l Hx Hall IH]; [constructor|]. simpl.
  apply insertSorted_sorted; [done| |done].
  by rewrite sort_perm.
Qed.

Lemma insertSorted_stable t x l :
  is_Some (getTime (timestamp x)) ->
  Forall (fun e => is_Some (getTime (timestamp e))) l ->
  stampedAt getTime t (insertSorted (newestFirst getTime) x l) =
  stampedAt getTime t (x :: l).
Proof.
  intros Hx Hall. unfold stampedAt.
  induction Hall as [|y l Hy Hall IH]; [done|]. simpl.
  rewrite (sortsAfter_time x y Hx Hy).
  destruct (Z.ltb_spec (timeOf getTime x) (timeOf getTime y)) as [Hlt|Hge];
    [|done].
  simpl. rewrite IH. simpl.
  destruct (Z.eqb_spec (timeOf getTime x) t),
           (Z.eqb_spec (timeOf getTime y) t); done || lia.
Qed.

Lemma sort_stable t l :
  Forall (fun e => is_Some (getTime (timestamp e))) l ->
  stampedAt getTime t (sort (newestFirst getTime) l) = stampedAt getTime t l.
Proof.
  induction 1 as [|x l Hx Hall IH]; [done|]. simpl.
  rewrite insertSorted_stable; [|done|by rewrite sort_perm].
  unfold stampedAt in *. simpl. by rewrite IH.
Qed.

Lemma selected_Forall (P : EmailLogEntry -> Prop) p l :
  Forall P l -> Forall P (selected p l).
Proof.
  intros Hall. apply Forall_forall. intros e He%selected_spec.
  by apply (proj1 (Forall_forall P l) Hall), He.
Qed.

(** X23.  When every timestamp of the log is a date, the entries that
    [get-email-logs] selects are ordered from the newest to the oldest,
    entries of the same time staying in the order of the log; and a
    limit [n > 0] keeps the first [n] of that order, so that no entry
    left out is newer than an entry returned. *)
Theorem logs_newest_first (p : LogsParams) (w : World.t) :
  Forall (fun e => is_Some (getTime (timestamp e))) (logsOf w) ->
  exists ordered,
    ordered ≡ₚ selected p (logsOf w) /\
    StronglySorted (fun a b => (timeOf getTime b <= timeOf getTime a)%Z)
      ordered /\
    (forall t,
       stampedAt getTime t ordered =
       stampedAt getTime t (selected p (logsOf w))) /\
    handleGetEmailLogs getTime p w = (Ok (limited p ordered), w) /\
    exists rest,
      ordered = limited p ordered ++ rest /\
      forall e e', e ∈ limited p ordered -> e' ∈ rest ->
                   (timeOf getTime e' <= timeOf getTime e)%Z.
Proof.
  intros Hall.
  pose proof (selected_Forall _ p _ Hall) as Hsel.
  pose proof (sort_sorted _ Hsel) as Hsorted.
  exists (sort (newestFirst getTime) (selected p (logsOf w))).
  split; [apply sort_perm|]. split; [done|].
  split; [intros t; by apply sort_stable|].
  split; [apply handleGetEmailLogs_eq|].
  set (ordered := sort (newestFirst getTime) (selected p (logsOf w))) in *.
  assert (forall k e e',
            e ∈ take k ordered -> e' ∈ drop k ordered ->
            (timeOf getTime e' <= timeOf getTime e)%Z) as Hsplit.
  { intros k e e' He He'. rewrite <- (take_drop k ordered) in Hsorted.
    apply (StronglySorted_app_1_elem_of _ _ _ e e' Hsorted He He'). }
  unfold limited. destruct (limit p) as [n|].
  - destruct (0 <? n)%Z.
    + exists (drop (Z.to_nat n) ordered). split; [by rewrite take_drop|].
      apply Hsplit.
    + exists []. split; [by rewrite app_nil_r|].
      intros e e' _ He'. by apply elem_of_nil in He'.
  - exists []. split; [by rewrite app_nil_r|].
    intros e e' _ He'. by apply elem_of_nil in He'.
Qed.

End Dates.

Lemma logs_filter_and_limit_witness :
  exists result,
    handleGetEmailLogs Cases.stampTime
      {| limit := Some 5%Z; filterBySuccess := Some false |}
      Cases.loggedWorld = (Ok result, Cases.loggedWorld) /\
    length result = 1.
Proof.
  destruct (logs_filter_and_limit Cases.stampTime
              {| limit := Some 5%Z; filterBySuccess := Some false |}
              Cases.loggedWorld)
    as (result & Hrun & _ & Hlen & _).
  exists result. split; [exact Hrun|].
  exact (Hlen 5%Z eq_refl eq_refl).
Defined.

Lemma logs_newest_first_witness :
  exists ordered,
    ordered ≡ₚ Cases.threeEntries /\
    handleGetEmailLogs Cases.stampTime
      {| limit := Some 2%Z; filterBySuccess := None |} Cases.loggedWorld
    = (Ok (take 2 ordered), Cases.loggedWorld).
Proof.
  destruct (logs_newest_first Cases.stampTime
              {| limit := Some 2%Z; filterBySuccess := None |}
              Cases.loggedWorld)
    as (ordered & Hperm & _ & _ & Hrun & _).
  - repeat constructor; by eexists.
  - exists ordered. split; [exact Hperm | exact Hrun].
Defined.

End LogsMore.
(* ===================================================================== *)
(** * generateUUID                                                        *)
(* ===================================================================== *)

Module UuidFacts.
Import Uuid.

Lemma below_16 (r : N) :
  (r < 16)%N -> exists k, k < 16 /\ r = N.of_nat k.
Proof. intros H. exists (N.to_nat r). lia. Qed.

Lemma replaceChar_x r :
  (r < 16)%N ->
  exists c, replaceChar "x" r = String c EmptyString /\ fits "x" c = true.
Proof.
  intros (k & Hk & ->)%below_16.
  do 16 (destruct k as [|k]; [vm_compute; by eexists|]). lia.
Qed.

Lemma replaceChar_y r :
  (r < 16)%N ->
  exists c, replaceChar "y" r = String c EmptyString /\ fits "y" c = true.
Proof.
  intros (k & Hk & ->)%below_16.
  do 16 (destruct k as [|k]; [vm_compute; by eexists|]). lia.
Qed.

Lemma fits_other p : p <> "x"%char -> p <> "y"%char -> fits p p = true.
Proof.
  intros Hx Hy. unfold fits.
  rewrite (proj2 (Ascii.eqb_neq p "x") Hx), (proj2 (Ascii.eqb_neq p "y") Hy).
  apply Ascii.eqb_refl.
Qed.

Lemma replaceXY_fits draw :
  (forall k, (draw k < 16)%N) ->
  forall s k,
    Forall2 (fun p c => fits p c = true)
      (list_ascii_of_string s)
      (list_ascii_of_string (replaceXY draw k s)).
Proof.
  intros Hdraw. induction s as [|p s IH]; intros k; [constructor|].
  cbn [replaceXY list_ascii_of_string].
  destruct (Ascii.eqb_spec p "x") as [->|Hx]; simpl.
  - destruct (replaceChar_x (draw k) (Hdraw k)) as (c & -> & Hc).
    change (String c "" +:+ ?r) with (String c r). simpl.
    constructor; [done | apply IH].
  - destruct (Ascii.eqb_spec p "y") as [->|Hy]; simpl.
    + destruct (replaceChar_y (draw k) (Hdraw k)) as (c & -> & Hc).
      change (String c "" +:+ ?r) with (String c r). simpl.
      constructor; [done | apply IH].
    + constructor; [by apply fits_other | apply IH].
Qed.

Lemma get_lookup s i : String.get i s = list_ascii_of_string s !! i.
Proof.
  revert i. induction s as [|c s IH]; intros [|i]; simpl; auto.
Qed.

Lemma length_list_ascii s :
  length (list_ascii_of_string s) = String.length s.
Proof. induction s as [|c s IH]; simpl; [done | by f_equal]. Qed.

(** X24.  Whatever numbers [Math.random] returns (each [Math.random()
    * 16 | 0] being one of 0..15), [generateUUID] returns a string of
    the shape of its pattern: 36 characters, hyphens at the positions
    8, 13, 18 and 23, the digit 4 at position 14, one of 8, 9, a, b at
    position 19, and a lower-case hexadecimal digit everywhere else. *)
Theorem generateUUID_well_formed (draw : nat -> N) :
  (forall k, (draw k < 16)%N) ->
  Forall2 (fun p c => fits p c = true)
    (list_ascii_of_string pattern)
    (list_ascii_of_string (generateUUID draw)) /\
  String.length (generateUUID draw) = 36 /\
  (forall i : nat, i ∈ [8; 13; 18; 23] ->
             String.get i (generateUUID draw) = Some "-"%char) /\
  String.get 14 (generateUUID draw) = Some "4"%char /\
  (exists c, String.get 19 (generateUUID draw) = Some c /\
             c ∈ list_ascii_of_string "89ab") /\
  (forall (i : nat) c, String.get i (generateUUID draw) = Some c ->
               i ∉ [8; 13; 18; 23] -> isHex c = true).
Proof.
  intros Hdraw.
  assert (Forall2 (fun p c => fits p c = true)
            (list_ascii_of_string pattern)
            (list_ascii_of_string (generateUUID draw))) as Hfits
    by exact (replaceXY_fits draw Hdraw pattern 0).
  assert (forall i p,
            list_ascii_of_string pattern !! i = Some p ->
            exists c, String.get i (generateUUID draw) = Some c /\
                      fits p c = true) as Hat.
  { intros i p Hp.
    destruct (Forall2_lookup_l _ _ _ i p Hfits Hp) as (c & Hc & Hpc).
    exists c. by rewrite get_lookup. }
  assert (forall i : nat, i ∈ [8; 13; 18; 23] ->
                    String.get i (generateUUID draw) = Some "-"%char)
    as Hhyphens.
  { intros i Hi.
    assert (list_ascii_of_string pattern !! i = Some "-"%char) as Hp
      by (set_unfold in Hi; destruct Hi as [->|[->|[->|[->|[]]]]]; done).
    destruct (Hat i _ Hp) as (c & Hc & Hpc).
    change (fits "-" c) with (Ascii.eqb "-" c) in Hpc.
    apply Ascii.eqb_eq in Hpc. by rewrite Hc, <- Hpc. }
  split; [done|]. split; [|split; [done|split; [|split]]].
  - rewrite <- length_list_ascii, <- (Forall2_length _ _ _ Hfits). done.
  - destruct (Hat 14 "4"%char eq_refl) as (c & Hc & Hpc).
    change (fits "4" c) with (Ascii.eqb "4" c) in Hpc.
    apply Ascii.eqb_eq in Hpc. by rewrite Hc, <- Hpc.
  - destruct (Hat 19 "y"%char eq_refl) as (c & Hc & Hpc).
    exists c. split; [done|].
    change (fits "y" c)
      with (existsb (Ascii.eqb c) (list_ascii_of_string "89ab")) in Hpc.
    apply existsb_exists in Hpc as (d & Hd & ->%Ascii.eqb_eq).
    by apply list_elem_of_In.
  - intros i c Hc Hi. rewrite get_lookup in Hc.
    destruct (Forall2_lookup_r _ _ _ i c Hfits Hc) as (p & Hp & Hpc).
    assert (i < 36) as Hlt by (apply lookup_lt_Some in Hp; exact Hp).
    assert (p = "x"%char \/ p = "y"%char \/ p = "4"%char) as Hcases.
    { do 36 (destruct i as [|i];
             [cbv in Hp; injection Hp as <-;
              first [ by auto
                    | exfalso; apply Hi; repeat constructor ]|]).
      lia. }
    destruct Hcases as [-> | [-> | ->]].
    + exact Hpc.
    + change (fits "y" c)
        with (existsb (Ascii.eqb c) (list_ascii_of_string "89ab")) in Hpc.
      apply existsb_exists in Hpc as (d & Hd & ->%Ascii.eqb_eq).
      simpl in Hd. by destruct Hd as [<-|[<-|[<-|[<-|[]]]]].
    + change (fits "4" c) with (Ascii.eqb "4" c) in Hpc.
      by apply Ascii.eqb_eq in Hpc as <-.
Qed.

Lemma generateUUID_well_formed_witness :
  String.length (generateUUID (fun k => N.of_nat (k mod 16))) = 36 /\
  String.get 14 (generateUUID (fun k => N.of_nat (k mod 16)))
    = Some "4"%char.
Proof.
  destruct (generateUUID_well_formed (fun k => N.of_nat (k mod 16)))
    as (_ & Hlen & _ & Hversion & _).
  - intros k. pose proof (Nat.mod_upper_bound k 16). lia.
  - split; [exact Hlen | exact Hversion].
Defined.

End UuidFacts.
(* ===================================================================== *)
(** * ensureConfigDirectories                                             *)
(* ===================================================================== *)

Module SetupFacts.
Import Js Config World Run Store Setup.

(** ** What exists stays *)

Lemma extends_refl h : extends h h.
Proof.
  repeat split; try done. intros dir ->. exists []. by rewrite app_nil_r.
Qed.

Lemma extends_trans h1 h2 h3 : extends h1 h2 -> extends h2 h3 -> extends h1 h3.
Proof.
  intros (Hc1 & Hs1 & Hl1 & Ht1 & Hv1 & Hb1 & Hf1)
         (Hc2 & Hs2 & Hl2 & Ht2 & Hv2 & Hb2 & Hf2).
  repeat split.
  - auto.
  - auto.
  - intros Hl. rewrite Hl2, Hl1; [done|done|]. by rewrite Hl1.
  - intros dir Hdir. destruct (Ht1 dir Hdir) as (more1 & Hm1).
    destruct (Ht2 _ Hm1) as (more2 & Hm2).
    exists (more1 ++ more2). by rewrite Hm2, app_assoc.
  - congruence.
  - congruence.
  - congruence.
Qed.

Lemma present_mono h h' t :
  extends h h' -> present h t = true -> present h' t = true.
Proof.
  intros (Hc & Hs & Hl & Ht & _) Hp.
  destruct t as [| |[| |file]]; simpl in *.
  - auto.
  - destruct (templates h) as [dir|]; [|done].
    by destruct (Ht dir eq_refl) as (more & ->).
  - destruct (smtpConfig h) as [d|]; [|done]. by rewrite (Hs d eq_refl).
  - assert (logs h <> LogAbsent) as Hne by (intros E; by rewrite E in Hp).
    by rewrite (Hl Hne).
  - destruct (templates h) as [dir|]; [|done].
    destruct (Ht dir eq_refl) as (more & ->).
    rewrite existsb_app. by rewrite Hp.
Qed.

(** ** The steps, one by one *)

Lemma same_dir (d : option (list (string * option EmailTemplate))) :
  forall dir, d = Some dir -> exists more, d = Some (dir ++ more).
Proof. intros dir ->. exists []. by rewrite app_nil_r. Qed.

Lemma extends_setConfigDir h : extends h (setConfigDir h true).
Proof. unfold extends. simpl. split_and!; try done. apply same_dir. Qed.

Lemma extends_newTemplatesDir h :
  templates h = None ->
  extends h (setTemplates (setConfigDir h true) (Some [])).
Proof.
  intros E. unfold extends. simpl. split_and!; try done.
  intros dir Hdir. congruence.
Qed.

Lemma extends_setSmtpConfig h d :
  smtpConfig h = None -> extends h (setSmtpConfig h (Some d)).
Proof.
  intros E. unfold extends. simpl. split_and!; try done.
  - intros d' Hd'. congruence.
  - apply same_dir.
Qed.

Lemma extends_setLogs h l :
  logs h = LogAbsent -> extends h (setLogs h l).
Proof.
  intros E. unfold extends. simpl. split_and!; try done. apply same_dir.
Qed.

Lemma extends_addFile h dir e :
  templates h = Some dir -> extends h (setTemplates h (Some (dir ++ [e]))).
Proof.
  intros E. unfold extends. simpl. split_and!; try done.
  intros dir' Hdir'. rewrite E in Hdir'. injection Hdir' as <-. by eexists.
Qed.

Lemma ensureConfigDir_spec h : looksAfter ConfigDir ensureConfigDir h.
Proof.
  unfold looksAfter, ensureConfigDir. simpl.
  destruct (configDir h) eqn:E.
  - split; [done|]. right. exists h.
    split; [done|]. split; [apply extends_refl|]. by split.
  - split; [done|]. destruct (fails h ConfigDir) eqn:F.
    + by left.
    + right. eexists. split; [done|].
      split; [apply extends_setConfigDir|]. by split.
Qed.

Lemma ensureTemplatesDir_spec h : looksAfter TemplatesDir ensureTemplatesDir h.
Proof.
  unfold looksAfter, ensureTemplatesDir. simpl.
  destruct (templates h) as [dir|] eqn:E.
  - split; [done|]. right. exists h.
    split; [done|]. split; [apply extends_refl|]. by rewrite E.
  - split; [done|]. destruct (fails h TemplatesDir) eqn:F.
    + by left.
    + right. eexists. split; [done|].
      split; [by apply extends_newTemplatesDir|]. by split.
Qed.

Lemma writeConfig_spec h :
  configDir h = true ->
  looksAfter (Document SMTP_CONFIG_FILE)
    (unlessExists SMTP_CONFIG_FILE (fun h => writeConfig (defaultConfig h) h))
    h.
Proof.
  intros Hdir. unfold looksAfter, unlessExists, andThen, pathExists,
    writeConfig. simpl.
  destruct (smtpConfig h) as [d|] eqn:E.
  - split; [done|]. right. exists h.
    split; [done|]. split; [apply extends_refl|]. by rewrite E.
  - split; [done|]. rewrite Hdir, orb_false_r.
    destruct (fails h (Document SMTP_CONFIG_FILE)) eqn:F.
    + by left.
    + right. eexists. split; [done|].
      split; [by apply extends_setSmtpConfig|]. by split.
Qed.

Lemma writeLogs_spec h :
  configDir h = true ->
  looksAfter (Document LOG_FILE) (unlessExists LOG_FILE (writeLogs [])) h.
Proof.
  intros Hdir. unfold looksAfter, unlessExists, andThen, pathExists,
    writeLogs. simpl.
  destruct (logs h) eqn:E.
  - split; [done|]. rewrite Hdir, orb_false_r.
    destruct (fails h (Document LOG_FILE)) eqn:F.
    + by left.
    + right. eexists. split; [done|].
      split; [by apply extends_setLogs|]. by split.
  - split; [done|]. right. exists h.
    split; [done|]. split; [apply extends_refl|]. by rewrite E.
  - split; [done|]. right. exists h.
    split; [done|]. split; [apply extends_refl|]. by rewrite E.
Qed.

Lemma existsb_last file (t : EmailTemplate)
    (dir : list (string * option EmailTemplate)) :
  existsb (fun e => String.eqb e.1 file) (dir ++ [(file, Some t)]) = true.
Proof. rewrite existsb_app. simpl. by rewrite String.eqb_refl, orb_true_r. Qed.

Lemma writeTemplate_spec file (pick : Home -> EmailTemplate) h :
  is_Some (templates h) ->
  looksAfter (Document (TemplateFile file))
    (unlessExists (TemplateFile file)
       (fun h => writeTemplate file (pick h) h)) h.
Proof.
  intros [dir Hdir]. unfold looksAfter, unlessExists, andThen, pathExists,
    writeTemplate. simpl. rewrite Hdir.
  destruct (existsb (fun e => String.eqb e.1 file) dir) eqn:E.
  - split; [done|]. right. exists h.
    split; [done|]. split; [apply extends_refl|]. by rewrite Hdir.
  - split; [done|]. rewrite Hdir.
    destruct (fails h (Document (TemplateFile file))) eqn:F.
    + by left.
    + right. eexists. split; [done|]. unfold dirWrite. rewrite E.
      split; [by apply extends_addFile|].
      split; [simpl; apply existsb_last | done].
Qed.

(** ** The whole run *)

Lemma targets_all (P : Target -> Prop) :
  (forall t, t ∈ targets -> P t) ->
  P ConfigDir /\ P TemplatesDir /\ P (Document SMTP_CONFIG_FILE) /\
  P (Document (TemplateFile "default.json")) /\
  P (Document (TemplateFile "ie-outreach.json")) /\
  P (Document (TemplateFile "esade-outreach.json")) /\
  P (Document LOG_FILE).
Proof.
  intros H. split_and!; apply H; unfold targets; repeat constructor.
Qed.

Lemma ensureConfigDirectories_present h :
  (forall t, t ∈ targets -> present h t = true) ->
  ensureConfigDirectories h = (Ok tt, h).
Proof.
  intros Hall.
  destruct (targets_all _ Hall) as (H1 & H2 & H3 & H4 & H5 & H6 & H7).
  assert (configDir h = true) as Hdir by exact H1.
  assert (is_Some (templates h)) as Htpl
    by (simpl in H2; by destruct (templates h)).
  unfold ensureConfigDirectories, catch.
  unfold andThen at 1.
  rewrite (proj1 (ensureConfigDir_spec h) H1).
  unfold andThen at 1.
  rewrite (proj1 (ensureTemplatesDir_spec h) H2).
  unfold andThen at 1.
  rewrite (proj1 (writeConfig_spec h Hdir) H3).
  unfold andThen at 1.
  rewrite (proj1 (writeTemplate_spec "default.json"
                    (fun h => (builtins h).1.1) h Htpl) H4).
  unfold andThen at 1.
  rewrite (proj1 (writeTemplate_spec "ie-outreach.json"
                    (fun h => (builtins h).1.2) h Htpl) H5).
  unfold andThen at 1.
  rewrite (proj1 (writeTemplate_spec "esade-outreach.json"
                    (fun h => (builtins h).2) h Htpl) H6).
  by rewrite (proj1 (writeLogs_spec h Hdir) H7).
Qed.

Lemma step_then t m (k : H unit) h :
  looksAfter t m h ->
  (present h t = false /\ fails h t = true /\
   andThen m (fun _ => k) h = (Throw ioError, h)) \/
  (exists h1,
     andThen m (fun _ => k) h = k h1 /\ extends h h1 /\
     present h1 t = true).
Proof.
  intros [_ [(Hp & Hf & Hrun)|(h1 & Hrun & Hext & Hp & _)]].
  - left. unfold andThen. by rewrite Hrun.
  - right. exists h1. unfold andThen. by rewrite Hrun.
Qed.

Lemma present_templatesDir h :
  present h TemplatesDir = true -> is_Some (templates h).
Proof. simpl. by destruct (templates h). Qed.

Lemma extends_fails h h' t : extends h h' -> fails h' t = fails h t.
Proof. intros (_ & _ & _ & _ & _ & _ & ->). done. Qed.

Ltac carry Hext :=
  repeat match goal with
         | H : present _ _ = true |- _ =>
             apply (present_mono _ _ _ Hext) in H
         end.

Ltac stopped Hext t :=
  left; eexists _, t; split_and!;
  [ reflexivity
  | exact Hext
  | unfold targets; repeat constructor
  | assumption
  | first [ assumption
          | rewrite <- (extends_fails _ _ t Hext); assumption ] ].

(** How a run ends: it throws at the first target that is missing and
    cannot be created, or it returns with every target in place; what
    existed is kept in both cases. *)
Lemma ensureConfigDirectories_run h :
  (exists h' t,
     ensureConfigDirectories h = (Throw ioError, h') /\ extends h h' /\
     t ∈ targets /\ present h' t = false /\ fails h t = true) \/
  (exists h',
     ensureConfigDirectories h = (Ok tt, h') /\ extends h h' /\
     forall t, t ∈ targets -> present h' t = true).
Proof.
  unfold ensureConfigDirectories, catch.
  destruct (step_then _ _
              (andThen ensureTemplatesDir (fun _ =>
               andThen (unlessExists SMTP_CONFIG_FILE
                          (fun h => writeConfig (defaultConfig h) h)) (fun _ =>
               andThen (unlessExists (TemplateFile "default.json")
                          (fun h => writeTemplate "default.json"
                                      (builtins h).1.1 h)) (fun _ =>
               andThen (unlessExists (TemplateFile "ie-outreach.json")
                          (fun h => writeTemplate "ie-outreach.json"
                                      (builtins h).1.2 h)) (fun _ =>
               andThen (unlessExists (TemplateFile "esade-outreach.json")
                          (fun h => writeTemplate "esade-outreach.json"
                                      (builtins h).2 h)) (fun _ =>
               unlessExists LOG_FILE (writeLogs [])))))))
              h (ensureConfigDir_spec h))
    as [(Hp & Hf & ->)|(h1 & -> & E1 & P1)].
  { pose proof (extends_refl h) as E0. stopped E0 ConfigDir. }
  destruct (step_then _ _
              (andThen (unlessExists SMTP_CONFIG_FILE
                          (fun h => writeConfig (defaultConfig h) h)) (fun _ =>
               andThen (unlessExists (TemplateFile "default.json")
                          (fun h => writeTemplate "default.json"
                                      (builtins h).1.1 h)) (fun _ =>
               andThen (unlessExists (TemplateFile "ie-outreach.json")
                          (fun h => writeTemplate "ie-outreach.json"
                                      (builtins h).1.2 h)) (fun _ =>
               andThen (unlessExists (TemplateFile "esade-outreach.json")
                          (fun h => writeTemplate "esade-outreach.json"
                                      (builtins h).2 h)) (fun _ =>
               unlessExists LOG_FILE (writeLogs []))))))
              h1 (ensureTemplatesDir_spec h1))
    as [(Hp & Hf & ->)|(h2 & -> & E2 & P2)].
  { stopped E1 TemplatesDir. }
  carry E2. pose proof (extends_trans _ _ _ E1 E2) as E02.
  destruct (step_then _ _
              (andThen (unlessExists (TemplateFile "default.json")
                          (fun h => writeTemplate "default.json"
                                      (builtins h).1.1 h)) (fun _ =>
               andThen (unlessExists (TemplateFile "ie-outreach.json")
                          (fun h => writeTemplate "ie-outreach.json"
                                      (builtins h).1.2 h)) (fun _ =>
               andThen (unlessExists (TemplateFile "esade-outreach.json")
                          (fun h => writeTemplate "esade-outreach.json"
                                      (builtins h).2 h)) (fun _ =>
               unlessExists LOG_FILE (writeLogs [])))))
              h2 (writeConfig_spec h2 P1))
    as [(Hp & Hf & ->)|(h3 & -> & E3 & P3)].
  { stopped E02 (Document SMTP_CONFIG_FILE). }
  carry E3. pose proof (extends_trans _ _ _ E02 E3) as E03.
  destruct (step_then _ _
              (andThen (unlessExists (TemplateFile "ie-outreach.json")
                          (fun h => writeTemplate "ie-outreach.json"
                                      (builtins h).1.2 h)) (fun _ =>
               andThen (unlessExists (TemplateFile "esade-outreach.json")
                          (fun h => writeTemplate "esade-outreach.json"
                                      (builtins h).2 h)) (fun _ =>
               unlessExists LOG_FILE (writeLogs []))))
              h3 (writeTemplate_spec "default.json"
                    (fun h => (builtins h).1.1) h3
                    (present_templatesDir _ P2)))
    as [(Hp & Hf & ->)|(h4 & -> & E4 & P4)].
  { stopped E03 (Document (TemplateFile "default.json")). }
  carry E4. pose proof (extends_trans _ _ _ E03 E4) as E04.
  destruct (step_then _ _
              (andThen (unlessExists (TemplateFile "esade-outreach.json")
                          (fun h => writeTemplate "esade-outreach.json"
                                      (builtins h).2 h)) (fun _ =>
               unlessExists LOG_FILE (writeLogs [])))
              h4 (writeTemplate_spec "ie-outreach.json"
                    (fun h => (builtins h).1.2) h4
                    (present_templatesDir _ P2)))
    as [(Hp & Hf & ->)|(h5 & -> & E5 & P5)].
  { stopped E04 (Document (TemplateFile "ie-outreach.json")). }
  carry E5. pose proof (extends_trans _ _ _ E04 E5) as E05.
  destruct (step_then _ _
              (unlessExists LOG_FILE (writeLogs []))
              h5 (writeTemplate_spec "esade-outreach.json"
                    (fun h => (builtins h).2) h5
                    (present_templatesDir _ P2)))
    as [(Hp & Hf & ->)|(h6 & -> & E6 & P6)].
  { stopped E05 (Document (TemplateFile "esade-outreach.json")). }
  carry E6. pose proof (extends_trans _ _ _ E05 E6) as E06.
  destruct (writeLogs_spec h6 P1)
    as [_ [(Hp & Hf & ->)|(h7 & -> & E7 & P7 & _)]].
  { stopped E06 (Document LOG_FILE). }
  carry E7. right. exists h7. split; [done|].
  split; [by apply (extends_trans _ _ _ E06)|].
  intros t Ht. unfold targets in Ht.
  repeat (apply elem_of_cons in Ht as [->|Ht]; [assumption|]).
  by apply elem_of_nil in Ht.
Qed.

(** X25.  [ensureConfigDirectories] never overwrites anything, whether
    it returns or throws: a directory, a configuration document or a
    log document that exists is left as it is, the files of the
    templates directory keep their content and their places, and the
    objects in memory are not touched.  When it throws, one of the
    directories or documents it looks after was missing and could not
    be created. *)
Theorem ensureConfigDirectories_keeps (h : Home) :
  exists outcome h',
    ensureConfigDirectories h = (outcome, h') /\
    extends h h' /\
    (outcome = Ok tt \/ outcome = Throw ioError) /\
    (outcome = Throw ioError ->
     exists t, t ∈ targets /\ present h t = false /\ fails h t = true).
Proof.
  destruct (ensureConfigDirectories_run h)
    as [(h' & t & -> & Hext & Ht & Hp & Hf)|(h' & -> & Hext & _)].
  - eexists _, h'. split; [done|]. split; [done|]. split; [by right|].
    intros _. exists t. split; [done|]. split; [|done].
    destruct (present h t) eqn:E; [|done].
    by rewrite (present_mono _ _ _ Hext E) in Hp.
  - eexists _, h'. split; [done|]. split; [done|]. split; [by left|]. done.
Qed.

Lemma ensureConfigDirectories_keeps_witness :
  exists h',
    ensureConfigDirectories (fresh (fun _ => true))
      = (Throw ioError, h') /\
    exists t, t ∈ targets /\ fails (fresh (fun _ => true)) t = true.
Proof.
  destruct (ensureConfigDirectories_keeps (fresh (fun _ => true)))
    as (outcome & h' & Hrun & _ & _ & Hthrow).
  assert (outcome = Throw ioError) as ->.
  { pose proof Hrun as Hc. vm_compute in Hc. by injection Hc as <- _. }
  exists h'. split; [exact Hrun|].
  destruct (Hthrow eq_refl) as (t & Ht & _ & Hf). by exists t.
Defined.

(** X26.  When everything that is missing can be created,
    [ensureConfigDirectories] returns, and afterwards the two
    directories, the configuration document, the three built-in
    template files and the log document exist, what existed before
    being kept; running it again changes nothing. *)
Theorem ensureConfigDirectories_creates (h : Home) :
  (forall t, t ∈ targets -> present h t = false -> fails h t = false) ->
  exists h',
    ensureConfigDirectories h = (Ok tt, h') /\
    extends h h' /\
    (forall t, t ∈ targets -> present h' t = true) /\
    ensureConfigDirectories h' = (Ok tt, h').
Proof.
  intros Hcan.
  destruct (ensureConfigDirectories_run h)
    as [(h' & t & _ & Hext & Ht & Hp & Hf)|(h' & Hrun & Hext & Hall)].
  - exfalso. destruct (present h t) eqn:E.
    + by rewrite (present_mono _ _ _ Hext E) in Hp.
    + by rewrite (Hcan t Ht E) in Hf.
  - exists h'. split_and!; try done.
    by apply ensureConfigDirectories_present.
Qed.

Lemma ensureConfigDirectories_creates_witness :
  exists h',
    ensureConfigDirectories (fresh (fun _ => false)) = (Ok tt, h') /\
    world h' = World.initial.
Proof.
  destruct (ensureConfigDirectories_creates (fresh (fun _ => false)))
    as (h' & Hrun & _).
  - intros t _ _. reflexivity.
  - exists h'. split; [exact Hrun|].
    pose proof Hrun as Hc. vm_compute in Hc. by injection Hc as <-.
Defined.

End SetupFacts.
(* ===================================================================== *)
(** * The list tools                                                      *)
(* ===================================================================== *)

Module ToolsMore.
Import Js Config Mail World Run Run.Notations Store EmailService.
Import RequestHandler SmtpModel StoreViews SmtpViews ToolHandlers.
Import StoreFacts SmtpFacts SendFacts SmtpMore SendMore.

Lemma handleGetSmtpConfigs_eq w :
  handleGetSmtpConfigs w = (Ok (Listed (configsOf w)), w).
Proof.
  unfold handleGetSmtpConfigs, tryCatch, bind.
  by rewrite getSmtpConfigs_eq, configsOf_eq.
Qed.

(** X27.  The tools [get-smtp-configs] and [get-email-templates] never
    fail and change nothing.  The first lists the servers of the
    configuration document, none when the document has no
    [smtpServers] field, and the module-level default servers when the
    document cannot be read.  After an [add-smtp-config] that takes
    effect it lists the entries there were, in their order, followed
    by the new entry. *)
Theorem list_tools_read_only (w : World.t) :
  handleGetSmtpConfigs w = (Ok (Listed (configsOf w)), w) /\
  handleGetEmailTemplates w = (Ok (Listed (templatesOf w)), w) /\
  (configFile w = None -> configsOf w = defaultServers w) /\
  (forall doc,
     configFile w = Some doc -> doc !! "smtpServers" = None ->
     configsOf w = []) /\
  (forall uuid p,
     takesEffect w = true ->
     exists w' earlier,
       handleAddSmtpConfig uuid p w = (Ok (ConfigOk (newConfig uuid p)), w') /\
       handleGetSmtpConfigs w' =
         (Ok (Listed (earlier ++ [newConfig uuid p])), w') /\
       smtp_id <$> earlier = smtp_id <$> configsOf w).
Proof.
  split_and!.
  - apply handleGetSmtpConfigs_eq.
  - unfold handleGetEmailTemplates, tryCatch, bind.
    by rewrite getEmailTemplates_value.
  - intros Hnone. by rewrite configsOf_eq, Hnone.
  - intros doc Hdoc Hfield. rewrite configsOf_eq, Hdoc.
    unfold smtpServers. by rewrite Hfield.
  - intros uuid p Heff. eexists _, _.
    split; [apply handleAddSmtpConfig_eq|].
    rewrite handleGetSmtpConfigs_eq, (committed_effective _ w Heff).
    split; [reflexivity|].
    destruct (smtp_isDefault (newConfig uuid p)); [|done].
    rewrite <- list_fmap_compose. by apply list_fmap_ext.
Qed.

Lemma list_tools_read_only_witness :
  exists w',
    handleAddSmtpConfig "relay" Examples.addDefaultSmtp World.initial =
      (Ok (ConfigOk (newConfig "relay" Examples.addDefaultSmtp)), w') /\
    exists earlier,
      handleGetSmtpConfigs w' =
        (Ok (Listed (earlier ++ [newConfig "relay" Examples.addDefaultSmtp])),
         w') /\
      smtp_id <$> earlier = ["aws-ses"; "gmail"].
Proof.
  destruct (list_tools_read_only World.initial) as (_ & _ & _ & _ & Hadd).
  destruct (Hadd "relay" Examples.addDefaultSmtp eq_refl)
    as (w' & earlier & Hrun & Hlist & Hids).
  exists w'. split; [exact Hrun|]. exists earlier.
  split; [exact Hlist | exact Hids].
Defined.

End ToolsMore.
